(** * Spatial invoice chunker and table normalizer: a shallow embedding

    Sources embedded here:
    - [pdf_pipeline_modular/chunking/spatial_invoice_chunker.py]
      (class [SpatialInvoiceChunker]);
    - [pdf_pipeline_modular/normalizer/normalizer.py]
      ([normalize_elements], [extract_table_rows], [extract_position_names],
      [reconstruct_table_structure]).

    Modelling conventions.
    - A Python [str] is a [string] holding the UTF-8 bytes of its code
      points.  What the source does character by character ([str.strip],
      [str.split], [str.lower], [str.isupper], [str.isdigit], [len], the
      classes [\d] and [\s], [re.IGNORECASE]) is done on the code points,
      with the tables of the Unicode character database.
    - A coordinate or a font size is a finite [float] and is the rational
      [Q] that is its value ([Py.float_of] gives the float that a decimal
      literal stands for); comparisons, [min] and [max] are exact on these,
      and the result of a subtraction or a division is rounded to the
      binary64 format as the machine does.  A confidence may be any
      [float], not-a-number included, and is a binary64 [float] of the
      kernel.
    - A [dict] with optional keys read through [.get(key, default)] is a
      record of [option] fields; a [dict] that is built key by key keeps its
      insertion order as an association list. *)

From Stdlib Require Import Strings.String Strings.Ascii Lists.List.
From Stdlib Require Import ZArith NArith QArith Qabs Bool Lia.
From Stdlib Require Import Numbers.DecimalString.
From Stdlib Require Import Sorting.Permutation.
From Stdlib Require Import Floats.
Import ListNotations.

Close Scope Q_scope.
Set Warnings "-inexact-float".
Open Scope string_scope.
Open Scope list_scope.

(** ** Python string primitives *)

Module Py.

Definition code (c : ascii) : N := N_of_ascii c.

Definition in_range (lo hi : N) (c : ascii) : bool :=
  (N.leb lo (code c) && N.leb (code c) hi)%bool.

(** *** The characters of a [str] *)

(** A continuation byte of a UTF-8 sequence. *)
Definition is_cont (c : ascii) : bool := in_range 128 191 c.

(** The characters of a [str], each as the UTF-8 sequence of its code
    point: a byte that is no continuation byte, with the continuation bytes
    that follow it. *)
Fixpoint chars (s : string) : list string :=
  match s with
  | EmptyString => []
  | String c rest =>
      match chars rest with
      | String d g :: gs =>
          if is_cont d then String c (String d g) :: gs
          else String c EmptyString :: String d g :: gs
      | _ => [String c EmptyString]
      end
  end.

(** [''.join(parts)] *)
Definition concat (parts : list string) : string :=
  fold_right append EmptyString parts.

(** No code point: what [ord] gives for bytes that encode none. *)
Definition no_char : N := 1114112%N.

(** [ord(ch)]: the code point of a character. *)
Definition ord (ch : string) : N :=
  (match ch with
  | String a EmptyString => if N.ltb (code a) 128 then code a else no_char
  | String a (String b EmptyString) =>
      if in_range 194 223 a then (code a - 192) * 64 + (code b - 128)
      else no_char
  | String a (String b (String c EmptyString)) =>
      if in_range 224 239 a
      then ((code a - 224) * 64 + (code b - 128)) * 64 + (code c - 128)
      else no_char
  | String a (String b (String c (String d EmptyString))) =>
      if in_range 240 244 a
      then (((code a - 240) * 64 + (code b - 128)) * 64 + (code c - 128)) * 64
           + (code d - 128)
      else no_char
  | _ => no_char
  end)%N.

(** The UTF-8 sequence of a code point: [chr(cp)] as a [str]. *)
Definition utf8 (cp : N) : string :=
  (let byte (n : N) := ascii_of_N n in
  let cont (n : N) := byte (128 + n mod 64) in
  if N.ltb cp 128 then String (byte cp) EmptyString
  else if N.ltb cp 2048
  then String (byte (192 + cp / 64)) (String (cont cp) EmptyString)
  else if N.ltb cp 65536
  then String (byte (224 + cp / 4096))
         (String (cont (cp / 64)) (String (cont cp) EmptyString))
  else String (byte (240 + cp / 262144))
         (String (cont (cp / 4096))
            (String (cont (cp / 64)) (String (cont cp) EmptyString))))%N.

(** The code points of a [str]. *)
Definition codes (s : string) : list N := map ord (chars s).

(** *** Character classes

    The tables are those of the Unicode character database, version 14, as
    CPython 3.11 carries them.  An entry [(lo, hi, step)] stands for the
    code points [lo], [lo + step], ... up to [hi]. *)

Definition in_entry (cp : N) (entry : N * N * N) : bool :=
  let '(lo, hi, step) := entry in
  (N.leb lo cp && N.leb cp hi && N.eqb ((cp - lo) mod step) 0)%N%bool.

Definition in_table (table : list (N * N * N)) (cp : N) : bool :=
  existsb (in_entry cp) table.

(** The white space of [str.isspace], [str.strip], [str.split] and [\s]. *)
Definition space_table : list (N * N * N) :=
  [(9, 13, 1); (28, 32, 1); (133, 133, 1); (160, 160, 1); (5760, 5760, 1);
   (8192, 8202, 1); (8232, 8233, 1); (8239, 8239, 1); (8287, 8287, 1);
   (12288, 12288, 1)]%N.

(** The decimal digits of [\d]. *)
Definition decimal_table : list (N * N * N) :=
  [(48, 57, 1); (1632, 1641, 1); (1776, 1785, 1); (1984, 1993, 1);
   (2406, 2415, 1); (2534, 2543, 1); (2662, 2671, 1); (2790, 2799, 1);
   (2918, 2927, 1); (3046, 3055, 1); (3174, 3183, 1); (3302, 3311, 1);
   (3430, 3439, 1); (3558, 3567, 1); (3664, 3673, 1); (3792, 3801, 1);
   (3872, 3881, 1); (4160, 4169, 1); (4240, 4249, 1); (6112, 6121, 1);
   (6160, 6169, 1); (6470, 6479, 1); (6608, 6617, 1); (6784, 6793, 1);
   (6800, 6809, 1); (6992, 7001, 1); (7088, 7097, 1); (7232, 7241, 1);
   (7248, 7257, 1); (42528, 42537, 1); (43216, 43225, 1); (43264, 43273, 1);
   (43472, 43481, 1); (43504, 43513, 1); (43600, 43609, 1); (44016, 44025, 1);
   (65296, 65305, 1); (66720, 66729, 1); (68912, 68921, 1); (69734, 69743, 1);
   (69872, 69881, 1); (69942, 69951, 1); (70096, 70105, 1); (70384, 70393, 1);
   (70736, 70745, 1); (70864, 70873, 1); (71248, 71257, 1); (71360, 71369, 1);
   (71472, 71481, 1); (71904, 71913, 1); (72016, 72025, 1); (72784, 72793, 1);
   (73040, 73049, 1); (73120, 73129, 1); (92768, 92777, 1); (92864, 92873, 1);
   (93008, 93017, 1); (120782, 120831, 1); (123200, 123209, 1);
   (123632, 123641, 1); (125264, 125273, 1); (130032, 130041, 1)]%N.

(** The digits of [str.isdigit]. *)
Definition digit_table : list (N * N * N) :=
  [(48, 57, 1); (178, 179, 1); (185, 185, 1); (1632, 1641, 1);
   (1776, 1785, 1); (1984, 1993, 1); (2406, 2415, 1); (2534, 2543, 1);
   (2662, 2671, 1); (2790, 2799, 1); (2918, 2927, 1); (3046, 3055, 1);
   (3174, 3183, 1); (3302, 3311, 1); (3430, 3439, 1); (3558, 3567, 1);
   (3664, 3673, 1); (3792, 3801, 1); (3872, 3881, 1); (4160, 4169, 1);
   (4240, 4249, 1); (4969, 4977, 1); (6112, 6121, 1); (6160, 6169, 1);
   (6470, 6479, 1); (6608, 6618, 1); (6784, 6793, 1); (6800, 6809, 1);
   (6992, 7001, 1); (7088, 7097, 1); (7232, 7241, 1); (7248, 7257, 1);
   (8304, 8304, 1); (8308, 8313, 1); (8320, 8329, 1); (9312, 9320, 1);
   (9332, 9340, 1); (9352, 9360, 1); (9450, 9450, 1); (9461, 9469, 1);
   (9471, 9471, 1); (10102, 10110, 1); (10112, 10120, 1); (10122, 10130, 1);
   (42528, 42537, 1); (43216, 43225, 1); (43264, 43273, 1); (43472, 43481, 1);
   (43504, 43513, 1); (43600, 43609, 1); (44016, 44025, 1); (65296, 65305, 1);
   (66720, 66729, 1); (68160, 68163, 1); (68912, 68921, 1); (69216, 69224, 1);
   (69714, 69722, 1); (69734, 69743, 1); (69872, 69881, 1); (69942, 69951, 1);
   (70096, 70105, 1); (70384, 70393, 1); (70736, 70745, 1); (70864, 70873, 1);
   (71248, 71257, 1); (71360, 71369, 1); (71472, 71481, 1); (71904, 71913, 1);
   (72016, 72025, 1); (72784, 72793, 1); (73040, 73049, 1); (73120, 73129, 1);
   (92768, 92777, 1); (92864, 92873, 1); (93008, 93017, 1);
   (120782, 120831, 1); (123200, 123209, 1); (123632, 123641, 1);
   (125264, 125273, 1); (127232, 127242, 1); (130032, 130041, 1)]%N.

(** The upper-case characters of [str.isupper]. *)
Definition upper_table : list (N * N * N) :=
  [(65, 90, 1); (192, 214, 1); (216, 222, 1); (256, 310, 2); (313, 327, 2);
   (330, 376, 2); (377, 381, 2); (385, 386, 1); (388, 390, 2); (391, 393, 2);
   (394, 395, 1); (398, 401, 1); (403, 404, 1); (406, 408, 1); (412, 413, 1);
   (415, 416, 1); (418, 422, 2); (423, 425, 2); (428, 430, 2); (431, 433, 2);
   (434, 435, 1); (437, 439, 2); (440, 440, 1); (444, 444, 1); (452, 452, 1);
   (455, 455, 1); (458, 458, 1); (461, 475, 2); (478, 494, 2); (497, 497, 1);
   (500, 502, 2); (503, 504, 1); (506, 562, 2); (570, 571, 1); (573, 574, 1);
   (577, 579, 2); (580, 582, 1); (584, 590, 2); (880, 882, 2); (886, 886, 1);
   (895, 895, 1); (902, 904, 2); (905, 906, 1); (908, 910, 2); (911, 913, 2);
   (914, 929, 1); (931, 939, 1); (975, 975, 1); (978, 980, 1); (984, 1006, 2);
   (1012, 1012, 1); (1015, 1017, 2); (1018, 1018, 1); (1021, 1071, 1);
   (1120, 1152, 2); (1162, 1216, 2); (1217, 1229, 2); (1232, 1326, 2);
   (1329, 1366, 1); (4256, 4293, 1); (4295, 4295, 1); (4301, 4301, 1);
   (5024, 5109, 1); (7312, 7354, 1); (7357, 7359, 1); (7680, 7828, 2);
   (7838, 7934, 2); (7944, 7951, 1); (7960, 7965, 1); (7976, 7983, 1);
   (7992, 7999, 1); (8008, 8013, 1); (8025, 8031, 2); (8040, 8047, 1);
   (8120, 8123, 1); (8136, 8139, 1); (8152, 8155, 1); (8168, 8172, 1);
   (8184, 8187, 1); (8450, 8450, 1); (8455, 8455, 1); (8459, 8461, 1);
   (8464, 8466, 1); (8469, 8469, 1); (8473, 8477, 1); (8484, 8490, 2);
   (8491, 8493, 1); (8496, 8499, 1); (8510, 8511, 1); (8517, 8517, 1);
   (8544, 8559, 1); (8579, 8579, 1); (9398, 9423, 1); (11264, 11311, 1);
   (11360, 11362, 2); (11363, 11364, 1); (11367, 11373, 2); (11374, 11376, 1);
   (11378, 11378, 1); (11381, 11381, 1); (11390, 11392, 1); (11394, 11490, 2);
   (11499, 11501, 2); (11506, 11506, 1); (42560, 42604, 2); (42624, 42650, 2);
   (42786, 42798, 2); (42802, 42862, 2); (42873, 42877, 2); (42878, 42886, 2);
   (42891, 42893, 2); (42896, 42898, 2); (42902, 42922, 2); (42923, 42926, 1);
   (42928, 42932, 1); (42934, 42948, 2); (42949, 42951, 1); (42953, 42953, 1);
   (42960, 42960, 1); (42966, 42968, 2); (42997, 42997, 1); (65313, 65338, 1);
   (66560, 66599, 1); (66736, 66771, 1); (66928, 66938, 1); (66940, 66954, 1);
   (66956, 66962, 1); (66964, 66965, 1); (68736, 68786, 1); (71840, 71871, 1);
   (93760, 93791, 1); (119808, 119833, 1); (119860, 119885, 1);
   (119912, 119937, 1); (119964, 119966, 2); (119967, 119967, 1);
   (119970, 119970, 1); (119973, 119974, 1); (119977, 119980, 1);
   (119982, 119989, 1); (120016, 120041, 1); (120068, 120069, 1);
   (120071, 120074, 1); (120077, 120084, 1); (120086, 120092, 1);
   (120120, 120121, 1); (120123, 120126, 1); (120128, 120132, 1);
   (120134, 120134, 1); (120138, 120144, 1); (120172, 120197, 1);
   (120224, 120249, 1); (120276, 120301, 1); (120328, 120353, 1);
   (120380, 120405, 1); (120432, 120457, 1); (120488, 120512, 1);
   (120546, 120570, 1); (120604, 120628, 1); (120662, 120686, 1);
   (120720, 120744, 1); (120778, 120778, 1); (125184, 125217, 1);
   (127280, 127305, 1); (127312, 127337, 1); (127344, 127369, 1)]%N.

(** The lower-case characters of [str.islower]. *)
Definition lower_table : list (N * N * N) :=
  [(97, 122, 1); (170, 170, 1); (181, 181, 1); (186, 186, 1); (223, 246, 1);
   (248, 255, 1); (257, 311, 2); (312, 328, 2); (329, 375, 2); (378, 382, 2);
   (383, 384, 1); (387, 389, 2); (392, 392, 1); (396, 397, 1); (402, 402, 1);
   (405, 405, 1); (409, 411, 1); (414, 414, 1); (417, 421, 2); (424, 426, 2);
   (427, 429, 2); (432, 432, 1); (436, 438, 2); (441, 442, 1); (445, 447, 1);
   (454, 454, 1); (457, 457, 1); (460, 476, 2); (477, 495, 2); (496, 496, 1);
   (499, 501, 2); (505, 563, 2); (564, 569, 1); (572, 572, 1); (575, 576, 1);
   (578, 578, 1); (583, 591, 2); (592, 659, 1); (661, 696, 1); (704, 705, 1);
   (736, 740, 1); (837, 837, 1); (881, 883, 2); (887, 887, 1); (890, 893, 1);
   (912, 912, 1); (940, 974, 1); (976, 977, 1); (981, 983, 1); (985, 1007, 2);
   (1008, 1011, 1); (1013, 1013, 1); (1016, 1016, 1); (1019, 1020, 1);
   (1072, 1119, 1); (1121, 1153, 2); (1163, 1215, 2); (1218, 1230, 2);
   (1231, 1327, 2); (1376, 1416, 1); (4304, 4346, 1); (4349, 4351, 1);
   (5112, 5117, 1); (7296, 7304, 1); (7424, 7615, 1); (7681, 7829, 2);
   (7830, 7837, 1); (7839, 7935, 2); (7936, 7943, 1); (7952, 7957, 1);
   (7968, 7975, 1); (7984, 7991, 1); (8000, 8005, 1); (8016, 8023, 1);
   (8032, 8039, 1); (8048, 8061, 1); (8064, 8071, 1); (8080, 8087, 1);
   (8096, 8103, 1); (8112, 8116, 1); (8118, 8119, 1); (8126, 8126, 1);
   (8130, 8132, 1); (8134, 8135, 1); (8144, 8147, 1); (8150, 8151, 1);
   (8160, 8167, 1); (8178, 8180, 1); (8182, 8183, 1); (8305, 8305, 1);
   (8319, 8319, 1); (8336, 8348, 1); (8458, 8458, 1); (8462, 8463, 1);
   (8467, 8467, 1); (8495, 8495, 1); (8500, 8500, 1); (8505, 8505, 1);
   (8508, 8509, 1); (8518, 8521, 1); (8526, 8526, 1); (8560, 8575, 1);
   (8580, 8580, 1); (9424, 9449, 1); (11312, 11359, 1); (11361, 11361, 1);
   (11365, 11366, 1); (11368, 11372, 2); (11377, 11379, 2); (11380, 11382, 2);
   (11383, 11389, 1); (11393, 11491, 2); (11492, 11492, 1); (11500, 11502, 2);
   (11507, 11507, 1); (11520, 11557, 1); (11559, 11559, 1); (11565, 11565, 1);
   (42561, 42605, 2); (42625, 42651, 2); (42652, 42653, 1); (42787, 42799, 2);
   (42800, 42801, 1); (42803, 42863, 2); (42864, 42872, 1); (42874, 42876, 2);
   (42879, 42887, 2); (42892, 42894, 2); (42897, 42899, 2); (42900, 42901, 1);
   (42903, 42921, 2); (42927, 42927, 1); (42933, 42947, 2); (42952, 42954, 2);
   (42961, 42969, 2); (42998, 43000, 2); (43001, 43002, 1); (43824, 43866, 1);
   (43868, 43880, 1); (43888, 43967, 1); (64256, 64262, 1); (64275, 64279, 1);
   (65345, 65370, 1); (66600, 66639, 1); (66776, 66811, 1); (66967, 66977, 1);
   (66979, 66993, 1); (66995, 67001, 1); (67003, 67004, 1); (67456, 67456, 1);
   (67459, 67461, 1); (67463, 67504, 1); (67506, 67514, 1); (68800, 68850, 1);
   (71872, 71903, 1); (93792, 93823, 1); (119834, 119859, 1);
   (119886, 119892, 1); (119894, 119911, 1); (119938, 119963, 1);
   (119990, 119993, 1); (119995, 119997, 2); (119998, 120003, 1);
   (120005, 120015, 1); (120042, 120067, 1); (120094, 120119, 1);
   (120146, 120171, 1); (120198, 120223, 1); (120250, 120275, 1);
   (120302, 120327, 1); (120354, 120379, 1); (120406, 120431, 1);
   (120458, 120485, 1); (120514, 120538, 1); (120540, 120545, 1);
   (120572, 120596, 1); (120598, 120603, 1); (120630, 120654, 1);
   (120656, 120661, 1); (120688, 120712, 1); (120714, 120719, 1);
   (120746, 120770, 1); (120772, 120777, 1); (120779, 120779, 1);
   (122624, 122633, 1); (122635, 122654, 1); (125218, 125251, 1)]%N.

(** The title-case characters. *)
Definition title_table : list (N * N * N) :=
  [(453, 453, 1); (456, 456, 1); (459, 459, 1); (498, 498, 1);
   (8072, 8079, 1); (8088, 8095, 1); (8104, 8111, 1); (8124, 8124, 1);
   (8140, 8140, 1); (8188, 8188, 1)]%N.

(** The case-ignorable characters, which [str.lower] skips on either side of
    a capital sigma. *)
Definition ignorable_table : list (N * N * N) :=
  [(39, 39, 1); (46, 46, 1); (58, 58, 1); (94, 96, 2); (168, 168, 1);
   (173, 175, 2); (180, 180, 1); (183, 184, 1); (688, 879, 1); (884, 885, 1);
   (890, 890, 1); (900, 901, 1); (903, 903, 1); (1155, 1161, 1);
   (1369, 1369, 1); (1375, 1375, 1); (1425, 1469, 1); (1471, 1473, 2);
   (1474, 1476, 2); (1477, 1479, 2); (1524, 1524, 1); (1536, 1541, 1);
   (1552, 1562, 1); (1564, 1564, 1); (1600, 1600, 1); (1611, 1631, 1);
   (1648, 1648, 1); (1750, 1757, 1); (1759, 1768, 1); (1770, 1773, 1);
   (1807, 1809, 2); (1840, 1866, 1); (1958, 1968, 1); (2027, 2037, 1);
   (2042, 2042, 1); (2045, 2045, 1); (2070, 2093, 1); (2137, 2139, 1);
   (2184, 2184, 1); (2192, 2193, 1); (2200, 2207, 1); (2249, 2306, 1);
   (2362, 2364, 2); (2369, 2376, 1); (2381, 2381, 1); (2385, 2391, 1);
   (2402, 2403, 1); (2417, 2417, 1); (2433, 2433, 1); (2492, 2492, 1);
   (2497, 2500, 1); (2509, 2509, 1); (2530, 2531, 1); (2558, 2558, 1);
   (2561, 2562, 1); (2620, 2620, 1); (2625, 2626, 1); (2631, 2632, 1);
   (2635, 2637, 1); (2641, 2641, 1); (2672, 2673, 1); (2677, 2677, 1);
   (2689, 2690, 1); (2748, 2748, 1); (2753, 2757, 1); (2759, 2760, 1);
   (2765, 2765, 1); (2786, 2787, 1); (2810, 2815, 1); (2817, 2817, 1);
   (2876, 2876, 1); (2879, 2881, 2); (2882, 2884, 1); (2893, 2893, 1);
   (2901, 2902, 1); (2914, 2915, 1); (2946, 2946, 1); (3008, 3008, 1);
   (3021, 3021, 1); (3072, 3072, 1); (3076, 3076, 1); (3132, 3134, 2);
   (3135, 3136, 1); (3142, 3144, 1); (3146, 3149, 1); (3157, 3158, 1);
   (3170, 3171, 1); (3201, 3201, 1); (3260, 3260, 1); (3263, 3263, 1);
   (3270, 3270, 1); (3276, 3277, 1); (3298, 3299, 1); (3328, 3329, 1);
   (3387, 3388, 1); (3393, 3396, 1); (3405, 3405, 1); (3426, 3427, 1);
   (3457, 3457, 1); (3530, 3530, 1); (3538, 3540, 1); (3542, 3542, 1);
   (3633, 3633, 1); (3636, 3642, 1); (3654, 3662, 1); (3761, 3761, 1);
   (3764, 3772, 1); (3782, 3784, 2); (3785, 3789, 1); (3864, 3865, 1);
   (3893, 3897, 2); (3953, 3966, 1); (3968, 3972, 1); (3974, 3975, 1);
   (3981, 3991, 1); (3993, 4028, 1); (4038, 4038, 1); (4141, 4144, 1);
   (4146, 4151, 1); (4153, 4154, 1); (4157, 4158, 1); (4184, 4185, 1);
   (4190, 4192, 1); (4209, 4212, 1); (4226, 4226, 1); (4229, 4230, 1);
   (4237, 4237, 1); (4253, 4253, 1); (4348, 4348, 1); (4957, 4959, 1);
   (5906, 5908, 1); (5938, 5939, 1); (5970, 5971, 1); (6002, 6003, 1);
   (6068, 6069, 1); (6071, 6077, 1); (6086, 6086, 1); (6089, 6099, 1);
   (6103, 6103, 1); (6109, 6109, 1); (6155, 6159, 1); (6211, 6211, 1);
   (6277, 6278, 1); (6313, 6313, 1); (6432, 6434, 1); (6439, 6440, 1);
   (6450, 6450, 1); (6457, 6459, 1); (6679, 6680, 1); (6683, 6683, 1);
   (6742, 6744, 2); (6745, 6750, 1); (6752, 6754, 2); (6757, 6764, 1);
   (6771, 6780, 1); (6783, 6783, 1); (6823, 6823, 1); (6832, 6862, 1);
   (6912, 6915, 1); (6964, 6966, 2); (6967, 6970, 1); (6972, 6972, 1);
   (6978, 6978, 1); (7019, 7027, 1); (7040, 7041, 1); (7074, 7077, 1);
   (7080, 7081, 1); (7083, 7085, 1); (7142, 7144, 2); (7145, 7145, 1);
   (7149, 7151, 2); (7152, 7153, 1); (7212, 7219, 1); (7222, 7223, 1);
   (7288, 7293, 1); (7376, 7378, 1); (7380, 7392, 1); (7394, 7400, 1);
   (7405, 7405, 1); (7412, 7412, 1); (7416, 7417, 1); (7468, 7530, 1);
   (7544, 7544, 1); (7579, 7679, 1); (8125, 8127, 2); (8128, 8129, 1);
   (8141, 8143, 1); (8157, 8159, 1); (8173, 8175, 1); (8189, 8190, 1);
   (8203, 8207, 1); (8216, 8217, 1); (8228, 8228, 1); (8231, 8231, 1);
   (8234, 8238, 1); (8288, 8292, 1); (8294, 8303, 1); (8305, 8305, 1);
   (8319, 8319, 1); (8336, 8348, 1); (8400, 8432, 1); (11388, 11389, 1);
   (11503, 11505, 1); (11631, 11631, 1); (11647, 11647, 1); (11744, 11775, 1);
   (11823, 11823, 1); (12293, 12293, 1); (12330, 12333, 1); (12337, 12341, 1);
   (12347, 12347, 1); (12441, 12446, 1); (12540, 12542, 1); (40981, 40981, 1);
   (42232, 42237, 1); (42508, 42508, 1); (42607, 42610, 1); (42612, 42621, 1);
   (42623, 42623, 1); (42652, 42655, 1); (42736, 42737, 1); (42752, 42785, 1);
   (42864, 42864, 1); (42888, 42890, 1); (42994, 42996, 1); (43000, 43001, 1);
   (43010, 43010, 1); (43014, 43014, 1); (43019, 43019, 1); (43045, 43046, 1);
   (43052, 43052, 1); (43204, 43205, 1); (43232, 43249, 1); (43263, 43263, 1);
   (43302, 43309, 1); (43335, 43345, 1); (43392, 43394, 1); (43443, 43443, 1);
   (43446, 43449, 1); (43452, 43453, 1); (43471, 43471, 1); (43493, 43494, 1);
   (43561, 43566, 1); (43569, 43570, 1); (43573, 43574, 1); (43587, 43587, 1);
   (43596, 43596, 1); (43632, 43632, 1); (43644, 43644, 1); (43696, 43698, 2);
   (43699, 43700, 1); (43703, 43704, 1); (43710, 43711, 1); (43713, 43713, 1);
   (43741, 43741, 1); (43756, 43757, 1); (43763, 43764, 1); (43766, 43766, 1);
   (43867, 43871, 1); (43881, 43883, 1); (44005, 44005, 1); (44008, 44008, 1);
   (44013, 44013, 1); (64286, 64286, 1); (64434, 64450, 1); (65024, 65039, 1);
   (65043, 65043, 1); (65056, 65071, 1); (65106, 65106, 1); (65109, 65109, 1);
   (65279, 65279, 1); (65287, 65287, 1); (65294, 65294, 1); (65306, 65306, 1);
   (65342, 65344, 2); (65392, 65392, 1); (65438, 65439, 1); (65507, 65507, 1);
   (65529, 65531, 1); (66045, 66045, 1); (66272, 66272, 1); (66422, 66426, 1);
   (67456, 67461, 1); (67463, 67504, 1); (67506, 67514, 1); (68097, 68099, 1);
   (68101, 68102, 1); (68108, 68111, 1); (68152, 68154, 1); (68159, 68159, 1);
   (68325, 68326, 1); (68900, 68903, 1); (69291, 69292, 1); (69446, 69456, 1);
   (69506, 69509, 1); (69633, 69633, 1); (69688, 69702, 1); (69744, 69744, 1);
   (69747, 69748, 1); (69759, 69761, 1); (69811, 69814, 1); (69817, 69818, 1);
   (69821, 69821, 1); (69826, 69826, 1); (69837, 69837, 1); (69888, 69890, 1);
   (69927, 69931, 1); (69933, 69940, 1); (70003, 70003, 1); (70016, 70017, 1);
   (70070, 70078, 1); (70089, 70092, 1); (70095, 70095, 1); (70191, 70193, 1);
   (70196, 70198, 2); (70199, 70199, 1); (70206, 70206, 1); (70367, 70367, 1);
   (70371, 70378, 1); (70400, 70401, 1); (70459, 70460, 1); (70464, 70464, 1);
   (70502, 70508, 1); (70512, 70516, 1); (70712, 70719, 1); (70722, 70724, 1);
   (70726, 70726, 1); (70750, 70750, 1); (70835, 70840, 1); (70842, 70842, 1);
   (70847, 70848, 1); (70850, 70851, 1); (71090, 71093, 1); (71100, 71101, 1);
   (71103, 71104, 1); (71132, 71133, 1); (71219, 71226, 1); (71229, 71231, 2);
   (71232, 71232, 1); (71339, 71341, 2); (71344, 71349, 1); (71351, 71351, 1);
   (71453, 71455, 1); (71458, 71461, 1); (71463, 71467, 1); (71727, 71735, 1);
   (71737, 71738, 1); (71995, 71996, 1); (71998, 71998, 1); (72003, 72003, 1);
   (72148, 72151, 1); (72154, 72155, 1); (72160, 72160, 1); (72193, 72202, 1);
   (72243, 72248, 1); (72251, 72254, 1); (72263, 72263, 1); (72273, 72278, 1);
   (72281, 72283, 1); (72330, 72342, 1); (72344, 72345, 1); (72752, 72758, 1);
   (72760, 72765, 1); (72767, 72767, 1); (72850, 72871, 1); (72874, 72880, 1);
   (72882, 72883, 1); (72885, 72886, 1); (73009, 73014, 1); (73018, 73020, 2);
   (73021, 73023, 2); (73024, 73029, 1); (73031, 73031, 1); (73104, 73105, 1);
   (73109, 73111, 2); (73459, 73460, 1); (78896, 78904, 1); (92912, 92916, 1);
   (92976, 92982, 1); (92992, 92995, 1); (94031, 94031, 1); (94095, 94111, 1);
   (94176, 94177, 1); (94179, 94180, 1); (110576, 110579, 1);
   (110581, 110587, 1); (110589, 110590, 1); (113821, 113822, 1);
   (113824, 113827, 1); (118528, 118573, 1); (118576, 118598, 1);
   (119143, 119145, 1); (119155, 119170, 1); (119173, 119179, 1);
   (119210, 119213, 1); (119362, 119364, 1); (121344, 121398, 1);
   (121403, 121452, 1); (121461, 121461, 1); (121476, 121476, 1);
   (121499, 121503, 1); (121505, 121519, 1); (122880, 122886, 1);
   (122888, 122904, 1); (122907, 122913, 1); (122915, 122916, 1);
   (122918, 122922, 1); (123184, 123197, 1); (123566, 123566, 1);
   (123628, 123631, 1); (125136, 125142, 1); (125252, 125259, 1);
   (127995, 127999, 1); (917505, 917505, 1); (917536, 917631, 1);
   (917760, 917999, 1)]%N.

(** The lower-case mapping of single characters: the characters [lo], [lo +
    step], ... up to [hi] are mapped to [to], [to + step], ... *)
Definition tolower_table : list (N * N * N * N) :=
  [(65, 90, 1, 97); (192, 214, 1, 224); (216, 222, 1, 248);
   (256, 302, 2, 257); (304, 304, 1, 105); (306, 310, 2, 307);
   (313, 327, 2, 314); (330, 374, 2, 331); (376, 376, 1, 255);
   (377, 381, 2, 378); (385, 385, 1, 595); (386, 388, 2, 387);
   (390, 390, 1, 596); (391, 391, 1, 392); (393, 394, 1, 598);
   (395, 395, 1, 396); (398, 398, 1, 477); (399, 399, 1, 601);
   (400, 400, 1, 603); (401, 401, 1, 402); (403, 403, 1, 608);
   (404, 404, 1, 611); (406, 406, 1, 617); (407, 407, 1, 616);
   (408, 408, 1, 409); (412, 412, 1, 623); (413, 413, 1, 626);
   (415, 415, 1, 629); (416, 420, 2, 417); (422, 422, 1, 640);
   (423, 423, 1, 424); (425, 425, 1, 643); (428, 428, 1, 429);
   (430, 430, 1, 648); (431, 431, 1, 432); (433, 434, 1, 650);
   (435, 437, 2, 436); (439, 439, 1, 658); (440, 440, 1, 441);
   (444, 444, 1, 445); (452, 452, 1, 454); (453, 453, 1, 454);
   (455, 455, 1, 457); (456, 456, 1, 457); (458, 458, 1, 460);
   (459, 475, 2, 460); (478, 494, 2, 479); (497, 497, 1, 499);
   (498, 500, 2, 499); (502, 502, 1, 405); (503, 503, 1, 447);
   (504, 542, 2, 505); (544, 544, 1, 414); (546, 562, 2, 547);
   (570, 570, 1, 11365); (571, 571, 1, 572); (573, 573, 1, 410);
   (574, 574, 1, 11366); (577, 577, 1, 578); (579, 579, 1, 384);
   (580, 580, 1, 649); (581, 581, 1, 652); (582, 590, 2, 583);
   (880, 882, 2, 881); (886, 886, 1, 887); (895, 895, 1, 1011);
   (902, 902, 1, 940); (904, 906, 1, 941); (908, 908, 1, 972);
   (910, 911, 1, 973); (913, 929, 1, 945); (931, 939, 1, 963);
   (975, 975, 1, 983); (984, 1006, 2, 985); (1012, 1012, 1, 952);
   (1015, 1015, 1, 1016); (1017, 1017, 1, 1010); (1018, 1018, 1, 1019);
   (1021, 1023, 1, 891); (1024, 1039, 1, 1104); (1040, 1071, 1, 1072);
   (1120, 1152, 2, 1121); (1162, 1214, 2, 1163); (1216, 1216, 1, 1231);
   (1217, 1229, 2, 1218); (1232, 1326, 2, 1233); (1329, 1366, 1, 1377);
   (4256, 4293, 1, 11520); (4295, 4295, 1, 11559); (4301, 4301, 1, 11565);
   (5024, 5103, 1, 43888); (5104, 5109, 1, 5112); (7312, 7354, 1, 4304);
   (7357, 7359, 1, 4349); (7680, 7828, 2, 7681); (7838, 7838, 1, 223);
   (7840, 7934, 2, 7841); (7944, 7951, 1, 7936); (7960, 7965, 1, 7952);
   (7976, 7983, 1, 7968); (7992, 7999, 1, 7984); (8008, 8013, 1, 8000);
   (8025, 8031, 2, 8017); (8040, 8047, 1, 8032); (8072, 8079, 1, 8064);
   (8088, 8095, 1, 8080); (8104, 8111, 1, 8096); (8120, 8121, 1, 8112);
   (8122, 8123, 1, 8048); (8124, 8124, 1, 8115); (8136, 8139, 1, 8050);
   (8140, 8140, 1, 8131); (8152, 8153, 1, 8144); (8154, 8155, 1, 8054);
   (8168, 8169, 1, 8160); (8170, 8171, 1, 8058); (8172, 8172, 1, 8165);
   (8184, 8185, 1, 8056); (8186, 8187, 1, 8060); (8188, 8188, 1, 8179);
   (8486, 8486, 1, 969); (8490, 8490, 1, 107); (8491, 8491, 1, 229);
   (8498, 8498, 1, 8526); (8544, 8559, 1, 8560); (8579, 8579, 1, 8580);
   (9398, 9423, 1, 9424); (11264, 11311, 1, 11312); (11360, 11360, 1, 11361);
   (11362, 11362, 1, 619); (11363, 11363, 1, 7549); (11364, 11364, 1, 637);
   (11367, 11371, 2, 11368); (11373, 11373, 1, 593); (11374, 11374, 1, 625);
   (11375, 11375, 1, 592); (11376, 11376, 1, 594); (11378, 11378, 1, 11379);
   (11381, 11381, 1, 11382); (11390, 11391, 1, 575); (11392, 11490, 2, 11393);
   (11499, 11501, 2, 11500); (11506, 11506, 1, 11507);
   (42560, 42604, 2, 42561); (42624, 42650, 2, 42625);
   (42786, 42798, 2, 42787); (42802, 42862, 2, 42803);
   (42873, 42875, 2, 42874); (42877, 42877, 1, 7545);
   (42878, 42886, 2, 42879); (42891, 42891, 1, 42892); (42893, 42893, 1, 613);
   (42896, 42898, 2, 42897); (42902, 42920, 2, 42903); (42922, 42922, 1, 614);
   (42923, 42923, 1, 604); (42924, 42924, 1, 609); (42925, 42925, 1, 620);
   (42926, 42926, 1, 618); (42928, 42928, 1, 670); (42929, 42929, 1, 647);
   (42930, 42930, 1, 669); (42931, 42931, 1, 43859); (42932, 42946, 2, 42933);
   (42948, 42948, 1, 42900); (42949, 42949, 1, 642); (42950, 42950, 1, 7566);
   (42951, 42953, 2, 42952); (42960, 42960, 1, 42961);
   (42966, 42968, 2, 42967); (42997, 42997, 1, 42998);
   (65313, 65338, 1, 65345); (66560, 66599, 1, 66600);
   (66736, 66771, 1, 66776); (66928, 66938, 1, 66967);
   (66940, 66954, 1, 66979); (66956, 66962, 1, 66995);
   (66964, 66965, 1, 67003); (68736, 68786, 1, 68800);
   (71840, 71871, 1, 71872); (93760, 93791, 1, 93792);
   (125184, 125217, 1, 125218)]%N.

(** The classes on one character. *)
Definition is_space (ch : string) : bool := in_table space_table (ord ch).
Definition is_digit (ch : string) : bool := in_table digit_table (ord ch).
Definition is_upper (ch : string) : bool := in_table upper_table (ord ch).
Definition is_lower (ch : string) : bool := in_table lower_table (ord ch).
Definition is_title (ch : string) : bool := in_table title_table (ord ch).

(** *** [str.lower] *)

(** The lower-case form of a code point that has one of a single
    character; this is also the folding of [re.IGNORECASE]. *)
Fixpoint tolower_in (table : list (N * N * N * N)) (cp : N) : N :=
  match table with
  | [] => cp
  | (lo, hi, step, to) :: table' =>
      if in_entry cp (lo, hi, step) then (to + (cp - lo))%N
      else tolower_in table' cp
  end.

Definition tolower (cp : N) : N := tolower_in tolower_table cp.

Definition is_cased (cp : N) : bool :=
  (in_table upper_table cp || in_table lower_table cp
   || in_table title_table cp)%bool.

Definition is_ignorable (cp : N) : bool := in_table ignorable_table cp.

Fixpoint skip_ignorable (l : list N) : list N :=
  match l with
  | [] => []
  | cp :: l' => if is_ignorable cp then skip_ignorable l' else l
  end.

(** A capital sigma is final when a cased character comes before it and
    none after it, case-ignorable characters apart; [before] is read
    backwards from the sigma. *)
Definition final_sigma (before after : list N) : bool :=
  match skip_ignorable before with
  | [] => false
  | cp :: _ =>
      (is_cased cp &&
       match skip_ignorable after with
       | [] => true
       | cp' :: _ => negb (is_cased cp')
       end)%bool
  end.

(** The lower-case form of one character in its context: the capital sigma
    U+03A3 has two, the dotted capital I U+0130 one of two characters. *)
Definition lower_char (before : list N) (ch : string) (after : list string)
  : string :=
  let cp := ord ch in
  if N.eqb cp 931
  then utf8 (if final_sigma before (map ord after) then 962%N else 963%N)
  else if N.eqb cp 304 then utf8 105 ++ utf8 775
  else if N.eqb (tolower cp) cp then ch else utf8 (tolower cp).

Fixpoint lower_chars (before : list N) (todo : list string) : string :=
  match todo with
  | [] => EmptyString
  | ch :: rest =>
      lower_char before ch rest ++ lower_chars (ord ch :: before) rest
  end.

(** [s.lower()] *)
Definition lower (s : string) : string := lower_chars [] (chars s).

(** [s.startswith(p)] *)
Fixpoint startswith (p s : string) : bool :=
  match p, s with
  | EmptyString, _ => true
  | String _ _, EmptyString => false
  | String a p', String b s' => (Ascii.eqb a b && startswith p' s')%bool
  end.

(** [p in s] *)
Fixpoint isin (p s : string) : bool :=
  (startswith p s ||
   match s with
   | EmptyString => false
   | String _ s' => isin p s'
   end)%bool.

(** [any(k in s for k in ks)] *)
Definition any_in (ks : list string) (s : string) : bool :=
  existsb (fun k => isin k s) ks.

(** *** [str.strip] and [str.split] *)

Fixpoint lstrip_chars (l : list string) : list string :=
  match l with
  | [] => []
  | ch :: l' => if is_space ch then lstrip_chars l' else l
  end.

Definition rstrip_chars (l : list string) : list string :=
  rev (lstrip_chars (rev l)).

Definition lstrip (s : string) : string := concat (lstrip_chars (chars s)).
Definition rstrip (s : string) : string := concat (rstrip_chars (chars s)).

(** [s.strip()] *)
Definition strip (s : string) : string :=
  concat (rstrip_chars (lstrip_chars (chars s))).

(** Truth value of a [str]: non-empty. *)
Definition truthy (s : string) : bool :=
  match s with EmptyString => false | _ => true end.

(** [s.split(sep)] for a one-character ASCII separator: the pieces between
    the separators, empty pieces kept. *)
Fixpoint split_on (sep : ascii) (s : string) : list string :=
  match s with
  | EmptyString => [EmptyString]
  | String c rest =>
      if Ascii.eqb c sep then EmptyString :: split_on sep rest
      else match split_on sep rest with
           | [] => [String c EmptyString]
           | w :: ws => String c w :: ws
           end
  end.

(** [len(s.split())]: the number of maximal runs of characters that are no
    white space.  [inword] tells whether the previous character belonged
    to a word. *)
Fixpoint count_words_from (inword : bool) (l : list string) : nat :=
  match l with
  | [] => 0
  | ch :: rest =>
      if is_space ch then count_words_from false rest
      else (if inword then 0 else 1) + count_words_from true rest
  end.

Definition count_words (s : string) : nat := count_words_from false (chars s).

(** [sep.join(parts)] *)
Fixpoint join (sep : string) (parts : list string) : string :=
  match parts with
  | [] => EmptyString
  | [p] => p
  | p :: ps => p ++ sep ++ join sep ps
  end.

(** [s.replace(c, '')] for a one-character ASCII [c]. *)
Fixpoint remove_char (c : ascii) (s : string) : string :=
  match s with
  | EmptyString => EmptyString
  | String d rest =>
      if Ascii.eqb d c then remove_char c rest else String d (remove_char c rest)
  end.

(** [s.isdigit()] *)
Definition isdigit (s : string) : bool :=
  (truthy s && forallb is_digit (chars s))%bool.

(** [s.isupper()]: some upper-case character, and no lower-case or
    title-case one. *)
Definition isupper (s : string) : bool :=
  (existsb is_upper (chars s)
   && negb (existsb (fun ch => is_lower ch || is_title ch) (chars s)))%bool.

(** [len(s)] *)
Definition len (s : string) : nat := length (chars s).

(** [s * n] *)
Fixpoint repeat_str (s : string) (n : nat) : string :=
  match n with
  | O => EmptyString
  | S n' => s ++ repeat_str s n'
  end.

(** [str(n)] for a non-negative [int]. *)
Definition str_of_nat (n : nat) : string :=
  NilZero.string_of_uint (Nat.to_uint n).

Definition nl : string := String (ascii_of_N 10) EmptyString.

(** *** Readings used by the statements on strings *)

(** A character as [chars] cuts it: a byte and continuation bytes. *)
Fixpoint all_cont (t : string) : bool :=
  match t with
  | EmptyString => true
  | String d t' => (is_cont d && all_cont t')%bool
  end.

Definition group (g : string) : Prop :=
  match g with
  | EmptyString => False
  | String _ t => all_cont t = true
  end.

Definition proper (g : string) : Prop :=
  match g with
  | EmptyString => False
  | String h _ => is_cont h = false
  end.

(** Every character after the first starts with a byte that is no
    continuation byte. *)
Definition cut (l : list string) : Prop := Forall group l /\ Forall proper (tl l).

(** The list is empty or starts with a character that is no white
    space. *)
Definition starts_clean (l : list string) : Prop :=
  match l with
  | [] => True
  | ch :: _ => is_space ch = false
  end.

(** *** Floats

    A finite [float] is the rational it stands for.  Differences and
    quotients of floats are floats again only after rounding: [round64]
    takes a rational to the nearest number of the binary64 format, a tie to
    the one with the even significand.  Beyond the largest float, where the
    machine gives infinity, [round64] gives a number that is at least as
    large; the comparisons of the source with 5, 20 and 30 tell no
    difference. *)

Definition pow2 (e : Z) : Q :=
  if Z.leb 0 e then inject_Z (2 ^ e) else (/ inject_Z (2 ^ (- e)))%Q.

(** The integer nearest to [x], a tie going to the even one. *)
Definition round_half_even (x : Q) : Z :=
  let n := Qnum x in
  let d := Zpos (Qden x) in
  let f := (n / d)%Z in
  let r := (2 * (n mod d))%Z in
  if Z.ltb r d then f
  else if Z.ltb d r then (f + 1)%Z
  else if Z.even f then f else (f + 1)%Z.

(** [floor_log2 x] is the [e] with [2^e <= x < 2^(e+1)], for [x > 0]. *)
Definition floor_log2 (x : Q) : Z :=
  let e := (Z.log2 (Qnum x) - Z.log2 (Zpos (Qden x)))%Z in
  if Qle_bool (pow2 e) x then e else (e - 1)%Z.

(** Significands have 53 bits, and the smallest spacing is [2^-1074]. *)
Definition round64 (x : Q) : Q :=
  if Qeq_bool x 0 then 0%Q
  else
    let e := Z.max (floor_log2 (Qabs x) - 52) (-1074) in
    Qred (inject_Z (round_half_even (x / pow2 e)) * pow2 e)%Q.

(** The float that a decimal literal stands for. *)
Definition float_of (literal : Q) : Q := round64 literal.

(** [a - b] on floats *)
Definition fsub (a b : Q) : Q := round64 (a - b)%Q.

(** [a / b] on two [int]s, [b] not zero *)
Definition truediv (a b : Z) : Q := round64 (inject_Z a / inject_Z b)%Q.

End Py.

(** ** Regular expressions of the [re] module

    Patterns are given by their syntax tree and read a [str] code point by
    code point; matching is by Brzozowski derivatives.  The patterns of the
    source use neither back-references nor look-around, so whether
    [re.search] or [re.match] finds a match is a question of language
    membership. *)

Module Re.

Inductive regex : Type :=
| Void
| Eps
| Cls (p : N -> bool)
| Cat (r s : regex)
| Alt (r s : regex)
| Star (r : regex).

Fixpoint nullable (r : regex) : bool :=
  match r with
  | Void => false
  | Eps => true
  | Cls _ => false
  | Cat r s => (nullable r && nullable s)%bool
  | Alt r s => (nullable r || nullable s)%bool
  | Star _ => true
  end.

Fixpoint deriv (c : N) (r : regex) : regex :=
  match r with
  | Void => Void
  | Eps => Void
  | Cls p => if p c then Eps else Void
  | Cat r s =>
      if nullable r then Alt (Cat (deriv c r) s) (deriv c s)
      else Cat (deriv c r) s
  | Alt r s => Alt (deriv c r) (deriv c s)
  | Star r => Cat (deriv c r) (Star r)
  end.

(** The whole sequence of code points is in the language of [r]. *)
Fixpoint accepts (r : regex) (l : list N) : bool :=
  match l with
  | [] => nullable r
  | c :: rest => accepts (deriv c r) rest
  end.

(** [re.fullmatch(r, s) is not None] *)
Definition fullmatch (r : regex) (s : string) : bool := accepts r (Py.codes s).

Definition any : regex := Cls (fun _ => true).

(** [re.search(r, s) is not None]: some substring of [s] is in the
    language of [r]. *)
Definition search (r : regex) (s : string) : bool :=
  fullmatch (Cat (Star any) (Cat r (Star any))) s.

(** *** Pattern syntax *)

(** A literal character. *)
Definition chr (c : ascii) : regex := Cls (N.eqb (Py.code c)).

(** The pairs of lower-case letters that [re.IGNORECASE] takes for one
    another on top of the lower-case mapping, as far as the letters of the
    source's patterns go: [i] and the dotless i, [s] and the long s. *)
Definition extra_cases (lo : N) : list N :=
  if N.eqb lo 105 then [305%N] else if N.eqb lo 115 then [383%N] else [].

(** A literal character with code point [cp] under [re.IGNORECASE]: it
    stands for the characters whose lower-case form is that of [cp], or
    one paired with it. *)
Definition code_i (cp : N) : regex :=
  let lo := Py.tolower cp in
  Cls (fun x => (N.eqb (Py.tolower x) lo
                 || existsb (N.eqb (Py.tolower x)) (extra_cases lo))%bool).

Definition chr_i (c : ascii) : regex := code_i (Py.code c).

Definition lit (s : string) : regex :=
  fold_right (fun cp r => Cat (Cls (N.eqb cp)) r) Eps (Py.codes s).

Definition lit_i (s : string) : regex :=
  fold_right (fun cp r => Cat (code_i cp) r) Eps (Py.codes s).

Definition plus (r : regex) : regex := Cat r (Star r).
Definition opt (r : regex) : regex := Alt r Eps.

Fixpoint times (n : nat) (r : regex) : regex :=
  match n with
  | O => Eps
  | S n' => Cat r (times n' r)
  end.

Fixpoint upto (n : nat) (r : regex) : regex :=
  match n with
  | O => Eps
  | S n' => opt (Cat r (upto n' r))
  end.

(** [r{m,n}] with [n = m + k] *)
Definition rep (m k : nat) (r : regex) : regex := Cat (times m r) (upto k r).

Fixpoint alts (rs : list regex) : regex :=
  match rs with
  | [] => Void
  | [r] => r
  | r :: rs' => Alt r (alts rs')
  end.

Fixpoint seq (rs : list regex) : regex :=
  match rs with
  | [] => Eps
  | [r] => r
  | r :: rs' => Cat r (seq rs')
  end.

(** The classes [\d] and [\s], a bracketed set of literal characters, and
    [[a-z]] under [re.IGNORECASE]. *)
Definition digit : regex := Cls (Py.in_table Py.decimal_table).
Definition space : regex := Cls (Py.in_table Py.space_table).
Definition one_of (cs : string) : regex :=
  Cls (fun x => existsb (N.eqb x) (Py.codes cs)).
Definition letter_i : regex :=
  Cls (fun x => let lx := Py.tolower x in
                ((N.leb 97 lx && N.leb lx 122)
                 || N.eqb lx 305 || N.eqb lx 383)%bool).

(** A pattern [^r$] given to [re.match]: [$] holds at the end of the
    string and just before a newline that ends it. *)
Definition match_anchored (r : regex) (s : string) : bool :=
  fullmatch (Cat r (opt (lit Py.nl))) s.

(** The language of a pattern, given declaratively; [accepts] and
    [search] are proved to decide it. *)
Inductive Matches : regex -> list N -> Prop :=
| MEps : Matches Eps []
| MCls : forall (p : N -> bool) c, p c = true -> Matches (Cls p) [c]
| MCat : forall r1 r2 s1 s2,
    Matches r1 s1 -> Matches r2 s2 -> Matches (Cat r1 r2) (s1 ++ s2)
| MAltL : forall r1 r2 s, Matches r1 s -> Matches (Alt r1 r2) s
| MAltR : forall r1 r2 s, Matches r2 s -> Matches (Alt r1 r2) s
| MStar0 : forall r, Matches (Star r) []
| MStarS : forall r s1 s2,
    Matches r s1 -> Matches (Star r) s2 -> Matches (Star r) (s1 ++ s2).

End Re.

(** ** The chunker: [spatial_invoice_chunker.py] *)

Module Chunker.

Import Py Re.

Definition Qlt_bool (a b : Q) : bool := negb (Qle_bool b a).

Definition BBox : Type := (Q * Q * Q * Q)%type.
Definition b0 (b : BBox) : Q := let '(x0, _, _, _) := b in x0.
Definition b1 (b : BBox) : Q := let '(_, y0, _, _) := b in y0.
Definition b2 (b : BBox) : Q := let '(_, _, x1, _) := b in x1.
Definition b3 (b : BBox) : Q := let '(_, _, _, y1) := b in y1.
Definition zero_bbox : BBox := (0, 0, 0, 0)%Q.

(** A text element of a page: a [dict] read with [.get]. *)
Record FontInfo : Type := {
  fi_name : option string;
  fi_size : option Q
}.

Record Element : Type := {
  el_text : option string;
  el_bbox : option BBox;
  el_font_info : option FontInfo
}.

Record Page : Type := { pg_elements : option (list Element) }.

Record Table : Type := {
  tb_data : option (list (list string));
  tb_bbox : option BBox;
  tb_page : option Z
}.

Record InvoiceChunk : Type := {
  content : string;
  chunk_type : string;
  elements : list Element;
  bbox : BBox;
  page_number : Z;
  confidence : float
}.

Definition get {A : Type} (o : option A) (default : A) : A :=
  match o with Some a => a | None => default end.

(** [element.get('text', '')], [element.get('bbox', [0,0,0,0])] *)
Definition text_of (e : Element) : string := get (el_text e) "".
Definition bbox_of (e : Element) : BBox := get (el_bbox e) zero_bbox.

(** [font_info.get('size', 10)] on [element.get('font_info', {})] *)
Definition size_of (fi : option FontInfo) : Q :=
  match fi with
  | Some f => get (fi_size f) 10%Q
  | None => 10%Q
  end.

(** [self.chunk_types] *)
Definition chunk_types : list string :=
  ["header"; "addresses"; "line_items"; "totals"; "footer"].

(** [self.content_patterns], in the insertion order of the [dict]; every
    pattern is searched under [re.IGNORECASE].  Each entry is preceded by
    its text in the source. *)
Definition content_patterns : list (string * list regex) :=
  [ ("header",
     [ (* invoice\s*#?\s*\d+ *)
       seq [lit_i "invoice"; Star space; opt (chr "#"); Star space; plus digit];
       (* bill\s*#?\s*\d+ *)
       seq [lit_i "bill"; Star space; opt (chr "#"); Star space; plus digit];
       (* date\s*:?\s*\d{1,2}[/-]\d{1,2}[/-]\d{2,4} *)
       seq [lit_i "date"; Star space; opt (chr ":"); Star space; rep 1 1 digit;
            one_of "/-"; rep 1 1 digit; one_of "/-"; rep 2 2 digit];
       (* invoice\s*date *)
       seq [lit_i "invoice"; Star space; lit_i "date"];
       (* due\s*date *)
       seq [lit_i "due"; Star space; lit_i "date"] ]);
    ("addresses",
     [ (* bill\s*to\s*:? *)
       seq [lit_i "bill"; Star space; lit_i "to"; Star space; opt (chr ":")];
       (* ship\s*to\s*:? *)
       seq [lit_i "ship"; Star space; lit_i "to"; Star space; opt (chr ":")];
       (* sold\s*to\s*:? *)
       seq [lit_i "sold"; Star space; lit_i "to"; Star space; opt (chr ":")];
       (* customer\s*:? *)
       seq [lit_i "customer"; Star space; opt (chr ":")];
       (* \d+\s+[a-z\s]+\s+(st|ave|rd|blvd|drive|lane) *)
       seq [plus digit; plus space; plus (Alt letter_i space); plus space;
            alts [lit_i "st"; lit_i "ave"; lit_i "rd"; lit_i "blvd";
                  lit_i "drive"; lit_i "lane"]];
       (* [a-z\s]+,\s*[a-z]{2}\s*\d{5} *)
       seq [plus (Alt letter_i space); chr ","; Star space; times 2 letter_i;
            Star space; times 5 digit] ]);
    ("line_items",
     [ (* description *)
       lit_i "description";
       (* quantity|qty *)
       Alt (lit_i "quantity") (lit_i "qty");
       (* price|rate|amount *)
       alts [lit_i "price"; lit_i "rate"; lit_i "amount"];
       (* item\s*#? *)
       seq [lit_i "item"; Star space; opt (chr "#")];
       (* product *)
       lit_i "product";
       (* service *)
       lit_i "service" ]);
    ("totals",
     [ (* subtotal|sub\s*total *)
       Alt (lit_i "subtotal") (seq [lit_i "sub"; Star space; lit_i "total"]);
       (* tax|vat *)
       Alt (lit_i "tax") (lit_i "vat");
       (* total|grand\s*total *)
       Alt (lit_i "total") (seq [lit_i "grand"; Star space; lit_i "total"]);
       (* amount\s*due *)
       seq [lit_i "amount"; Star space; lit_i "due"];
       (* balance *)
       lit_i "balance";
       (* discount *)
       lit_i "discount" ]) ].

(** The keywords of the totals pre-filter. *)
Definition totals_keywords : list string :=
  ["gesamt"; "total"; "summe"; "betrag"; "steuer"; "mwst"; "ust"].

(** The currency marker as the source file spells it. *)
Definition currency : string := "‚Ç¨".

(** [r'\d+[,.]\d+\s*' + currency] *)
Definition money_pattern : regex :=
  seq [plus digit; one_of ",."; plus digit; Star space; lit currency].

(** First phase of [_classify_element_adaptively]: the first chunk type of
    [content_patterns] one of whose patterns is found in the text. *)
Fixpoint first_pattern_label (table : list (string * list regex)) (text : string)
  : option string :=
  match table with
  | [] => None
  | (chunk_type, patterns) :: table' =>
      if existsb (fun p => search p text) patterns then Some chunk_type
      else first_pattern_label table' text
  end.

Definition pattern_label (text : string) : option string :=
  first_pattern_label content_patterns text.

(** The patterns of the spatial clues: [r'\$[\d,]+\.?\d*'],
    [r'\d+\.\d{2}|\d+\s*x\s*\d+'] and, under [re.IGNORECASE],
    [r'\d+\s+[a-z\s]+(st|ave|rd|blvd)']. *)
Definition dollar_pattern : regex :=
  seq [chr "$"; plus (Alt digit (chr ",")); opt (chr "."); Star digit].

Definition amount_or_product_pattern : regex :=
  Alt (seq [plus digit; chr "."; times 2 digit])
      (seq [plus digit; Star space; chr "x"; Star space; plus digit]).

Definition street_pattern : regex :=
  seq [plus digit; plus space; plus (Alt letter_i space);
       alts [lit_i "st"; lit_i "ave"; lit_i "rd"; lit_i "blvd"]].

(** Second phase: the spatial and visual clues, in the order of the
    [if]/[elif] chain, ending in the default. *)
Definition spatial_label (y_position font_size : Q) (text : string) : string :=
  if (Qlt_bool 700 y_position && Qlt_bool 12 font_size)%bool then "header"
  else if (Qlt_bool y_position 200 && search dollar_pattern text)%bool
  then "totals"
  else if (Qlt_bool 200 y_position && Qlt_bool y_position 700 &&
           search amount_or_product_pattern text)%bool
  then "line_items"
  else if (Qlt_bool 500 y_position && search street_pattern text)%bool
  then "addresses"
  else if Qlt_bool 400 y_position then "header" else "footer".

Definition _classify_element_adaptively
  (element : Element) (text : string) (bbox : BBox) (font_info : option FontInfo)
  : string :=
  let y_position := b1 bbox in
  let font_size := size_of font_info in
  match pattern_label text with
  | Some chunk_type => chunk_type
  | None => spatial_label y_position font_size text
  end.

(** [sorted(xs, key=key, reverse=True)]: stable, largest key first. *)
Fixpoint insert_desc {A : Type} (key : A -> Q) (x : A) (l : list A) : list A :=
  match l with
  | [] => [x]
  | y :: l' =>
      if Qlt_bool (key x) (key y) then y :: insert_desc key x l'
      else x :: l
  end.

Definition sorted_desc {A : Type} (key : A -> Q) (l : list A) : list A :=
  fold_right (insert_desc key) [] l.

(** A [dict] from chunk type to a list of elements, in insertion order. *)
Definition Groups : Type := list (string * list Element).

Fixpoint dict_get (k : string) (g : Groups) : list Element :=
  match g with
  | [] => []
  | (k', v) :: g' => if String.eqb k k' then v else dict_get k g'
  end.

(** [g[k] = v] for a key that is present *)
Fixpoint dict_set (k : string) (v : list Element) (g : Groups) : Groups :=
  match g with
  | [] => []
  | (k', v') :: g' =>
      if String.eqb k k' then (k', v) :: g' else (k', v') :: dict_set k v g'
  end.

(** [g[k].append(x)] for a key that is present *)
Definition dict_append (k : string) (x : Element) (g : Groups) : Groups :=
  dict_set k (dict_get k g ++ [x]) g.

(** The test of the pre-filter on one element: [true] sends it to
    [totals_elements], [false] to [other_elements]. *)
Definition is_totals_element (element : Element) : bool :=
  let text := lower (text_of element) in
  if any_in totals_keywords text then true
  else if (search money_pattern text && any_in [currency] text)%bool then
    let bbox := bbox_of element in
    Qlt_bool 400 (b0 bbox)
  else false.

(** The sort key [lambda e: e.get('bbox', [0,0,0,0])[1]]. *)
Definition top_edge (e : Element) : Q := b1 (bbox_of e).

(** One turn of the second loop: the element is classified and appended
    to the group of its chunk type. *)
Definition classify_into (groups : Groups) (element : Element) : Groups :=
  let text := lower (text_of element) in
  let bbox := bbox_of element in
  let font_info := el_font_info element in
  let chunk_type := _classify_element_adaptively element text bbox font_info in
  dict_append chunk_type element groups.

Definition _adaptive_spatial_grouping (elements : list Element) : Groups :=
  let groups := map (fun chunk_type => (chunk_type, @nil Element)) chunk_types in
  let sorted_elements := sorted_desc top_edge elements in
  let '(totals_elements, other_elements) :=
    fold_left
      (fun '(totals_elements, other_elements) element =>
         if is_totals_element element
         then (totals_elements ++ [element], other_elements)
         else (totals_elements, other_elements ++ [element]))
      sorted_elements ([], []) in
  let groups := dict_set "totals" totals_elements groups in
  fold_left classify_into other_elements groups.

(** [min] and [max] of a non-empty sequence of numbers. *)
Definition qmin (a b : Q) : Q := if Qlt_bool b a then b else a.
Definition qmax (a b : Q) : Q := if Qlt_bool a b then b else a.

Definition min_of (x : Q) (xs : list Q) : Q := fold_left qmin xs x.
Definition max_of (x : Q) (xs : list Q) : Q := fold_left qmax xs x.

(** [max(a, b)] on two floats: [b] when it is the greater, else [a]. *)
Definition fmax (a b : float) : float := if (a <? b)%float then b else a.

Definition confidence_default : float := 0.8%float.
Definition confidence_table : float := 0.9%float.

(** The local [metadata] of the source is computed and dropped; it is not
    part of the returned chunk. *)
Definition _create_chunk_from_elements
  (elements : list Element) (chunk_type : string) (page_num : Z) : InvoiceChunk :=
  let combined_text := join nl (map text_of elements) in
  let bboxes := flat_map (fun e => match el_bbox e with
                                   | Some b => [b]
                                   | None => []
                                   end) elements in
  let chunk_bbox :=
    match bboxes with
    | b :: bs =>
        (min_of (b0 b) (map b0 bs), min_of (b1 b) (map b1 bs),
         max_of (b2 b) (map b2 bs), max_of (b3 b) (map b3 bs))
    | [] => zero_bbox
    end in
  {| content := combined_text;
     chunk_type := chunk_type;
     elements := elements;
     bbox := chunk_bbox;
     page_number := page_num;
     confidence := confidence_default |}.

(** The [dict] filled by [_parse_line_item_details]; an absent key is
    [None]. *)
Record Parsed : Type := {
  p_quantity : option string;
  p_unit : option string;
  p_unit_price : option string;
  p_tax_rate : option string;
  p_line_total : option string
}.

Definition empty_parsed : Parsed :=
  {| p_quantity := None; p_unit := None; p_unit_price := None;
     p_tax_rate := None; p_line_total := None |}.

(** [r'^\d+[,.]?\d*$'] *)
Definition quantity_pattern : regex := seq [plus digit; opt (one_of ",."); Star digit].

(** [r'^(Std\.|Stk\.|St\.|St√ºck|Hours?|pcs?)\.?$'] under [re.IGNORECASE] *)
Definition unit_pattern : regex :=
  Cat (alts [lit_i "Std."; lit_i "Stk."; lit_i "St."; lit_i "St√ºck";
             Cat (lit_i "Hour") (opt (chr_i "s"));
             Cat (lit_i "pc") (opt (chr_i "s"))])
      (opt (chr ".")).

(** [r'\d+[,.]?\d*\s*' + currency] *)
Definition price_pattern : regex :=
  seq [plus digit; opt (one_of ",."); Star digit; Star space; lit currency].

(** [r'\d+%'] *)
Definition tax_pattern : regex := Cat (plus digit) (chr "%").

(** The rule a sub-line falls under: the first branch of the
    [if]/[elif] chain whose test holds. *)
Inductive Rule : Type := RQuantity | RUnit | RPrice | RTax.

Definition rule_of (line : string) : option Rule :=
  if match_anchored quantity_pattern line then Some RQuantity
  else if match_anchored unit_pattern line then Some RUnit
  else if search price_pattern line then Some RPrice
  else if search tax_pattern line then Some RTax
  else None.

(** One turn of the loop over the sub-lines. *)
Definition parse_line (parsed : Parsed) (line : string) : Parsed :=
  match rule_of line with
  | Some RQuantity =>
      {| p_quantity := Some line; p_unit := p_unit parsed;
         p_unit_price := p_unit_price parsed; p_tax_rate := p_tax_rate parsed;
         p_line_total := p_line_total parsed |}
  | Some RUnit =>
      {| p_quantity := p_quantity parsed; p_unit := Some line;
         p_unit_price := p_unit_price parsed; p_tax_rate := p_tax_rate parsed;
         p_line_total := p_line_total parsed |}
  | Some RPrice =>
      match p_unit_price parsed with
      | None =>
          {| p_quantity := p_quantity parsed; p_unit := p_unit parsed;
             p_unit_price := Some line; p_tax_rate := p_tax_rate parsed;
             p_line_total := p_line_total parsed |}
      | Some _ =>
          {| p_quantity := p_quantity parsed; p_unit := p_unit parsed;
             p_unit_price := p_unit_price parsed; p_tax_rate := p_tax_rate parsed;
             p_line_total := Some line |}
      end
  | Some RTax =>
      {| p_quantity := p_quantity parsed; p_unit := p_unit parsed;
         p_unit_price := p_unit_price parsed; p_tax_rate := Some line;
         p_line_total := p_line_total parsed |}
  | None => parsed
  end.

(** [[line.strip() for line in details_text.split('\n') if line.strip()]] *)
Definition sub_lines (details_text : string) : list string :=
  map strip (filter (fun line => truthy (strip line))
                    (split_on (ascii_of_N 10) details_text)).

Definition _parse_line_item_details (details_text : string) : Parsed :=
  fold_left parse_line (sub_lines details_text) empty_parsed.

(** [enumerate(xs, start)] *)
Fixpoint enumerate {A : Type} (start : nat) (xs : list A) : list (nat * A) :=
  match xs with
  | [] => []
  | x :: xs' => (start, x) :: enumerate (S start) xs'
  end.

(** The text added for row number [i]; a row of fewer than two cells adds
    nothing.  Cells are strings, on which [str(c) if c else ""] is the
    identity. *)
Definition row_text (i : nat) (row : list string) : string :=
  match row with
  | description :: details :: _ =>
      let parsed_details := _parse_line_item_details details in
      "LINE ITEM " ++ str_of_nat i ++ ":" ++ nl
      ++ "  Description: " ++ description ++ nl
      ++ "  Quantity: " ++ get (p_quantity parsed_details) "N/A" ++ nl
      ++ "  Unit: " ++ get (p_unit parsed_details) "N/A" ++ nl
      ++ "  Unit Price: " ++ get (p_unit_price parsed_details) "N/A" ++ nl
      ++ "  Tax Rate: " ++ get (p_tax_rate parsed_details) "N/A" ++ nl
      ++ "  Line Total: " ++ get (p_line_total parsed_details) "N/A" ++ nl
      ++ repeat_str "-" 30 ++ nl
  | _ => ""
  end.

Definition _create_table_chunk (table : Table) : InvoiceChunk :=
  let table_text :=
    match tb_data table with
    | Some ((_ :: _) as rows) =>
        fold_left (fun table_text '(i, row) => (table_text ++ row_text i row)%string)
                  (enumerate 1 rows)
                  ("TABLE: Invoice Line Items" ++ nl ++ repeat_str "=" 50 ++ nl)%string
    | _ => ""
    end in
  {| content := table_text;
     chunk_type := "line_items";
     elements := [];
     bbox := get (tb_bbox table) zero_bbox;
     page_number := get (tb_page table) 1%Z;
     confidence := confidence_table |}.

(** The chunks one page adds to [chunks]: one per non-empty group, in the
    order of the groups. *)
Definition add_page_chunks (chunks : list InvoiceChunk) (numbered : nat * Page)
  : list InvoiceChunk :=
  let '(page_num, page) := numbered in
  let elements := get (pg_elements page) [] in
  let adaptive_groups := _adaptive_spatial_grouping elements in
  fold_left
    (fun chunks '(region_type, group_elements) =>
       match group_elements with
       | [] => chunks
       | _ :: _ =>
           chunks ++ [_create_chunk_from_elements group_elements region_type
                        (Z.of_nat page_num + 1)]
       end)
    adaptive_groups chunks.

Definition chunk_invoice_spatially (pages : list Page) (tables : list Table)
  : list InvoiceChunk :=
  let chunks := fold_left add_page_chunks (enumerate 0 pages) [] in
  let chunks :=
    fold_left (fun chunks table => chunks ++ [_create_table_chunk table])
              tables chunks in
  chunks.

(** [extraction_result]: nested [dict]s read with [.get(key, {})]. *)
Record TextExtraction : Type := { te_pages : option (list Page) }.
Record TableExtraction : Type := { te_tables : option (list Table) }.
Record ExtractionResult : Type := {
  text_extraction : option TextExtraction;
  table_extraction : option TableExtraction
}.

Definition chunk_invoice_extraction (extraction_result : ExtractionResult)
  : list InvoiceChunk :=
  let pages :=
    match text_extraction extraction_result with
    | Some t => get (te_pages t) []
    | None => []
    end in
  let tables :=
    match table_extraction extraction_result with
    | Some t => get (te_tables t) []
    | None => []
    end in
  chunk_invoice_spatially pages tables.

Definition _should_merge_chunks (chunk1 chunk2 : InvoiceChunk) : bool :=
  if (String.eqb (chunk_type chunk1) "line_items_header" &&
      String.eqb (chunk_type chunk2) "table_data")%bool
  then true
  else if (Z.eqb (page_number chunk1) (page_number chunk2) &&
           Qlt_bool (Qabs (fsub (b3 (bbox chunk1)) (b1 (bbox chunk2)))) 30)%bool
  then true
  else false.

Definition _merge_two_chunks (chunk1 chunk2 : InvoiceChunk) : InvoiceChunk :=
  let combined_content := (content chunk1 ++ nl ++ content chunk2)%string in
  let chunk_type0 :=
    if (confidence chunk2 <? confidence chunk1)%float
    then chunk_type chunk1 else chunk_type chunk2 in
  let chunk_type1 :=
    if (String.eqb (chunk_type chunk1) "line_items_header" &&
        String.eqb (chunk_type chunk2) "table_data")%bool
    then "line_items" else chunk_type0 in
  let combined_bbox :=
    (qmin (b0 (bbox chunk1)) (b0 (bbox chunk2)),
     qmin (b1 (bbox chunk1)) (b1 (bbox chunk2)),
     qmax (b2 (bbox chunk1)) (b2 (bbox chunk2)),
     qmax (b3 (bbox chunk1)) (b3 (bbox chunk2))) in
  {| content := combined_content;
     chunk_type := chunk_type1;
     elements := elements chunk1 ++ elements chunk2;
     bbox := combined_bbox;
     page_number := page_number chunk1;
     confidence := fmax (confidence chunk1) (confidence chunk2) |}.

(** The [while] loop over the index [i]: the list still to be read is
    [chunks[i:]]; a merge consumes two chunks, otherwise one. *)
Fixpoint _merge_related_chunks (chunks : list InvoiceChunk) : list InvoiceChunk :=
  match chunks with
  | [] => []
  | current_chunk :: rest =>
      match rest with
      | next_chunk :: rest' =>
          if _should_merge_chunks current_chunk next_chunk
          then _merge_two_chunks current_chunk next_chunk
                 :: _merge_related_chunks rest'
          else current_chunk :: _merge_related_chunks rest
      | [] => [current_chunk]
      end
  end.

(** [d[k] = d.get(k, 0) + 1] on an insertion-ordered [dict] *)
Fixpoint count_up (k : string) (d : list (string * nat)) : list (string * nat) :=
  match d with
  | [] => [(k, 1)]
  | (k', n) :: d' =>
      if String.eqb k k' then (k', n + 1) :: d' else (k', n) :: count_up k d'
  end.

Record ConfidenceBuckets : Type := { high : nat; medium : nat; low : nat }.

Record Summary : Type := {
  total_chunks : nat;
  summary_chunk_types : list (string * nat);
  average_chunk_size : Q;
  chunks_by_confidence : ConfidenceBuckets
}.

(** [sum(1 for c in chunks if test(c))] *)
Definition count_if (test : InvoiceChunk -> bool) (chunks : list InvoiceChunk) : nat :=
  length (filter test chunks).

Definition get_chunk_summary (chunks : list InvoiceChunk) : Summary :=
  let '(chunk_types, total_content_length) :=
    fold_left
      (fun '(chunk_types, total_content_length) chunk =>
         (count_up (chunk_type chunk) chunk_types,
          total_content_length + len (content chunk)))
      chunks ([], 0) in
  {| total_chunks := length chunks;
     summary_chunk_types := chunk_types;
     average_chunk_size :=
       match chunks with
       | [] => 0
       | _ :: _ =>
           truediv (Z.of_nat total_content_length) (Z.of_nat (length chunks))
       end;
     chunks_by_confidence :=
       {| high := count_if (fun c => (0.8 <=? confidence c)%float) chunks;
          medium := count_if (fun c => ((0.5 <=? confidence c)%float &&
                                        (confidence c <? 0.8)%float)%bool) chunks;
          low := count_if (fun c => (confidence c <? 0.5)%float) chunks |} |}.

(** *** Reference readings used by the statements below *)

(** The chunks the builder makes for one numbered page: one chunk per
    non-empty group, in the order of the groups. *)
Definition page_chunks (numbered : nat * Page) : list InvoiceChunk :=
  let '(page_num, page) := numbered in
  flat_map
    (fun '(region_type, group_elements) =>
       match group_elements with
       | [] => []
       | _ :: _ => [_create_chunk_from_elements group_elements region_type
                      (Z.of_nat page_num + 1)]
       end)
    (_adaptive_spatial_grouping (get (pg_elements page) [])).

(** The sequence of built chunks of a document: the page chunks of every
    page in page order, then one table chunk per table. *)
Definition built_chunks (pages : list Page) (tables : list Table) : list InvoiceChunk :=
  flat_map page_chunks (enumerate 0 pages) ++ map _create_table_chunk tables.

(** The three confidence classes: high is a confidence of at least 0.8,
    medium one of at least 0.5 and below 0.8, low one below 0.5. *)
Definition in_high (c : InvoiceChunk) : bool := (0.8 <=? confidence c)%float.
Definition in_medium (c : InvoiceChunk) : bool :=
  ((0.5 <=? confidence c)%float && (confidence c <? 0.8)%float)%bool.
Definition in_low (c : InvoiceChunk) : bool := (confidence c <? 0.5)%float.

(** The number of confidence classes a chunk is in. *)
Definition buckets_of (c : InvoiceChunk) : nat :=
  (if in_high c then 1 else 0) + (if in_medium c then 1 else 0)
  + (if in_low c then 1 else 0).

Definition rule_eqb (a b : Rule) : bool :=
  match a, b with
  | RQuantity, RQuantity | RUnit, RUnit | RPrice, RPrice | RTax, RTax => true
  | _, _ => false
  end.

(** The sub-lines that fall under rule [r], in their order. *)
Definition lines_of (r : Rule) (lines : list string) : list string :=
  filter (fun line => match rule_of line with
                      | Some r' => rule_eqb r r'
                      | None => false
                      end) lines.

Definition last_line (lines : list string) : option string :=
  hd_error (rev lines).

(** *** Sample inputs *)

(** A table [dict] without data, bounding box or page. *)
Definition bare_table : Table :=
  {| tb_data := None; tb_bbox := None; tb_page := None |}.

(** A fragment no content pattern matches, at the bottom of the page. *)
Definition plain_element : Element :=
  {| el_text := Some "hello"; el_bbox := Some (0, 0, 0, 0)%Q; el_font_info := None |}.

(** A fragment that holds a totals keyword and a quantity. *)
Definition totals_like_item : Element :=
  {| el_text := Some "Total qty 2 x 3";
     el_bbox := Some (50, 300, 100, 310)%Q;
     el_font_info := None |}.

(** The fragment of the specification's scenario. *)
Definition gesamtbetrag_element : Element :=
  {| el_text := Some "Gesamtbetrag: 1511,30 €";
     el_bbox := Some (420, 50, 520, 60)%Q;
     el_font_info := None |}.

(** A details cell with two bare numerals. *)
Definition two_quantities : string := "1" ++ nl ++ "2".

(** A details cell with every kind of sub-line. *)
Definition full_details : string :=
  "10,00" ++ nl ++ "Std." ++ nl ++ "80,00 ‚Ç¨" ++ nl ++ "19%" ++ nl ++ "800,00 ‚Ç¨".

(** A chunk whose confidence is not a number. *)
Definition unrated_chunk : InvoiceChunk :=
  {| content := "Items"; chunk_type := "line_items"; elements := [];
     bbox := zero_bbox; page_number := 1; confidence := nan |}.

Definition empty_page : Page := {| pg_elements := Some [] |}.
Definition bare_page : Page := {| pg_elements := None |}.

(** *** Further readings and sample inputs *)

(** [d.get(k, 0)] *)
Fixpoint count_of (k : string) (d : list (string * nat)) : nat :=
  match d with
  | [] => 0
  | (k', n) :: d' => if String.eqb k k' then n else count_of k d'
  end.

(** The first two lines of the text of a table with rows. *)
Definition table_banner : string :=
  "TABLE: Invoice Line Items" ++ nl ++ repeat_str "=" 50 ++ nl.

(** The sub-line falls under one of the rules. *)
Definition recognized (line : string) : bool :=
  match rule_of line with Some _ => true | None => false end.

(** A confidence between 0 and 1. *)
Definition in_unit_interval (x : float) : Prop :=
  (0 <=? x)%float = true /\ (x <=? 1)%float = true.

(** [inside b c]: the box [b] lies within the box [c]. *)
Definition inside (b c : BBox) : Prop :=
  (b0 c <= b0 b)%Q /\ (b1 c <= b1 b)%Q /\ (b2 b <= b2 c)%Q /\ (b3 b <= b3 c)%Q.

(** One page with a plain fragment and a totals-like one. *)
Definition one_page : list Page :=
  [{| pg_elements := Some [plain_element; totals_like_item] |}].

(** Some pattern of the entry is found in the text. *)
Definition matches_any (text : string) (entry : string * list regex) : bool :=
  existsb (fun p => search p text) (snd entry).

End Chunker.

(** ** The normalizer: [normalizer.py] *)

Module Normalizer.

Import Py.

Definition BBox : Type := Chunker.BBox.

(** A text element as the normalizer reads it: [el["text"]],
    [el["bbox"]] and [el["page"]] are subscripted, so the keys are there. *)
Record Element : Type := {
  text : string;
  bbox : BBox;
  page : Z
}.

Record Page : Type := { elements : list Element }.

(** An entry of the position-name list; [bbox] and [page] are set by the
    content analysis only. *)
Record PositionName : Type := {
  name : string;
  source : string;
  pn_bbox : option BBox;
  pn_page : option Z
}.

Definition description_keywords : list string :=
  ["beschreibung"; "description"; "artikel"; "item"; "position"].

(** The loop that looks for the description column: the index of the first
    header cell holding a keyword. *)
Fixpoint find_desc_col (i : nat) (header_row : list string) : option nat :=
  match header_row with
  | [] => None
  | header :: header_row' =>
      if any_in description_keywords (lower header) then Some i
      else find_desc_col (S i) header_row'
  end.

(** Method 1: the description column of the data rows. *)
Definition table_position_names (table_rows : list (list string)) : list PositionName :=
  match table_rows with
  | [] => []
  | header_row :: data_rows =>
      let desc_col_idx := find_desc_col 0 header_row in
      fold_left
        (fun position_names row =>
           match desc_col_idx with
           | Some idx =>
               match nth_error row idx with
               | Some cell =>
                   let desc := strip cell in
                   if (truthy desc && negb (any_in ["€"; "%"; ","] desc))%bool
                   then position_names ++
                        [{| name := desc; source := "table_description_column";
                            pn_bbox := None; pn_page := None |}]
                   else position_names
               | None => position_names
               end
           | None => position_names
           end)
        data_rows []
  end.

(** [sorted(xs, key=key)]: stable, smallest key first. *)
Fixpoint insert_asc {A : Type} (key : A -> Q) (x : A) (l : list A) : list A :=
  match l with
  | [] => [x]
  | y :: l' =>
      if Chunker.Qlt_bool (key y) (key x) then y :: insert_asc key x l'
      else x :: l
  end.

Definition sorted_asc {A : Type} (key : A -> Q) (l : list A) : list A :=
  fold_right (insert_asc key) [] l.

(** [t.replace(',', '').replace('.', '').isdigit()] *)
Definition is_number (t : string) : bool :=
  isdigit (remove_char "." (remove_char "," t)).

(** The test on one of the next three elements. *)
Definition looks_numeric (next_el : Element) : bool :=
  (any_in ["€"; "%"; ","] (text next_el) || is_number (text next_el))%bool.

(** The loop over the sorted elements of one page: [todo] is
    [elements[i:]], so that [elements[i+1:i+4]] is the first three of its
    tail. *)
Fixpoint scan_elements (todo : list Element) (position_names : list PositionName)
  : list PositionName :=
  match todo with
  | [] => position_names
  | el :: rest =>
      let text := strip (text el) in
      if (negb (truthy text) || any_in ["€"; "%"] text || is_number text)%bool
      then scan_elements rest position_names
      else
        let next_elements := firstn 3 rest in
        let has_numeric_following := existsb looks_numeric next_elements in
        let is_likely_position :=
          (Nat.leb 2 (count_words text) && Nat.ltb 5 (len text) &&
           negb (isupper text) && has_numeric_following)%bool in
        if is_likely_position
        then scan_elements rest
               (position_names ++
                [{| name := text; source := "content_analysis";
                    pn_bbox := Some (bbox el); pn_page := Some (page el) |}])
        else scan_elements rest position_names
  end.

(** Method 2 over all pages, continuing the list of method 1. *)
Definition content_position_names (pages : list Page) (position_names : list PositionName)
  : list PositionName :=
  fold_left
    (fun position_names page =>
       scan_elements (sorted_asc (fun e => Chunker.b1 (bbox e)) (elements page))
                     position_names)
    pages position_names.

(** The list [position_names] as it stands before the duplicates go. *)
Definition candidate_position_names (pages : list Page) (table_rows : list (list string))
  : list PositionName :=
  content_position_names pages (table_position_names table_rows).

(** One turn of the last loop: [seen] is the set of names met so far. *)
Definition keep_unseen (state : list string * list PositionName) (pos : PositionName)
  : list string * list PositionName :=
  let '(seen, unique_positions) := state in
  if existsb (String.eqb (name pos)) seen then (seen, unique_positions)
  else (name pos :: seen, unique_positions ++ [pos]).

Definition unique_by_name (position_names : list PositionName) : list PositionName :=
  snd (fold_left keep_unseen position_names ([], [])).

Definition extract_position_names (pages : list Page) (table_rows : list (list string))
  : list PositionName :=
  unique_by_name (candidate_position_names pages table_rows).

Definition summary_keywords : list string :=
  ["summe"; "steuer"; "tax"; "total"; "gesamt"; "zwischensumme"; "umsatzsteuer"].

Definition is_summary (row : list string) : bool :=
  let row_text := lower (join " " row) in
  any_in summary_keywords row_text.

(** [d[k] = v] on an insertion-ordered [dict] *)
Fixpoint dict_store (k v : string) (d : list (string * string)) : list (string * string) :=
  match d with
  | [] => [(k, v)]
  | (k', v') :: d' =>
      if String.eqb k k' then (k', v) :: d' else (k', v') :: dict_store k v d'
  end.

Record Item : Type := {
  position_name : option string;
  table_data : list (string * string);
  raw_row : list string
}.

Record TableFormat : Type := {
  tf_type : string;
  columns : nat;
  item_count : nat;
  has_summary : bool
}.

Record TableStructure : Type := {
  headers : list string;
  items : list Item;
  summary : list (list string);
  table_format : TableFormat
}.

(** The position name given to item row number [i]. *)
Definition position_name_at (position_names : list PositionName) (i : nat)
  : option string :=
  if Nat.ltb i (length position_names) then
    let pos_names :=
      map name (filter (fun p => negb (isin "summe" (lower (name p)))) position_names) in
    nth_error pos_names i
  else None.

Definition item_data_of (headers item_row : list string) : list (string * string) :=
  fold_left
    (fun item_data '(j, header) =>
       match nth_error item_row j with
       | Some cell => dict_store header cell item_data
       | None => item_data
       end)
    (Chunker.enumerate 0 headers) [].

(** The entry made for item row number [i]. *)
Definition make_item (headers : list string) (position_names : list PositionName)
  (numbered : nat * list string) : Item :=
  let '(i, item_row) := numbered in
  {| position_name := position_name_at position_names i;
     table_data := item_data_of headers item_row;
     raw_row := item_row |}.

Definition reconstruct_table_structure
  (table_rows : list (list string)) (position_names : list PositionName)
  : option TableStructure :=
  match table_rows with
  | [] => None
  | headers :: data_rows =>
      let '(item_rows, summary_rows) :=
        fold_left
          (fun '(item_rows, summary_rows) row =>
             if is_summary row then (item_rows, summary_rows ++ [row])
             else (item_rows ++ [row], summary_rows))
          data_rows ([], []) in
      let matched_items :=
        fold_left
          (fun matched_items numbered =>
             matched_items ++ [make_item headers position_names numbered])
          (Chunker.enumerate 0 item_rows) [] in
      Some {| headers := headers;
              items := matched_items;
              summary := summary_rows;
              table_format :=
                {| tf_type := "invoice_table";
                   columns := length headers;
                   item_count := length matched_items;
                   has_summary := Nat.ltb 0 (length summary_rows) |} |}
  end.

(** *** Reference readings used by the statements below *)

(** The matching as the specification words it, to compare with
    [position_name_at]: every name whose lowercase text holds a summary
    keyword is filtered out, and item row [i] takes entry [i] of the rest. *)
Definition spec_position_name_at (position_names : list PositionName) (i : nat)
  : option string :=
  nth_error
    (map name (filter (fun p => negb (any_in summary_keywords (lower (name p))))
                      position_names)) i.

(** The first entry of a list that bears a given name. *)
Definition first_named (n : string) (l : list PositionName) : option PositionName :=
  find (fun p => String.eqb (name p) n) l.

(** The entries of [l] that the last loop keeps when it starts with the
    names [seen] already met. *)
Fixpoint unseen_from (seen : list string) (l : list PositionName) : list PositionName :=
  match l with
  | [] => []
  | pos :: l' =>
      if existsb (String.eqb (name pos)) seen then unseen_from seen l'
      else pos :: unseen_from (name pos :: seen) l'
  end.

(** [Subseq l1 l2]: [l1] is [l2] with some entries left out, the order kept. *)
Inductive Subseq {A : Type} : list A -> list A -> Prop :=
| Subseq_nil : Subseq [] []
| Subseq_skip : forall x l1 l2, Subseq l1 l2 -> Subseq l1 (x :: l2)
| Subseq_keep : forall x l1 l2, Subseq l1 l2 -> Subseq (x :: l1) (x :: l2).

(** *** Sample inputs *)

(** A table whose summary row comes before its item row. *)
Definition total_first_rows : list (list string) :=
  [["Description"; "Qty"]; ["Total"; "5"]; ["Consulting"; "2"]].

(** The table of the specification's scenario. *)
Definition consulting_rows : list (list string) :=
  [["Description"; "Qty"; "Unit Price"; "Total"];
   ["Consulting"; "2"; "80,00 €"; "160,00 €"];
   ["Gesamtbetrag"; ""; ""; "160,00 €"]].

(** *** What a position name of either source looks like *)

(** A name as the description column gives it. *)
Definition clean_name (p : PositionName) : Prop :=
  name p <> "" /\ strip (name p) = name p /\
  any_in ["€"; "%"; ","] (name p) = false /\
  source p = "table_description_column" /\ pn_bbox p = None /\ pn_page p = None.

(** A name as the content analysis gives it. *)
Definition content_name (p : PositionName) : Prop :=
  (2 <= count_words (name p))%nat /\ (5 < len (name p))%nat /\
  isupper (name p) = false /\ any_in ["€"; "%"] (name p) = false /\
  strip (name p) = name p /\
  source p = "content_analysis" /\ pn_bbox p <> None /\ pn_page p <> None.

End Normalizer.

(** ** The region-based helpers of the chunker *)

Module Regions.

Import Py Chunker.

(** [y_threshold] *)
Definition y_threshold : Q := 20%Q.

(** The test [abs(current_y - last_y) <= y_threshold] on two elements that
    have a bounding box. *)
Definition same_region (last_element element : Element) : bool :=
  Qle_bool (Qabs (fsub (top_edge element) (top_edge last_element))) y_threshold.

(** One turn of the loop over [sorted_elements[1:]]; [current_group] is
    never empty, its last entry is the element read before. *)
Definition region_step (state : list (list Element) * list Element) (element : Element)
  : list (list Element) * list Element :=
  let '(groups, current_group) := state in
  if same_region (last current_group element) element
  then (groups, current_group ++ [element])
  else (groups ++ [current_group], [element]).

(** [_group_by_spatial_regions]; [None] stands for the [KeyError] raised by
    [e['bbox']] when an element has no bounding box. *)
Definition _group_by_spatial_regions (elements : list Element)
  : option (list (list Element)) :=
  match elements with
  | [] => Some []
  | _ :: _ =>
      if forallb (fun e => match el_bbox e with Some _ => true | None => false end)
                 elements
      then
        match Normalizer.sorted_asc top_edge elements with
        | [] => Some []
        | first :: rest =>
            let '(groups, current_group) :=
              fold_left region_step rest ([], [first]) in
            match current_group with
            | [] => Some groups
            | _ :: _ => Some (groups ++ [current_group])
            end
        end
      else None
  end.

(** [_create_chunk]; [None] stands for the [KeyError] raised by
    [element['text']] or [e['bbox']]. *)
Definition _create_chunk
  (elements : list Element) (chunk_type : string) (page_num : Z)
  (confidence : float) : option InvoiceChunk :=
  if forallb (fun e => match el_text e, el_bbox e with
                       | Some _, Some _ => true
                       | _, _ => false
                       end) elements
  then
    let content_parts :=
      filter truthy (map (fun element => strip (text_of element)) elements) in
    let content := join " " content_parts in
    let bbox :=
      match map bbox_of elements with
      | b :: bs =>
          (min_of (b0 b) (map b0 bs), min_of (b1 b) (map b1 bs),
           max_of (b2 b) (map b2 bs), max_of (b3 b) (map b3 bs))
      | [] => zero_bbox
      end in
    Some {| content := content;
            chunk_type := chunk_type;
            elements := elements;
            bbox := bbox;
            page_number := page_num;
            confidence := confidence |}
  else None.

(** A table as [_process_tables] reads it, with its [accuracy]. *)
Record RawTable : Type := {
  rt_data : option (list (list string));
  rt_bbox : option BBox;
  rt_page : option Z;
  rt_accuracy : option float
}.

(** The text of a table: its non-empty rows, the cells of a row joined by
    [' | '], the rows by newlines. *)
Definition table_text (table : RawTable) : string :=
  let table_text_lines :=
    map (join " | ")
        (filter (fun row => match row with [] => false | _ :: _ => true end)
                (get (rt_data table) [])) in
  join nl table_text_lines.

Definition _process_tables (tables : list RawTable) : list InvoiceChunk :=
  fold_left
    (fun table_chunks table =>
       table_chunks ++
       [{| content := table_text table;
           chunk_type := "table_data";
           elements := [];
           bbox := get (rt_bbox table) zero_bbox;
           page_number := get (rt_page table) 1%Z;
           confidence := get (rt_accuracy table) 0.8%float |}])
    tables [].

(** The groups that follow an element [last_element]: the rest of its own
    group, and the groups after it. *)
Fixpoint regions_after (last_element : Element) (l : list Element)
  : list Element * list (list Element) :=
  match l with
  | [] => ([], [])
  | element :: l' =>
      let '(current, groups) := regions_after element l' in
      if same_region last_element element then (element :: current, groups)
      else ([], (element :: current) :: groups)
  end.

(** [chained R l]: [R] holds of every entry of [l] and its successor. *)
Fixpoint chained {A : Type} (R : A -> A -> Prop) (l : list A) : Prop :=
  match l with
  | x :: (y :: _) as l' => R x y /\ chained R l'
  | _ => True
  end.

(** [a] and [b] are in the same region; the last element of [g1] and the
    first of [g2] are not. *)
Definition near (a b : Element) : Prop := same_region a b = true.

Definition apart (g1 g2 : list Element) : Prop :=
  match rev g1, g2 with
  | a :: _, b :: _ => same_region a b = false
  | _, _ => False
  end.

(** The top coordinates of the last element of [g1] and the first of [g2]
    differ by more than the threshold. *)
Definition separated (g1 g2 : list Element) : Prop :=
  match rev g1, g2 with
  | a :: _, b :: _ => (y_threshold < Qabs (top_edge b - top_edge a))%Q
  | _, _ => False
  end.

(** A header chunk and a raw table. *)
Definition items_header : InvoiceChunk :=
  {| content := "Items"; chunk_type := "line_items_header"; elements := [];
     bbox := (0, 700, 200, 710)%Q; page_number := 1; confidence := 0.7%float |}.

Definition far_table : RawTable :=
  {| rt_data := Some [["Consulting"; "2"]; []; ["Total"; "160"]];
     rt_bbox := Some (0, 100, 200, 300)%Q; rt_page := Some 2%Z;
     rt_accuracy := Some 0.99%float |}.

Definition three_rows : list Element :=
  [ {| el_text := Some "c"; el_bbox := Some (0, 100, 10, 110)%Q; el_font_info := None |};
    {| el_text := Some "a"; el_bbox := Some (0, 10, 10, 20)%Q; el_font_info := None |};
    {| el_text := Some "b"; el_bbox := Some (50, 25, 60, 35)%Q; el_font_info := None |} ].

End Regions.

(** ** The normalizer: element types and table rows from positions *)

Module Rows.

Import Py Re.

Definition BBox : Type := Chunker.BBox.

(** A text element as the extractor emits it; [el["size"]], [el["font"]]
    and [el["text"]] are subscripted, [el.get("type", ...)] is not. *)
Record Span : Type := {
  sp_text : string;
  sp_bbox : BBox;
  sp_size : Q;
  sp_font : string;
  sp_page : Z;
  sp_type : option string
}.

Record SpanPage : Type := {
  sp_number : Z;
  sp_elements : list Span
}.

(** The type [normalize_elements] gives to one element. *)
Definition element_type (el : Span) : string :=
  let size := sp_size el in
  let font := sp_font el in
  let text := sp_text el in
  if (Qle_bool 18 size || (isin "Bold" font && Qle_bool 14 size))%bool
  then "heading"
  else if (isin "Zwischensumme" text || isin "Umsatzsteuer" text
           || isin "Gesamtbetrag" text)%bool
  then "label"
  else Chunker.get (sp_type el) "paragraph".

Definition set_type (el : Span) (type : string) : Span :=
  {| sp_text := sp_text el; sp_bbox := sp_bbox el; sp_size := sp_size el;
     sp_font := sp_font el; sp_page := sp_page el; sp_type := Some type |}.

(** [normalize_elements]: the elements are updated in place and the pages
    returned. *)
Definition normalize_elements (pages : list SpanPage) : list SpanPage :=
  map (fun page =>
         {| sp_number := sp_number page;
            sp_elements := map (fun el => set_type el (element_type el))
                               (sp_elements page) |})
      pages.

(** [r'\d+[.,]\d+'] *)
Definition decimal_pattern : regex := seq [plus digit; one_of ".,"; plus digit].

(** Step 1 of [extract_table_rows]: does the element look like the content
    of a table? *)
Definition is_table_candidate (el : Normalizer.Element) : bool :=
  let text := strip (Normalizer.text el) in
  if negb (truthy text) then false
  else
    let is_numeric := search decimal_pattern text in
    let has_currency := any_in ["€"; "$"; "£"; "%"] text in
    let is_short := Nat.leb (count_words text) 3 in
    (is_numeric || has_currency || is_short)%bool.

(** [tolerance] *)
Definition tolerance : Q := 5%Q.

(** [rows_dict], from the top coordinate of the first element of a row to
    the elements of the row, in insertion order. *)
Definition RowsDict : Type := list (Q * list Normalizer.Element).

(** Step 2 for one element: it joins the first row whose key is within the
    tolerance of its top coordinate, or starts a row under that
    coordinate. *)
Fixpoint place (el : Normalizer.Element) (rows_dict : RowsDict) : RowsDict :=
  let y_pos := Chunker.b1 (Normalizer.bbox el) in
  match rows_dict with
  | [] => [(y_pos, [el])]
  | (existing_y, row) :: rows_dict' =>
      if Qle_bool (Qabs (fsub y_pos existing_y)) tolerance
      then (existing_y, row ++ [el]) :: rows_dict'
      else (existing_y, row) :: place el rows_dict'
  end.

(** Step 3 for one row: it counts when it has two elements or more. *)
Definition row_cells (row : list Normalizer.Element) : list (list string) :=
  let row_elements := Normalizer.sorted_asc (fun e => Chunker.b0 (Normalizer.bbox e)) row in
  if Nat.leb 2 (length row_elements) then
    let row_texts :=
      map (fun el => strip (Normalizer.text el))
          (filter (fun el => truthy (strip (Normalizer.text el))) row_elements) in
    match row_texts with
    | [] => []
    | _ :: _ => [row_texts]
    end
  else [].

Definition page_table_rows (page : Normalizer.Page) : list (list string) :=
  let table_candidates := filter is_table_candidate (Normalizer.elements page) in
  let rows_dict := fold_left (fun rows_dict el => place el rows_dict) table_candidates [] in
  flat_map (fun entry => row_cells (snd entry)) (Normalizer.sorted_asc fst rows_dict).

Definition extract_table_rows (pages : list Normalizer.Page) : list (list string) :=
  fold_left (fun all_tables page => all_tables ++ page_table_rows page) pages [].

(** Sample pages. *)
Definition styled_page : SpanPage :=
  {| sp_number := 1;
     sp_elements :=
       [ {| sp_text := "Rechnung"; sp_bbox := (0, 0, 0, 0)%Q; sp_size := 20%Q;
            sp_font := "Helvetica"; sp_page := 1; sp_type := Some "word" |};
         {| sp_text := "Gesamtbetrag"; sp_bbox := (0, 0, 0, 0)%Q; sp_size := 10%Q;
            sp_font := "Helvetica"; sp_page := 1; sp_type := None |};
         {| sp_text := "Danke"; sp_bbox := (0, 0, 0, 0)%Q; sp_size := 10%Q;
            sp_font := "Helvetica"; sp_page := 1; sp_type := Some "word" |} ] |}.

Definition el_at (t : string) (x y : Q) : Normalizer.Element :=
  {| Normalizer.text := t; Normalizer.bbox := (x, y, x + 40, y + 10)%Q;
     Normalizer.page := 1 |}.

Definition grid_page : Normalizer.Page :=
  {| Normalizer.elements :=
       [ el_at "80,00" 200 103; el_at "Consulting" 50 100; el_at "2" 150 98;
         el_at "alone" 50 300;
         el_at "Thank you for your business, see you" 50 500 ] |}.

(** [cell] is the stripped text of a candidate element of the pages. *)
Definition cell_of (pages : list Normalizer.Page) (cell : string) : Prop :=
  exists page el,
    In page pages /\ In el (Normalizer.elements page) /\
    is_table_candidate el = true /\ cell = strip (Normalizer.text el).

End Rows.

(** * Properties *)

(** ** Loops that append *)

Section ListFolds.

Context {A B : Type}.

(** A loop that appends to its accumulator builds a [flat_map]. *)
Lemma fold_left_appending (f : list B -> A -> list B) (g : A -> list B) :
  (forall acc x, f acc x = acc ++ g x) ->
  forall l init, fold_left f l init = init ++ flat_map g l.
Proof.
  intros Hf l. induction l as [|x l IH]; intros init; simpl.
  - now rewrite app_nil_r.
  - rewrite IH, Hf, <- app_assoc. reflexivity.
Qed.

Lemma flat_map_singleton (g : A -> B) (l : list A) :
  flat_map (fun x => [g x]) l = map g l.
Proof. induction l; simpl; congruence. Qed.

(** A loop that sends each entry to one of two lists partitions. *)
Lemma fold_left_partition (test : A -> bool) :
  forall l yes no,
    fold_left (fun '(yes, no) x =>
                 if test x then (yes ++ [x], no) else (yes, no ++ [x]))
              l (yes, no)
    = (yes ++ filter test l, no ++ filter (fun x => negb (test x)) l).
Proof.
  induction l as [|x l IH]; intros yes no; simpl.
  - now rewrite !app_nil_r.
  - destruct (test x); simpl; rewrite IH, <- app_assoc; reflexivity.
Qed.

End ListFolds.

Lemma enumerate_rows {A : Type} (l : list A) : forall start,
  map snd (Chunker.enumerate start l) = l /\
  map fst (Chunker.enumerate start l) = seq start (length l).
Proof.
  induction l as [|x l IH]; intros start; simpl; [auto|].
  destruct (IH (S start)) as [H1 H2]. split; congruence.
Qed.

(** ** The string primitives on sample values *)

Module PyFacts.

Import Py.

Example lower_maps_capitals : lower "Gesamt TOTAL" = "gesamt total".
Proof. reflexivity. Qed.

(** The currency marker of the chunker holds a capital, so it does not
    survive [lower]. *)
Example lower_changes_currency : lower "12,00 ‚Ç¨" = "12,00 ‚ç¨".
Proof. reflexivity. Qed.

(** The Kelvin sign U+212A becomes the letter k, a capital sigma at the end
    of a word the final sigma, the dotted capital I two characters. *)
Example lower_beyond_latin :
  lower ("ARTI" ++ utf8 8490 ++ "EL") = "artikel" /\
  lower "ΟΔΟΣ ΣΟΦΙΑ" = "οδος σοφια" /\
  codes (lower (utf8 304)) = [105%N; 775%N].
Proof. repeat split; vm_compute; reflexivity. Qed.

Example strip_both_ends : strip "  a b  " = "a b".
Proof. reflexivity. Qed.

(** The no-break space U+00A0 is white space. *)
Example strip_no_break_space :
  strip (utf8 160 ++ "10" ++ utf8 160) = "10" /\
  count_words ("Web" ++ utf8 160 ++ "Design") = 2%nat.
Proof. split; vm_compute; reflexivity. Qed.

Example split_keeps_empty_pieces : split_on "a" "banana" = ["b"; "n"; "n"; ""].
Proof. reflexivity. Qed.

Example count_words_runs : count_words "  a b  c" = 3%nat.
Proof. reflexivity. Qed.

Example isupper_needs_a_cased_character :
  isupper "ABC 1" = true /\ isupper "1" = false /\ isupper "aB" = false /\
  isupper "ÄÖÜ" = true /\ isupper "FUßBALL TRAINING" = false.
Proof. repeat split; vm_compute; reflexivity. Qed.

(** The Arabic-Indic digits are digits. *)
Example isdigit_beyond_ascii :
  isdigit (utf8 1635) = true /\ isdigit "12a" = false /\ isdigit "" = false.
Proof. repeat split; vm_compute; reflexivity. Qed.

Example len_counts_characters : len "‚Ç¨" = 3%nat /\ len "€" = 1%nat.
Proof. split; reflexivity. Qed.

(** Differences and quotients are rounded: [20.1 - 0.1] is [20.0],
    [30.7 - 0.7] is [30.0], [5.2 - 0.2] is [5.0], although none of the
    exact differences is; [1 / 49] times 49 is not 1. *)
Example rounded_differences :
  (fsub (float_of (201 # 10)) (float_of (1 # 10)) == 20)%Q /\
  ~ (float_of (201 # 10) - float_of (1 # 10) == 20)%Q /\
  (fsub (float_of (307 # 10)) (float_of (7 # 10)) == 30)%Q /\
  (float_of (307 # 10) - float_of (7 # 10) < 30)%Q /\
  (fsub (float_of (52 # 10)) (float_of (2 # 10)) == 5)%Q /\
  (5 < float_of (52 # 10) - float_of (2 # 10))%Q /\
  (truediv 1 49 * 49 < 1)%Q.
Proof. repeat split; try (vm_compute; reflexivity); vm_compute; discriminate. Qed.

End PyFacts.

(** ** The order of the floats *)

Module FloatFacts.

Ltac fold_compare :=
  repeat match goal with
  | |- context [PosDef.Pos.compare_cont Eq ?a ?b] =>
      change (PosDef.Pos.compare_cont Eq a b) with (Pos.compare a b)
  end.

Ltac order_cases :=
  repeat match goal with
  | |- context [Z.compare ?a ?b] => destruct (Z.compare_spec a b)
  | |- context [Pos.compare ?a ?b] => destruct (Pos.compare_spec a b)
  | H : context [Z.compare ?a ?b] |- _ => destruct (Z.compare_spec a b)
  | H : context [Pos.compare ?a ?b] |- _ => destruct (Pos.compare_spec a b)
  end.

Lemma SFcompare_refl s : s <> S754_nan -> SFcompare s s = Some Eq.
Proof.
  destruct s as [[|]|[|]| |[|] m e]; simpl; intros H; try reflexivity;
    try (now destruct H);
    fold_compare; rewrite Z.compare_refl, Pos.compare_refl; reflexivity.
Qed.

Lemma SFcompare_antisym a b :
  SFcompare b a = option_map CompOpp (SFcompare a b).
Proof.
  destruct a as [[|]|[|]| |[|] m1 e1], b as [[|]|[|]| |[|] m2 e2];
    simpl; try reflexivity;
    fold_compare;
    rewrite (Z.compare_antisym e1 e2), (Pos.compare_antisym m1 m2);
    destruct (e1 ?= e2)%Z, (m1 ?= m2)%positive; reflexivity.
Qed.

Lemma SFcompare_trans a b c :
  SFcompare a b = Some Lt -> SFcompare b c = Some Lt -> SFcompare a c = Some Lt.
Proof.
  destruct a as [[|]|[|]| |[|] m1 e1], b as [[|]|[|]| |[|] m2 e2],
    c as [[|]|[|]| |[|] m3 e3];
    simpl; try discriminate; try reflexivity;
    fold_compare; intros H1 H2;
    order_cases; simpl in *; try discriminate; try reflexivity;
    try lia.
Qed.

Lemma is_nan_spec x : is_nan x = true <-> Prim2SF x = S754_nan.
Proof.
  unfold is_nan. rewrite eqb_spec. unfold SFeqb.
  destruct (Prim2SF x) as [[|]|[|]| |[|] m e] eqn:E; simpl;
    fold_compare; rewrite ?Z.compare_refl, ?Pos.compare_refl; simpl;
    split; intros H; try discriminate; reflexivity.
Qed.

Lemma is_nan_false x : is_nan x = false <-> Prim2SF x <> S754_nan.
Proof.
  rewrite <- is_nan_spec. destruct (is_nan x); split; congruence.
Qed.

(** Every comparison with not-a-number fails. *)
Lemma nan_unordered x y :
  is_nan x = true ->
  (x <? y)%float = false /\ (x <=? y)%float = false /\
  (y <? x)%float = false /\ (y <=? x)%float = false.
Proof.
  intros H. apply is_nan_spec in H.
  rewrite !ltb_spec, !leb_spec, H. unfold SFltb, SFleb. simpl.
  destruct (Prim2SF y); auto.
Qed.

Lemma ltb_irrefl x : (x <? x)%float = false.
Proof.
  rewrite ltb_spec. unfold SFltb.
  destruct (Prim2SF x) as [[|]|[|]| |[|] m e]; simpl; try reflexivity;
    fold_compare; rewrite Z.compare_refl, Pos.compare_refl; reflexivity.
Qed.

Lemma ltb_asym x y : (x <? y)%float = true -> (y <? x)%float = false.
Proof.
  rewrite !ltb_spec. unfold SFltb.
  rewrite (SFcompare_antisym (Prim2SF x) (Prim2SF y)).
  destruct (SFcompare (Prim2SF x) (Prim2SF y)) as [[| |]|]; simpl;
    congruence.
Qed.

Lemma ltb_trans x y z :
  (x <? y)%float = true -> (y <? z)%float = true -> (x <? z)%float = true.
Proof.
  rewrite !ltb_spec. unfold SFltb. intros H1 H2.
  rewrite (SFcompare_trans (Prim2SF x) (Prim2SF y) (Prim2SF z)); [reflexivity| |].
  - destruct (SFcompare (Prim2SF x) (Prim2SF y)) as [[| |]|]; congruence.
  - destruct (SFcompare (Prim2SF y) (Prim2SF z)) as [[| |]|]; congruence.
Qed.

(** Two numbers are ordered one way or the other. *)
Lemma leb_ltb x y :
  is_nan x = false -> is_nan y = false ->
  (x <=? y)%float = negb (y <? x)%float.
Proof.
  rewrite !is_nan_false, ltb_spec, leb_spec. unfold SFltb, SFleb.
  rewrite (SFcompare_antisym (Prim2SF x) (Prim2SF y)). intros Hx Hy.
  destruct (SFcompare (Prim2SF x) (Prim2SF y)) as [[| |]|] eqn:E;
    try reflexivity.
  exfalso. destruct (Prim2SF x), (Prim2SF y); simpl in E; congruence.
Qed.

End FloatFacts.

(** ** Rounding to a float *)

Module RoundFacts.

Import Py.

Lemma pow2_pos e : (0 < pow2 e)%Q.
Proof.
  unfold pow2. destruct (Z.leb 0 e) eqn:E.
  - apply Z.leb_le in E. rewrite <- (Zlt_Qlt 0). now apply Z.pow_pos_nonneg.
  - apply Z.leb_gt in E. apply Qinv_lt_0_compat.
    rewrite <- (Zlt_Qlt 0). apply Z.pow_pos_nonneg; lia.
Qed.

Lemma inject_pow_nonzero e : (0 <= e)%Z -> ~ (inject_Z (2 ^ e) == 0)%Q.
Proof.
  intros H E. unfold Qeq in E. simpl in E.
  pose proof (Z.pow_pos_nonneg 2 e). lia.
Qed.

Lemma pow2_nonneg e : (0 <= e)%Z -> pow2 e = inject_Z (2 ^ e).
Proof. intros H. unfold pow2. apply Z.leb_le in H. now rewrite H. Qed.

(** Division by a power of two with an exponent that is not positive is a
    multiplication by an integer. *)
Lemma div_pow2 x e : (e <= 0)%Z -> (x / pow2 e == x * inject_Z (2 ^ (- e)))%Q.
Proof.
  intros H. unfold pow2, Qdiv. destruct (Z.leb 0 e) eqn:E.
  - apply Z.leb_le in E. assert (e = 0%Z) by lia. subst e. reflexivity.
  - now rewrite Qinv_involutive.
Qed.

Lemma mul_pow2 x e : (e <= 0)%Z -> (x * inject_Z (2 ^ (- e)) * pow2 e == x)%Q.
Proof.
  intros H. rewrite <- div_pow2 by exact H. unfold Qdiv.
  rewrite <- Qmult_assoc, (Qmult_comm (/ pow2 e)), Qmult_inv_r, Qmult_1_r;
    [reflexivity|].
  intros E. pose proof (pow2_pos e) as P. rewrite E in P. discriminate.
Qed.

Lemma pow2_add a b : (0 <= b)%Z -> (pow2 (a + b) == pow2 a * inject_Z (2 ^ b))%Q.
Proof.
  intros Hb. unfold pow2.
  destruct (Z.leb 0 a) eqn:Ea; destruct (Z.leb 0 (a + b)) eqn:Eab;
    try apply Z.leb_le in Ea; try apply Z.leb_le in Eab;
    try apply Z.leb_gt in Ea; try apply Z.leb_gt in Eab; try lia.
  - rewrite Z.pow_add_r, inject_Z_mult by lia. reflexivity.
  - assert (E : (2 ^ b = 2 ^ (a + b) * 2 ^ (- a))%Z)
      by (rewrite <- Z.pow_add_r by lia; f_equal; lia).
    rewrite E, inject_Z_mult.
    rewrite (Qmult_comm (inject_Z (2 ^ (a + b)))), Qmult_assoc,
      (Qmult_comm (/ _)), Qmult_inv_r, Qmult_1_l; [reflexivity|].
    apply inject_pow_nonzero. lia.
  - assert (E : (2 ^ (- a) = 2 ^ (- (a + b)) * 2 ^ b)%Z)
      by (rewrite <- Z.pow_add_r by lia; f_equal; lia).
    rewrite E, inject_Z_mult, Qinv_mult_distr, <- Qmult_assoc,
      (Qmult_comm (/ _) (inject_Z (2 ^ b))), Qmult_inv_r, Qmult_1_r;
      [reflexivity|].
    apply inject_pow_nonzero. lia.
Qed.

(** The rounded integer is on the same side of every integer as the
    number. *)
Lemma round_half_even_ge x k :
  (inject_Z k <= x)%Q -> (k <= round_half_even x)%Z.
Proof.
  destruct x as [n d]. unfold Qle, round_half_even. cbn [Qnum Qden inject_Z].
  rewrite Z.mul_1_r. intros H.
  assert (Hk : (k <= n / Zpos d)%Z) by (apply Z.div_le_lower_bound; lia).
  destruct (Z.ltb _ _); [exact Hk|].
  destruct (Z.ltb _ _); [lia|]. destruct (Z.even _); lia.
Qed.

Lemma round_half_even_le x k :
  (x <= inject_Z k)%Q -> (round_half_even x <= k)%Z.
Proof.
  destruct x as [n d]. unfold Qle, round_half_even. cbn [Qnum Qden inject_Z].
  rewrite Z.mul_1_r. intros H.
  pose proof (Z.div_mod n (Zpos d) ltac:(lia)) as E.
  pose proof (Z.mod_pos_bound n (Zpos d) ltac:(lia)) as B.
  assert (Hf : (n / Zpos d <= k)%Z) by nia.
  destruct (Z.ltb_spec (2 * (n mod Zpos d)) (Zpos d)); [exact Hf|].
  assert (Hlt : (n / Zpos d < k)%Z) by nia.
  destruct (Z.ltb _ _); [lia|]. destruct (Z.even _); lia.
Qed.

(** [floor_log2] from below. *)
Lemma floor_log2_le x : (0 < x)%Q -> (pow2 (floor_log2 x) <= x)%Q.
Proof.
  destruct x as [n d]. intros Hx. unfold floor_log2. cbn [Qnum Qden].
  set (e := (Z.log2 n - Z.log2 (Zpos d))%Z).
  destruct (Qle_bool (pow2 e) (n # d)) eqn:E; [now apply Qle_bool_iff|].
  unfold Qlt in Hx. cbn [Qnum Qden] in Hx.
  assert (Hn : (0 < n)%Z) by (change (Qnum 0) with 0%Z in Hx; lia).
  pose proof (Z.log2_spec n Hn) as [Ln _].
  pose proof (Z.log2_spec (Zpos d) ltac:(lia)) as [_ Ld].
  pose proof (Z.log2_nonneg n) as Nn.
  pose proof (Z.log2_nonneg (Zpos d)) as Nd.
  unfold pow2. destruct (Z.leb_spec 0 (e - 1)).
  - unfold Qle. cbn [Qnum Qden inject_Z]. rewrite Z.mul_1_r.
    assert (Es : (2 ^ Z.log2 n = 2 ^ (e - 1) * 2 ^ Z.succ (Z.log2 (Zpos d)))%Z)
      by (rewrite <- Z.pow_add_r by lia; f_equal; unfold e; lia).
    pose proof (Z.pow_pos_nonneg 2 (e - 1)). nia.
  - apply Qle_shift_inv_r.
    + rewrite <- (Zlt_Qlt 0). apply Z.pow_pos_nonneg; lia.
    + unfold Qle. cbn [Qnum Qden inject_Z Qmult]. rewrite ?Z.mul_1_r.
      assert (Es : (2 ^ Z.succ (Z.log2 (Zpos d))
                    = 2 ^ Z.log2 n * 2 ^ (- (e - 1)))%Z)
        by (rewrite <- Z.pow_add_r by lia; f_equal; unfold e; lia).
      pose proof (Z.pow_pos_nonneg 2 (- (e - 1))). nia.
Qed.


Lemma mul_pow2_le a b e : (a <= b / pow2 e)%Q -> (a * pow2 e <= b)%Q.
Proof.
  intros H. apply (Qmult_le_compat_r _ _ (pow2 e)) in H;
    [|apply Qlt_le_weak, pow2_pos].
  rewrite (Qmult_comm (b / pow2 e)), Qmult_div_r in H; [exact H|].
  intros E. pose proof (pow2_pos e) as P. rewrite E in P. discriminate.
Qed.

Lemma nonzero_abs_pos x : Qeq_bool x 0 = false -> (0 < Qabs x)%Q.
Proof.
  intros E. apply Qeq_bool_neq in E.
  destruct (Qlt_le_dec 0 (Qabs x)) as [H | H]; [exact H|].
  exfalso. apply E. apply Qabs_Qle_condition in H.
  apply Qle_antisym; tauto.
Qed.

(** With a positive exponent of the spacing the number is large: at
    least [2^52] spacings away from zero. *)
Lemma large_when_coarse x e :
  Qeq_bool x 0 = false ->
  e = Z.max (floor_log2 (Qabs x) - 52) (-1074) -> (0 < e)%Z ->
  (inject_Z (2 ^ 52) <= Qabs x / pow2 e)%Q /\ pow2 e = inject_Z (2 ^ e).
Proof.
  intros E0 Ee Hpos. split; [|apply pow2_nonneg; lia].
  apply Qle_shift_div_l; [apply pow2_pos|].
  rewrite Qmult_comm, <- pow2_add by lia.
  replace (e + 52)%Z with (floor_log2 (Qabs x)) by lia.
  apply floor_log2_le, nonzero_abs_pos, E0.
Qed.

(** Rounding does not cross an integer that is itself a float: a number
    that is at least [k] is rounded to a number that is at least [k]. *)
Lemma round64_ge k x :
  (Z.abs k < 2 ^ 53)%Z -> (inject_Z k <= x)%Q -> (inject_Z k <= round64 x)%Q.
Proof.
  intros Hk H. unfold round64. destruct (Qeq_bool x 0) eqn:E0.
  - apply Qeq_bool_eq in E0. now rewrite <- E0.
  - set (e := Z.max (floor_log2 (Qabs x) - 52) (-1074)).
    rewrite Qred_correct. destruct (Z.le_gt_cases e 0) as [He | He].
    + rewrite <- (mul_pow2 (inject_Z k) e He), <- inject_Z_mult.
      apply Qmult_le_compat_r; [|apply Qlt_le_weak, pow2_pos].
      rewrite <- Zle_Qle. apply round_half_even_ge.
      rewrite div_pow2, inject_Z_mult by exact He.
      apply Qmult_le_compat_r; [exact H|].
      rewrite <- (Zle_Qle 0). apply Z.pow_nonneg. lia.
    + destruct (large_when_coarse x e E0 eq_refl ltac:(lia)) as [Hl Hp].
      assert (P52 : (2 ^ 53 <= 2 ^ 52 * 2 ^ e)%Z).
      { change (2 ^ 53)%Z with (2 ^ 52 * 2 ^ 1)%Z.
        apply Z.mul_le_mono_nonneg_l; [lia|].
        apply Z.pow_le_mono_r; lia. }
      destruct (Qlt_le_dec x 0) as [Hneg | Hnn].
      * exfalso. rewrite Qabs_neg in Hl by now apply Qlt_le_weak.
        apply mul_pow2_le in Hl.
        rewrite Hp, <- inject_Z_mult in Hl.
        assert (Hx : (x <= inject_Z (- (2 ^ 52 * 2 ^ e)))%Q).
        { rewrite inject_Z_opp. rewrite <- (Qopp_involutive x).
          now apply Qopp_le_compat. }
        pose proof (Qle_trans _ _ _ H Hx) as Hc.
        rewrite <- Zle_Qle in Hc. lia.
      * rewrite Qabs_pos in Hl by exact Hnn.
        apply round_half_even_ge in Hl.
        apply Qle_trans with (inject_Z (2 ^ 52) * pow2 e)%Q.
        -- rewrite Hp, <- inject_Z_mult, <- Zle_Qle. lia.
        -- apply Qmult_le_compat_r; [|apply Qlt_le_weak, pow2_pos].
           now rewrite <- Zle_Qle.
Qed.

(** A number that is at most [k] is rounded to a number that is at most
    [k]. *)
Lemma round64_le k x :
  (Z.abs k < 2 ^ 53)%Z -> (x <= inject_Z k)%Q -> (round64 x <= inject_Z k)%Q.
Proof.
  intros Hk H. unfold round64. destruct (Qeq_bool x 0) eqn:E0.
  - apply Qeq_bool_eq in E0. now rewrite <- E0.
  - set (e := Z.max (floor_log2 (Qabs x) - 52) (-1074)).
    rewrite Qred_correct. destruct (Z.le_gt_cases e 0) as [He | He].
    + rewrite <- (mul_pow2 (inject_Z k) e He), <- inject_Z_mult.
      apply Qmult_le_compat_r; [|apply Qlt_le_weak, pow2_pos].
      rewrite <- Zle_Qle. apply round_half_even_le.
      rewrite div_pow2, inject_Z_mult by exact He.
      apply Qmult_le_compat_r; [exact H|].
      rewrite <- (Zle_Qle 0). apply Z.pow_nonneg. lia.
    + destruct (large_when_coarse x e E0 eq_refl ltac:(lia)) as [Hl Hp].
      assert (P52 : (2 ^ 53 <= 2 ^ 52 * 2 ^ e)%Z).
      { change (2 ^ 53)%Z with (2 ^ 52 * 2 ^ 1)%Z.
        apply Z.mul_le_mono_nonneg_l; [lia|].
        apply Z.pow_le_mono_r; lia. }
      destruct (Qlt_le_dec x 0) as [Hneg | Hnn].
      * rewrite Qabs_neg in Hl by now apply Qlt_le_weak.
        assert (Hx : (x / pow2 e <= inject_Z (- 2 ^ 52))%Q).
        { assert (Ex : (- x / pow2 e == - (x / pow2 e))%Q)
            by (unfold Qdiv; ring).
          rewrite Ex in Hl. apply Qopp_le_compat in Hl.
          rewrite Qopp_involutive in Hl. now rewrite inject_Z_opp. }
        apply round_half_even_le in Hx.
        apply Qle_trans with (inject_Z (- 2 ^ 52) * pow2 e)%Q.
        -- apply Qmult_le_compat_r; [|apply Qlt_le_weak, pow2_pos].
           now rewrite <- Zle_Qle.
        -- rewrite Hp, <- inject_Z_mult, <- Zle_Qle. lia.
      * exfalso. rewrite Qabs_pos in Hl by exact Hnn.
        apply mul_pow2_le in Hl.
        rewrite Hp, <- inject_Z_mult in Hl.
        pose proof (Qle_trans _ _ _ Hl H) as Hc.
        rewrite <- Zle_Qle in Hc. lia.
Qed.


(** The float difference is below an integer bound only if the exact
    difference is; it is within an integer bound as soon as the exact
    difference is. *)
Lemma fsub_abs_lt k a b :
  (Z.abs k < 2 ^ 53)%Z ->
  (Qabs (fsub a b) < inject_Z k)%Q -> (Qabs (a - b) < inject_Z k)%Q.
Proof.
  intros Hk H. apply Qnot_le_lt. intros Hle. apply (Qlt_not_le _ _ H).
  unfold fsub. destruct (Qlt_le_dec (a - b) 0) as [Hs | Hs].
  - rewrite Qabs_neg in Hle by now apply Qlt_le_weak.
    rewrite <- Qabs_opp. apply Qle_trans with (- round64 (a - b))%Q;
      [|apply Qle_Qabs].
    rewrite <- (Qopp_involutive (inject_Z k)). apply Qopp_le_compat.
    rewrite <- inject_Z_opp. apply round64_le; [lia|].
    rewrite inject_Z_opp. rewrite <- (Qopp_involutive (a - b)).
    now apply Qopp_le_compat.
  - rewrite Qabs_pos in Hle by exact Hs.
    apply Qle_trans with (round64 (a - b)); [|apply Qle_Qabs].
    now apply round64_ge.
Qed.

Lemma fsub_abs_le k a b :
  (Z.abs k < 2 ^ 53)%Z ->
  (Qabs (a - b) <= inject_Z k)%Q -> (Qabs (fsub a b) <= inject_Z k)%Q.
Proof.
  intros Hk H. apply Qabs_Qle_condition in H. destruct H as [Hlo Hhi].
  apply Qabs_Qle_condition. unfold fsub. split.
  - rewrite <- inject_Z_opp. apply round64_ge; [lia|]. now rewrite inject_Z_opp.
  - now apply round64_le.
Qed.

(** The float quotient of two integers lies between the integer quotient
    and its successor. *)
Lemma truediv_bounds a b :
  (0 <= a < 2 ^ 52)%Z -> (0 < b)%Z ->
  (inject_Z (a / b) <= truediv a b <= inject_Z (a / b + 1))%Q.
Proof.
  intros Ha Hb. unfold truediv.
  assert (Hq : (0 <= a / b <= a)%Z).
  { split; [apply Z.div_pos; lia|]. apply Z.div_le_upper_bound; nia. }
  pose proof (Z.div_mod a b ltac:(lia)) as E.
  pose proof (Z.mod_pos_bound a b Hb) as B.
  assert (P : (2 ^ 52 < 2 ^ 53)%Z) by (apply Z.pow_lt_mono_r; lia).
  assert (Hbq : (0 < inject_Z b)%Q) by (now rewrite <- (Zlt_Qlt 0)).
  split.
  - apply round64_ge; [lia|]. apply Qle_shift_div_l; [exact Hbq|].
    rewrite <- inject_Z_mult, <- Zle_Qle. nia.
  - apply round64_le; [lia|]. apply Qle_shift_div_r; [exact Hbq|].
    rewrite <- inject_Z_mult, <- Zle_Qle. nia.
Qed.

End RoundFacts.


(** ** The matcher decides the language of a pattern *)

Module ReFacts.

Import Re.

Lemma nullable_Matches r : nullable r = true <-> Matches r [].
Proof.
  split.
  - induction r; simpl; intros H; try discriminate.
    + constructor.
    + apply andb_true_iff in H. destruct H.
      change (@nil N) with (@nil N ++ []). constructor; auto.
    + apply orb_true_iff in H. destruct H; [apply MAltL | apply MAltR]; auto.
    + constructor.
  - intros H. remember (@nil N) as e eqn:He. induction H; simpl; try reflexivity.
    + discriminate.
    + apply app_eq_nil in He. destruct He.
      rewrite IHMatches1, IHMatches2; auto.
    + rewrite IHMatches; auto.
    + rewrite IHMatches; auto. apply orb_true_r.
Qed.

Lemma Matches_deriv r : forall c s, Matches (deriv c r) s -> Matches r (c :: s).
Proof.
  induction r; simpl; intros c s H.
  - inversion H.
  - inversion H.
  - destruct (p c) eqn:E; inversion H; subst. now constructor.
  - destruct (nullable r1) eqn:N.
    + inversion H; subst.
      * match goal with Hc : Matches (Cat _ _) _ |- _ => inversion Hc; subst end.
        rewrite app_comm_cons. constructor; auto.
      * change (c :: s) with ([] ++ c :: s).
        constructor; [now apply nullable_Matches | auto].
    + inversion H; subst.
      rewrite app_comm_cons. constructor; auto.
  - inversion H; subst; [apply MAltL | apply MAltR]; auto.
  - inversion H; subst.
    rewrite app_comm_cons. constructor; auto.
Qed.

Lemma deriv_Matches r s :
  Matches r s -> forall c s', s = c :: s' -> Matches (deriv c r) s'.
Proof.
  induction 1; intros c0 s' E; simpl.
  - discriminate.
  - injection E as <- <-. rewrite H. constructor.
  - destruct s1 as [|a s1]; simpl in E.
    + assert (N : nullable r1 = true) by now apply nullable_Matches.
      rewrite N. apply MAltR. eauto.
    + injection E as -> <-.
      assert (Hc : Matches (Cat (deriv c0 r1) r2) (s1 ++ s2))
        by (constructor; eauto).
      destruct (nullable r1); [now apply MAltL | exact Hc].
  - apply MAltL. eauto.
  - apply MAltR. eauto.
  - discriminate.
  - destruct s1 as [|a s1]; simpl in E.
    + eauto.
    + injection E as -> <-. constructor; eauto.
Qed.

(** [accepts] holds exactly on the sequences of the language. *)
Theorem accepts_Matches r s : accepts r s = true <-> Matches r s.
Proof.
  revert r. induction s as [|c s IH]; intros r; simpl.
  - apply nullable_Matches.
  - rewrite IH. split.
    + apply Matches_deriv.
    + intros H. now apply deriv_Matches with (c :: s).
Qed.

(** [fullmatch] holds exactly on the strings whose code points are in the
    language. *)
Theorem fullmatch_Matches r s : fullmatch r s = true <-> Matches r (Py.codes s).
Proof. apply accepts_Matches. Qed.

Lemma Matches_star_any s : Matches (Star any) s.
Proof.
  induction s as [|c s IH].
  - constructor.
  - change (c :: s) with ([c] ++ s). constructor; [|exact IH].
    now constructor.
Qed.

(** [search] holds exactly when some run of the code points of the string
    is in the language. *)
Theorem search_Matches r s :
  search r s = true <->
  exists before found after,
    Py.codes s = before ++ found ++ after /\ Matches r found.
Proof.
  unfold search. rewrite fullmatch_Matches. split.
  - intros H. inversion H as [| |? ? before rest _ Hrest E| | | |]; subst.
    inversion Hrest as [| |? ? found after Hfound _| | | |]; subst.
    now exists before, found, after.
  - intros (before & found & after & -> & H).
    constructor; [apply Matches_star_any|].
    constructor; [exact H | apply Matches_star_any].
Qed.

(** The classes follow the code points: an Arabic-Indic numeral is a run
    of [\d], the no-break space is in [\s], and under [re.IGNORECASE] the
    long s U+017F stands for [s] and the Kelvin sign U+212A for [k]. *)
Example classes_beyond_ascii :
  fullmatch (plus digit) (Py.utf8 1633 ++ Py.utf8 1634) = true /\
  fullmatch (seq [lit "a"; space; lit "b"]) ("a" ++ Py.utf8 160 ++ "b") = true /\
  search (lit_i "service") (Py.utf8 383 ++ "ervice") = true /\
  fullmatch (lit_i "stk") ("ST" ++ Py.utf8 8490) = true /\
  fullmatch (lit_i "stk") "stj" = false.
Proof. repeat split; vm_compute; reflexivity. Qed.

End ReFacts.

(** ** The chunker *)

Module ChunkerFacts.

Import Chunker.

(** *** What [chunk_invoice_spatially] returns *)

Lemma add_page_chunks_spec chunks numbered :
  add_page_chunks chunks numbered = chunks ++ page_chunks numbered.
Proof.
  destruct numbered as [page_num page]. unfold add_page_chunks, page_chunks.
  apply fold_left_appending.
  intros acc [region_type [|e group]]; simpl.
  - now rewrite app_nil_r.
  - reflexivity.
Qed.

Lemma chunk_invoice_spatially_flat pages tables :
  chunk_invoice_spatially pages tables
  = flat_map page_chunks (enumerate 0 pages) ++ map _create_table_chunk tables.
Proof.
  unfold chunk_invoice_spatially.
  rewrite (fold_left_appending _ (fun t => [_create_table_chunk t])) by reflexivity.
  rewrite (fold_left_appending _ page_chunks) by apply add_page_chunks_spec.
  simpl. now rewrite flat_map_singleton.
Qed.

(** C1, as amended: for every input of pages and tables, the chunk
    sequence returned by [chunk_invoice_spatially] (and by
    [chunk_invoice_extraction], which hands its pages and tables over) is
    the sequence of built chunks itself: the chunks of every page in page
    order, then one chunk per table.  No merge pass is applied, so every
    table contributes one chunk of its own. *)
Theorem chunks_returned_as_built pages tables :
  chunk_invoice_spatially pages tables = built_chunks pages tables /\
  chunk_invoice_extraction
    {| text_extraction := Some {| te_pages := Some pages |};
       table_extraction := Some {| te_tables := Some tables |} |}
  = built_chunks pages tables /\
  length (chunk_invoice_spatially pages tables)
  = (length (flat_map page_chunks (enumerate 0 pages)) + length tables)%nat.
Proof.
  unfold chunk_invoice_extraction, built_chunks. simpl.
  rewrite chunk_invoice_spatially_flat, length_app, length_map. auto.
Qed.

(** C1, counterexample: two tables without bounding box lie on the same
    page within the merge distance, so the merge pass would fuse their
    chunks into one; the chunker returns both. *)
Lemma merge_pass_not_applied :
  length (chunk_invoice_spatially [] [bare_table; bare_table]) = 2%nat /\
  length (_merge_related_chunks (built_chunks [] [bare_table; bare_table])) = 1%nat /\
  chunk_invoice_spatially [] [bare_table; bare_table]
  <> _merge_related_chunks (built_chunks [] [bare_table; bare_table]).
Proof.
  split; [reflexivity|]. split; [vm_compute; reflexivity|].
  intros H. apply (f_equal (@length _)) in H. vm_compute in H. discriminate.
Qed.

(** *** Confidence *)

Lemma page_chunks_confidence numbered :
  Forall (fun c => confidence c = confidence_default) (page_chunks numbered).
Proof.
  destruct numbered as [page_num page]. unfold page_chunks.
  apply Forall_flat_map, Forall_forall.
  intros [region_type [|e group]] _; repeat constructor.
Qed.

(** C2, as amended: the confidence of a built chunk tells whether it comes
    from a fragment group or from a table, and nothing else: every chunk
    built from a fragment group has confidence exactly 0.8, whichever way
    the label of the group was derived, and every table chunk has
    confidence exactly 0.9. *)
Theorem confidence_by_builder pages tables :
  (forall elements chunk_type page_num,
      confidence (_create_chunk_from_elements elements chunk_type page_num)
      = 0.8%float) /\
  exists group_chunks,
    chunk_invoice_spatially pages tables
    = group_chunks ++ map _create_table_chunk tables /\
    Forall (fun c => confidence c = 0.8%float) group_chunks /\
    Forall (fun c => confidence c = 0.9%float) (map _create_table_chunk tables).
Proof.
  split; [reflexivity|].
  exists (flat_map page_chunks (enumerate 0 pages)).
  split; [apply chunk_invoice_spatially_flat|]. split.
  - apply Forall_flat_map, Forall_forall. intros numbered _.
    apply page_chunks_confidence.
  - apply Forall_map, Forall_forall. reflexivity.
Qed.

(** C2, counterexample: no content pattern matches the fragment, its
    label [footer] comes from the spatial default, and its chunk has
    confidence 0.8, which is not at most 0.5. *)
Lemma fallback_chunk_confidence :
  pattern_label (Py.lower (text_of plain_element)) = None /\
  exists c,
    chunk_invoice_spatially [{| pg_elements := Some [plain_element] |}] [] = [c] /\
    chunk_type c = "footer" /\
    elements c = [plain_element] /\
    confidence c = 0.8%float /\
    (confidence c <=? 0.5)%float = false.
Proof.
  split; [vm_compute; reflexivity|].
  eexists. split; [vm_compute; reflexivity|].
  repeat split; reflexivity.
Qed.

(** *** The pre-filter for totals *)

Lemma in_insert_desc {A : Type} (key : A -> Q) x y l :
  In x (insert_desc key y l) <-> x = y \/ In x l.
Proof.
  induction l as [|z l IH]; simpl.
  - intuition.
  - destruct (Qlt_bool (key y) (key z)); simpl; rewrite ?IH; intuition.
Qed.

Lemma in_sorted_desc {A : Type} (key : A -> Q) x l :
  In x (sorted_desc key l) <-> In x l.
Proof.
  unfold sorted_desc. induction l as [|y l IH]; simpl.
  - reflexivity.
  - rewrite in_insert_desc, IH. intuition.
Qed.

Lemma dict_get_set_in k k' v g x :
  In x (dict_get k (dict_set k' v g)) ->
  In x (dict_get k g) \/ (k = k' /\ In x v).
Proof.
  induction g as [|[k0 v0] g IH]; simpl; [tauto|].
  destruct (String.eqb k' k0) eqn:E'; simpl.
  - destruct (String.eqb k k0) eqn:E; [|tauto].
    apply String.eqb_eq in E, E'. intros H. right. split; congruence.
  - destruct (String.eqb k k0); tauto.
Qed.

Lemma dict_get_set_mono k k' v g x :
  (In x (dict_get k' g) -> In x v) ->
  In x (dict_get k g) -> In x (dict_get k (dict_set k' v g)).
Proof.
  induction g as [|[k0 v0] g IH]; simpl; [tauto|].
  destruct (String.eqb k' k0) eqn:E'; simpl.
  - destruct (String.eqb k k0) eqn:E; tauto.
  - destruct (String.eqb k k0); tauto.
Qed.

Lemma dict_set_keys k v g : map fst (dict_set k v g) = map fst g.
Proof.
  induction g as [|[k0 v0] g IH]; simpl; [reflexivity|].
  destruct (String.eqb k k0); simpl; congruence.
Qed.

Lemma dict_get_unique k v g :
  NoDup (map fst g) -> In (k, v) g -> dict_get k g = v.
Proof.
  induction g as [|[k0 v0] g IH]; simpl; [tauto|].
  intros Hnd [H|H].
  - inversion H; subst. now rewrite String.eqb_refl.
  - inversion Hnd as [|? ? Hnotin Hnd']; subst.
    destruct (String.eqb k k0) eqn:E.
    + apply String.eqb_eq in E. subst. exfalso. apply Hnotin.
      change k0 with (fst (k0, v)). now apply in_map.
    + now apply IH.
Qed.

(** The second loop puts into a group only what it reads... *)
Lemma classify_into_in others : forall g k x,
  In x (dict_get k (fold_left classify_into others g)) ->
  In x (dict_get k g) \/ In x others.
Proof.
  induction others as [|e others IH]; intros g k x; simpl; [tauto|].
  intros H. apply IH in H. destruct H as [H|H]; [|tauto].
  unfold classify_into, dict_append in H. apply dict_get_set_in in H.
  destruct H as [H|[-> H]]; [tauto|].
  apply in_app_or in H. simpl in H. intuition.
Qed.

(** ... and takes nothing out of a group. *)
Lemma classify_into_mono others : forall g k x,
  In x (dict_get k g) -> In x (dict_get k (fold_left classify_into others g)).
Proof.
  induction others as [|e others IH]; intros g k x H; simpl; [exact H|].
  apply IH. unfold classify_into, dict_append. apply dict_get_set_mono; [|exact H].
  intros H'. apply in_or_app. now left.
Qed.

Lemma classify_into_keys others : forall g,
  map fst (fold_left classify_into others g) = map fst g.
Proof.
  induction others as [|e others IH]; intros g; simpl; [reflexivity|].
  rewrite IH. apply dict_set_keys.
Qed.

Lemma grouping_unfold elems :
  _adaptive_spatial_grouping elems
  = fold_left classify_into
      (filter (fun e => negb (is_totals_element e)) (sorted_desc top_edge elems))
      (dict_set "totals" (filter is_totals_element (sorted_desc top_edge elems))
         (map (fun chunk_type => (chunk_type, @nil Element)) chunk_types)).
Proof.
  unfold _adaptive_spatial_grouping.
  rewrite (fold_left_partition is_totals_element). simpl. reflexivity.
Qed.

Lemma keyword_is_totals e :
  Py.any_in totals_keywords (Py.lower (text_of e)) = true ->
  is_totals_element e = true.
Proof. intros H. unfold is_totals_element. now rewrite H. Qed.

(** C3: a fragment whose lowercase text contains a keyword of the totals
    pre-filter ('total', 'gesamt', 'summe', 'steuer', 'mwst', ...) is put
    into the totals group and into no other group, whatever else its text
    matches; so it is never classified [line_items], and the only chunk of
    its page that holds it is a [totals] chunk. *)
Theorem totals_prefilter_precedence elems e :
  In e elems ->
  Py.any_in totals_keywords (Py.lower (text_of e)) = true ->
  let groups := _adaptive_spatial_grouping elems in
  In e (dict_get "totals" groups) /\
  (forall chunk_type, chunk_type <> "totals" -> ~ In e (dict_get chunk_type groups)) /\
  (forall page_num c,
      In c (page_chunks (page_num, {| pg_elements := Some elems |})) ->
      In e (elements c) -> chunk_type c = "totals").
Proof.
  intros Hin Hkw groups.
  assert (Ht : is_totals_element e = true) by now apply keyword_is_totals.
  assert (Hnot : forall k, k <> "totals" -> ~ In e (dict_get k groups)).
  { intros k Hk H. subst groups. rewrite grouping_unfold in H.
    apply classify_into_in in H. destruct H as [H|H].
    - simpl in H.
      destruct (String.eqb k "header"); [exact H|].
      destruct (String.eqb k "addresses"); [exact H|].
      destruct (String.eqb k "line_items"); [exact H|].
      destruct (String.eqb k "totals") eqn:E;
        [apply String.eqb_eq in E; contradiction|].
      destruct (String.eqb k "footer"); exact H.
    - apply filter_In in H. destruct H as [_ H]. rewrite Ht in H. discriminate. }
  split; [|split].
  - subst groups. rewrite grouping_unfold. apply classify_into_mono. simpl.
    apply filter_In. split; [now apply in_sorted_desc | exact Ht].
  - exact Hnot.
  - intros page_num c Hc He. unfold page_chunks in Hc. simpl in Hc.
    apply in_flat_map in Hc. destruct Hc as [[k v] [Hkv Hc]].
    assert (Hv : dict_get k groups = v).
    { apply dict_get_unique; [|exact Hkv]. subst groups.
      rewrite grouping_unfold, classify_into_keys, dict_set_keys. simpl.
      repeat constructor; simpl; intuition discriminate. }
    destruct v as [|e0 v]; [contradiction|].
    destruct Hc as [<-|[]]. simpl in *.
    destruct (String.eqb k "totals") eqn:E; [now apply String.eqb_eq|].
    exfalso. apply (Hnot k).
    + intros ->. discriminate.
    + rewrite Hv. exact He.
Qed.

(** C3 at a fragment that the content patterns alone would label
    [line_items]. *)
Lemma totals_prefilter_witness :
  In totals_like_item [totals_like_item] /\
  Py.any_in totals_keywords (Py.lower (text_of totals_like_item)) = true /\
  pattern_label (Py.lower (text_of totals_like_item)) = Some "line_items" /\
  In totals_like_item
     (dict_get "totals" (_adaptive_spatial_grouping [totals_like_item])) /\
  ~ In totals_like_item
       (dict_get "line_items" (_adaptive_spatial_grouping [totals_like_item])).
Proof.
  split; [now left|]. split; [vm_compute; reflexivity|].
  split; [vm_compute; reflexivity|].
  destruct (totals_prefilter_precedence [totals_like_item] totals_like_item)
    as (H1 & H2 & _); [now left | vm_compute; reflexivity |].
  split; [exact H1 | apply H2; discriminate].
Defined.

(** The scenario of the specification: the fragment is put into the totals
    group by the keyword test. *)
Example gesamtbetrag_is_totals :
  _adaptive_spatial_grouping [gesamtbetrag_element]
  = [("header", []); ("addresses", []); ("line_items", []);
     ("totals", [gesamtbetrag_element]); ("footer", [])].
Proof. vm_compute. reflexivity. Qed.

(** *** The sub-line parser *)

Lemma last_line_snoc lines l : last_line (lines ++ [l]) = Some l.
Proof. unfold last_line. now rewrite rev_app_distr. Qed.

Lemma lines_of_snoc r lines l :
  lines_of r (lines ++ [l])
  = lines_of r lines ++
    (if match rule_of l with Some r' => rule_eqb r r' | None => false end
     then [l] else []).
Proof. unfold lines_of. rewrite filter_app. reflexivity. Qed.

Lemma tl_snoc (A : Type) (l : list A) (x : A) :
  tl (l ++ [x]) = match l with [] => [] | _ :: l' => l' ++ [x] end.
Proof. destruct l; reflexivity. Qed.

(** The state of the parser after any list of sub-lines. *)
Lemma parse_lines_fields lines :
  let parsed := fold_left parse_line lines empty_parsed in
  p_quantity parsed = last_line (lines_of RQuantity lines) /\
  p_unit parsed = last_line (lines_of RUnit lines) /\
  p_tax_rate parsed = last_line (lines_of RTax lines) /\
  p_unit_price parsed = hd_error (lines_of RPrice lines) /\
  p_line_total parsed = last_line (tl (lines_of RPrice lines)).
Proof.
  induction lines as [|l lines IH] using rev_ind; cbv zeta.
  - repeat split.
  - cbv zeta in IH. destruct IH as (Hq & Hu & Ht & Hp & Hl).
    rewrite fold_left_app. simpl fold_left. rewrite !lines_of_snoc.
    set (parsed := fold_left parse_line lines empty_parsed) in *.
    unfold parse_line.
    destruct (rule_of l) as [[| | |]|]; simpl rule_eqb; cbv iota;
      rewrite ?app_nil_r, ?last_line_snoc.
    + simpl. auto.
    + simpl. auto.
    + rewrite tl_snoc. rewrite Hp.
      destruct (lines_of RPrice lines) as [|a F]; simpl.
      * rewrite Hq, Hu, Ht, Hl. simpl. auto.
      * rewrite Hq, Hu, Ht, last_line_snoc. auto.
    + simpl. auto.
    + auto.
Qed.

Example rule_of_samples :
  map rule_of ["10,00"; "10"; "Std."; "std"; "pcs."; "80,00 ‚Ç¨"; "19%"; "abc"]
  = [Some RQuantity; Some RQuantity; Some RUnit; None; Some RUnit;
     Some RPrice; Some RTax; None].
Proof. vm_compute. reflexivity. Qed.

(** The price rule looks for the currency marker as the source file
    spells it, the three characters U+201A U+00C7 U+00A8 that a euro sign
    becomes when its UTF-8 bytes are read as Mac Roman; a numeral followed
    by the euro sign itself falls under no rule. *)
Example euro_sign_under_no_rule :
  rule_of "80,00 ‚Ç¨" = Some RPrice /\ rule_of "80,00 €" = None /\
  Py.codes currency = [8218%N; 199%N; 168%N].
Proof. repeat split; vm_compute; reflexivity. Qed.

(** C4, as amended: for every details string, quantity, unit and tax rate
    each hold the last sub-line that falls under their rule (a later
    matching sub-line replaces the earlier one); of the sub-lines that
    fall under the price rule the first is the unit price and the last of
    the later ones the line total, so that of two such sub-lines the first
    is the unit price and the second the line total.  Which sub-lines the
    price rule takes is not part of the statement. *)
Theorem parse_line_item_details_fields details :
  let lines := sub_lines details in
  let parsed := _parse_line_item_details details in
  p_quantity parsed = last_line (lines_of RQuantity lines) /\
  p_unit parsed = last_line (lines_of RUnit lines) /\
  p_tax_rate parsed = last_line (lines_of RTax lines) /\
  p_unit_price parsed = hd_error (lines_of RPrice lines) /\
  p_line_total parsed = last_line (tl (lines_of RPrice lines)).
Proof. apply parse_lines_fields. Qed.

(** C4, counterexample: of two bare numerals in one cell the second is the
    quantity, not the first. *)
Lemma later_quantity_wins :
  sub_lines two_quantities = ["1"; "2"] /\
  lines_of RQuantity (sub_lines two_quantities) = ["1"; "2"] /\
  p_quantity (_parse_line_item_details two_quantities) = Some "2" /\
  p_quantity (_parse_line_item_details two_quantities)
  <> hd_error (lines_of RQuantity (sub_lines two_quantities)).
Proof.
  split; [vm_compute; reflexivity|]. split; [vm_compute; reflexivity|].
  split; [vm_compute; reflexivity|].
  vm_compute. discriminate.
Qed.

Example parse_full_details :
  _parse_line_item_details full_details
  = {| p_quantity := Some "10,00"; p_unit := Some "Std.";
       p_unit_price := Some "80,00 ‚Ç¨"; p_tax_rate := Some "19%";
       p_line_total := Some "800,00 ‚Ç¨" |}.
Proof. vm_compute. reflexivity. Qed.

(** *** The merge pass *)

Lemma merge_length_two chunks :
  (length (_merge_related_chunks chunks) <= length chunks)%nat /\
  forall c, (length (_merge_related_chunks (c :: chunks)) <= S (length chunks))%nat.
Proof.
  induction chunks as [|n rest [IH1 IH2]].
  - split; simpl; intros; lia.
  - split.
    + apply IH2.
    + intros c. simpl. destruct (_should_merge_chunks c n).
      * simpl. lia.
      * simpl. specialize (IH2 n). simpl in IH2. lia.
Qed.

(** C8: for every chunk sequence, the merge pass returns a sequence that
    is at most as long as its input. *)
Theorem merge_related_chunks_length chunks :
  (length (_merge_related_chunks chunks) <= length chunks)%nat.
Proof. apply merge_length_two. Qed.

(** The scenario of the specification: a [line_items_header] chunk
    followed by a [table_data] chunk becomes one [line_items] chunk. *)
Example merge_header_with_table :
  let header :=
    {| content := "Items"; chunk_type := "line_items_header"; elements := [];
       bbox := (0, 100, 200, 110)%Q; page_number := 1; confidence := 0.9%float |} in
  let table :=
    {| content := "rows"; chunk_type := "table_data"; elements := [];
       bbox := (0, 115, 200, 300)%Q; page_number := 1; confidence := 0.7%float |} in
  map chunk_type (_merge_related_chunks [header; table]) = ["line_items"].
Proof. vm_compute. reflexivity. Qed.

(** *** The summary *)

Lemma summary_total_chunks chunks :
  total_chunks (get_chunk_summary chunks) = length chunks.
Proof.
  unfold get_chunk_summary. destruct (fold_left _ chunks _). reflexivity.
Qed.

Lemma summary_buckets chunks :
  chunks_by_confidence (get_chunk_summary chunks)
  = {| high := count_if in_high chunks;
       medium := count_if in_medium chunks;
       low := count_if in_low chunks |}.
Proof.
  unfold get_chunk_summary. destruct (fold_left _ chunks _). reflexivity.
Qed.

(** A confidence that is a number passes exactly one of the three tests,
    not-a-number passes none. *)
Lemma one_bucket c :
  buckets_of c = if is_nan (confidence c) then 0%nat else 1%nat.
Proof.
  unfold buckets_of, in_high, in_medium, in_low.
  destruct (is_nan (confidence c)) eqn:N.
  - destruct (FloatFacts.nan_unordered (confidence c) 0.8 N) as (-> & _ & _ & ->).
    destruct (FloatFacts.nan_unordered (confidence c) 0.5 N) as (-> & _ & _ & ->).
    reflexivity.
  - rewrite (FloatFacts.leb_ltb 0.8 (confidence c)), (FloatFacts.leb_ltb 0.5 (confidence c))
      by (reflexivity || exact N).
    destruct (confidence c <? 0.5)%float eqn:L5.
    + rewrite (FloatFacts.ltb_trans _ 0.5 0.8 L5) by reflexivity. reflexivity.
    + destruct (confidence c <? 0.8)%float; reflexivity.
Qed.

Lemma count_buckets (chunks : list InvoiceChunk) :
  (count_if in_high chunks + count_if in_medium chunks + count_if in_low chunks
   = count_if (fun c => negb (is_nan (confidence c))) chunks)%nat.
Proof.
  unfold count_if.
  induction chunks as [|c chunks IH]; simpl; [reflexivity|].
  pose proof (one_bucket c) as H. unfold buckets_of in H.
  destruct (is_nan (confidence c)), (in_high c), (in_medium c), (in_low c);
    simpl in *; lia.
Qed.

(** C10, as amended: the summary is defined on every chunk list.  On the
    empty list it reports [total_chunks = 0] and [average_chunk_size = 0],
    the division being guarded.  On every list [total_chunks] is the
    length and each bucket counts the chunks that pass its test (high: at
    least 0.8; medium: at least 0.5 and below 0.8; low: below 0.5).  A
    chunk whose confidence is a number passes exactly one of the three
    tests, a chunk whose confidence is not-a-number passes none: the three
    counts add up to the number of chunks whose confidence is a number,
    which is [total_chunks] when every confidence is one. *)
Theorem chunk_summary_buckets :
  total_chunks (get_chunk_summary []) = 0%nat /\
  average_chunk_size (get_chunk_summary []) = 0%Q /\
  (forall c : InvoiceChunk,
      buckets_of c = if is_nan (confidence c) then 0%nat else 1%nat) /\
  forall chunks,
    let summary := get_chunk_summary chunks in
    let buckets := chunks_by_confidence summary in
    total_chunks summary = length chunks /\
    high buckets = length (filter in_high chunks) /\
    medium buckets = length (filter in_medium chunks) /\
    low buckets = length (filter in_low chunks) /\
    (high buckets + medium buckets + low buckets
     = length (filter (fun c => negb (is_nan (confidence c))) chunks))%nat /\
    (high buckets + medium buckets + low buckets <= total_chunks summary)%nat /\
    (Forall (fun c => is_nan (confidence c) = false) chunks ->
     (high buckets + medium buckets + low buckets = total_chunks summary)%nat).
Proof.
  split; [reflexivity|]. split; [reflexivity|].
  split; [exact one_bucket|].
  intros chunks. cbv zeta. rewrite summary_total_chunks, summary_buckets.
  cbn [high medium low].
  split; [reflexivity|]. split; [reflexivity|]. split; [reflexivity|].
  split; [reflexivity|]. rewrite count_buckets. unfold count_if.
  split; [reflexivity|]. split; [apply filter_length_le|].
  intros H. induction H as [|c l Hc _ IH]; simpl; [reflexivity|].
  rewrite Hc. simpl. now rewrite IH.
Qed.

(** C10, counterexample: a chunk whose confidence is not-a-number is
    counted in none of the three buckets, so the bucket counts of the
    one-chunk list add up to 0 while [total_chunks] is 1. *)
Lemma nan_chunk_in_no_bucket :
  let summary := get_chunk_summary [unrated_chunk] in
  let buckets := chunks_by_confidence summary in
  total_chunks summary = 1%nat /\
  high buckets = 0%nat /\ medium buckets = 0%nat /\ low buckets = 0%nat /\
  (high buckets + medium buckets + low buckets)%nat <> total_chunks summary.
Proof. vm_compute. repeat split. discriminate. Qed.

End ChunkerFacts.

(** ** The normalizer *)

Module NormalizerFacts.

Import Normalizer.

(** *** The table structure *)

Lemma split_rows data_rows : forall item_rows summary_rows,
  fold_left
    (fun '(item_rows, summary_rows) row =>
       if is_summary row then (item_rows, summary_rows ++ [row])
       else (item_rows ++ [row], summary_rows))
    data_rows (item_rows, summary_rows)
  = (item_rows ++ filter (fun row => negb (is_summary row)) data_rows,
     summary_rows ++ filter is_summary data_rows).
Proof.
  induction data_rows as [|row rows IH]; intros item_rows summary_rows; simpl.
  - now rewrite !app_nil_r.
  - destruct (is_summary row); simpl; rewrite IH, <- app_assoc; reflexivity.
Qed.

(** The guard on the length of the unfiltered list changes nothing. *)
Lemma position_name_at_nth position_names i :
  position_name_at position_names i
  = nth_error
      (map name (filter (fun p => negb (Py.isin "summe" (Py.lower (name p))))
                        position_names)) i.
Proof.
  unfold position_name_at. destruct (Nat.ltb i (length position_names)) eqn:E.
  - reflexivity.
  - symmetry. apply nth_error_None. rewrite length_map.
    apply Nat.ltb_ge in E.
    pose proof (filter_length_le
                  (fun p => negb (Py.isin "summe" (Py.lower (name p))))
                  position_names).
    lia.
Qed.

Lemma reconstruct_items headers data_rows position_names :
  exists ts,
    reconstruct_table_structure (headers :: data_rows) position_names = Some ts /\
    Normalizer.headers ts = headers /\
    summary ts = filter is_summary data_rows /\
    items ts
    = map (make_item headers position_names)
        (Chunker.enumerate 0 (filter (fun row => negb (is_summary row)) data_rows)).
Proof.
  unfold reconstruct_table_structure. rewrite split_rows. simpl app.
  eexists. split; [reflexivity|]. simpl. repeat split.
  rewrite (fold_left_appending _ (fun n => [make_item headers position_names n]))
    by reflexivity.
  simpl. apply flat_map_singleton.
Qed.

(** C5, as amended: the item rows are the data rows whose joined
    lowercase text holds no summary keyword, in their order, and for every
    [i] the [i]-th item row receives as its position name the [i]-th entry
    of the position-name list after filtering out every name whose
    lowercase text contains 'summe' (no other keyword is looked for in
    the names), or [None] when that filtered list has fewer than [i+1]
    entries. *)
Theorem item_rows_position_names headers data_rows position_names :
  let item_rows := filter (fun row => negb (is_summary row)) data_rows in
  let pos_names :=
    map name (filter (fun p => negb (Py.isin "summe" (Py.lower (name p))))
                     position_names) in
  exists ts,
    reconstruct_table_structure (headers :: data_rows) position_names = Some ts /\
    map raw_row (items ts) = item_rows /\
    map position_name (items ts)
    = map (nth_error pos_names) (seq 0 (length item_rows)).
Proof.
  intros item_rows pos_names.
  destruct (reconstruct_items headers data_rows position_names)
    as (ts & Hts & _ & _ & Hitems).
  exists ts. split; [exact Hts|]. rewrite Hitems. fold item_rows.
  destruct (enumerate_rows item_rows 0) as [Hsnd Hfst].
  split.
  - rewrite <- Hsnd at 2. rewrite !map_map. apply map_ext. now intros [i row].
  - rewrite <- Hfst. rewrite !map_map. apply map_ext. intros [i row]. simpl.
    apply position_name_at_nth.
Qed.

(** C5, counterexample: the position names of a table whose summary row
    comes first are "Total" and "Consulting"; "Total" holds the summary
    keyword 'total' but not 'summe', so it stays in the list and is given
    to the item row, where the filter on all summary keywords would give
    "Consulting". *)
Lemma total_name_not_filtered :
  let position_names := extract_position_names [] total_first_rows in
  map name position_names = ["Total"; "Consulting"] /\
  option_map (fun ts => map (fun it => (raw_row it, position_name it)) (items ts))
    (reconstruct_table_structure total_first_rows position_names)
  = Some [(["Consulting"; "2"], Some "Total")] /\
  spec_position_name_at position_names 0 = Some "Consulting".
Proof. vm_compute. repeat split. Qed.

(** C6: for every table and position-name list, the items of the
    reconstructed table structure are at most as many as the data rows
    of the table, the rows after the first (header) row. *)
Theorem items_bounded_by_data_rows table_rows position_names ts :
  reconstruct_table_structure table_rows position_names = Some ts ->
  (length (items ts) <= length (tl table_rows))%nat.
Proof.
  destruct table_rows as [|headers data_rows]; [discriminate|].
  destruct (reconstruct_items headers data_rows position_names)
    as (ts' & Hts & _ & _ & Hitems).
  rewrite Hts. intros [= <-]. simpl.
  rewrite Hitems, length_map.
  destruct (enumerate_rows (filter (fun row => negb (is_summary row)) data_rows) 0)
    as [_ Hfst].
  rewrite <- (length_map fst), Hfst, length_seq. apply filter_length_le.
Qed.

(** C6 at the table of the specification's scenario: one item for two
    data rows. *)
Lemma items_bounded_witness :
  exists ts,
    reconstruct_table_structure consulting_rows [] = Some ts /\
    length (items ts) = 1%nat /\
    (length (items ts) <= length (tl consulting_rows))%nat.
Proof.
  eexists. split; [vm_compute; reflexivity|]. split; [reflexivity|].
  apply (items_bounded_by_data_rows consulting_rows []). vm_compute. reflexivity.
Defined.

(** The scenario of the specification. *)
Example reconstruct_consulting :
  option_map
    (fun ts => (map table_data (items ts), summary ts))
    (reconstruct_table_structure consulting_rows
       (extract_position_names [] consulting_rows))
  = Some ([[("Description", "Consulting"); ("Qty", "2");
            ("Unit Price", "80,00 €"); ("Total", "160,00 €")]],
          [["Gesamtbetrag"; ""; ""; "160,00 €"]]).
Proof. vm_compute. reflexivity. Qed.

(** *** The position names *)

Lemma keep_unseen_fold l : forall seen unique_positions,
  snd (fold_left keep_unseen l (seen, unique_positions))
  = unique_positions ++ unseen_from seen l.
Proof.
  induction l as [|pos l IH]; intros seen unique_positions; simpl.
  - now rewrite app_nil_r.
  - destruct (existsb (String.eqb (name pos)) seen); rewrite IH.
    + reflexivity.
    + now rewrite <- app_assoc.
Qed.

Lemma unique_by_name_unseen l : unique_by_name l = unseen_from [] l.
Proof. unfold unique_by_name. now rewrite keep_unseen_fold. Qed.

Lemma existsb_eqb_In n seen :
  existsb (String.eqb n) seen = true <-> In n seen.
Proof.
  rewrite existsb_exists. split.
  - intros (m & Hm & E). apply String.eqb_eq in E. now subst.
  - intros H. exists n. split; [exact H | apply String.eqb_refl].
Qed.

Lemma unseen_from_fresh l : forall seen q,
  In q (unseen_from seen l) -> ~ In (name q) seen.
Proof.
  induction l as [|pos l IH]; intros seen q; simpl; [tauto|].
  destruct (existsb (String.eqb (name pos)) seen) eqn:E.
  - apply IH.
  - intros [<-|H].
    + intros Hin. apply existsb_eqb_In in Hin. congruence.
    + intros Hin. apply (IH _ _ H). now right.
Qed.

Lemma unseen_from_NoDup l : forall seen, NoDup (map name (unseen_from seen l)).
Proof.
  induction l as [|pos l IH]; intros seen; simpl; [constructor|].
  destruct (existsb (String.eqb (name pos)) seen); [apply IH|].
  simpl. constructor; [|apply IH].
  intros Hin. apply in_map_iff in Hin. destruct Hin as (q & Hq & Hin).
  apply (unseen_from_fresh _ _ _ Hin). left. now symmetry.
Qed.

Lemma unseen_from_Subseq l : forall seen, Subseq (unseen_from seen l) l.
Proof.
  induction l as [|pos l IH]; intros seen; simpl; [constructor|].
  destruct (existsb (String.eqb (name pos)) seen); constructor; apply IH.
Qed.

Lemma unseen_from_first l : forall seen q,
  In q (unseen_from seen l) -> first_named (name q) l = Some q.
Proof.
  induction l as [|pos l IH]; intros seen q; simpl; [tauto|].
  destruct (existsb (String.eqb (name pos)) seen) eqn:E.
  - intros H. destruct (String.eqb (name pos) (name q)) eqn:En.
    + exfalso. apply String.eqb_eq in En. apply (unseen_from_fresh _ _ _ H).
      rewrite <- En. now apply existsb_eqb_In.
    + now apply IH with seen.
  - intros [<-|H].
    + now rewrite String.eqb_refl.
    + destruct (String.eqb (name pos) (name q)) eqn:En.
      * exfalso. apply String.eqb_eq in En. apply (unseen_from_fresh _ _ _ H).
        left. exact En.
      * now apply IH with (name pos :: seen).
Qed.

Lemma unseen_from_covers l : forall seen p,
  In p l -> ~ In (name p) seen -> In (name p) (map name (unseen_from seen l)).
Proof.
  induction l as [|pos l IH]; intros seen p; simpl; [tauto|].
  destruct (existsb (String.eqb (name pos)) seen) eqn:E.
  - intros [->|H] Hfresh.
    + exfalso. apply Hfresh. now apply existsb_eqb_In.
    + now apply IH.
  - intros [->|H] Hfresh; simpl; [now left|].
    destruct (String.eqb (name pos) (name p)) eqn:En.
    + left. now apply String.eqb_eq.
    + right. apply IH; [exact H|]. intros [Heq|Hin]; [|tauto].
      rewrite Heq, String.eqb_refl in En. discriminate.
Qed.

Lemma scan_elements_app todo : forall position_names,
  scan_elements todo position_names = position_names ++ scan_elements todo [].
Proof.
  induction todo as [|el rest IH]; intros position_names; simpl.
  - now rewrite app_nil_r.
  - repeat match goal with
           | |- context [if ?b then _ else _] => destruct b
           end; try apply IH.
    rewrite IH, (IH [_]), <- app_assoc. reflexivity.
Qed.

Lemma content_position_names_app pages : forall position_names,
  content_position_names pages position_names
  = position_names ++ content_position_names pages [].
Proof.
  unfold content_position_names.
  induction pages as [|pg pages IH]; intros position_names; simpl.
  - now rewrite app_nil_r.
  - rewrite IH, scan_elements_app, (IH (scan_elements _ [])), <- app_assoc.
    reflexivity.
Qed.

(** C7: for every input, the list returned by [extract_position_names]
    has no two entries with the same name.  The candidates are the names
    of the table column followed by those of the content; the returned
    list is the candidate list with entries left out and the order kept,
    each returned entry is the first candidate of its name, and every
    candidate name is returned. *)
Theorem position_names_unique pages table_rows :
  let candidates := candidate_position_names pages table_rows in
  let unique_positions := extract_position_names pages table_rows in
  candidates
  = table_position_names table_rows ++ content_position_names pages [] /\
  NoDup (map name unique_positions) /\
  Subseq unique_positions candidates /\
  (forall q, In q unique_positions -> first_named (name q) candidates = Some q) /\
  (forall p, In p candidates -> In (name p) (map name unique_positions)).
Proof.
  cbv zeta. unfold extract_position_names. rewrite unique_by_name_unseen.
  split; [apply content_position_names_app|].
  split; [apply unseen_from_NoDup|].
  split; [apply unseen_from_Subseq|].
  split.
  - intros q. apply unseen_from_first.
  - intros p Hp. apply unseen_from_covers; [exact Hp | tauto].
Qed.

End NormalizerFacts.

(** ** Empty input *)

Lemma no_elements_no_chunks pages : forall start,
  Forall (fun page => Chunker.get (Chunker.pg_elements page) [] = []) pages ->
  flat_map Chunker.page_chunks (Chunker.enumerate start pages) = [].
Proof.
  induction pages as [|page pages IH]; intros start H; [reflexivity|].
  inversion H as [|? ? Hpage Hrest]; subst.
  cbn [flat_map Chunker.enumerate]. rewrite IH by exact Hrest.
  unfold Chunker.page_chunks. rewrite Hpage. reflexivity.
Qed.

(** C9: on an empty fragment list and an empty table list the chunker
    returns the empty chunk sequence, be the fragment list empty because
    there is no page or because the pages hold no element, and
    [reconstruct_table_structure] applied to an empty row list yields
    [None]; the position-name list is empty as well.  The functions are
    total, so no error is raised. *)
Theorem empty_input_empty_output :
  Chunker.chunk_invoice_spatially [] [] = [] /\
  (forall n,
      Chunker.chunk_invoice_spatially (repeat Chunker.empty_page n) [] = [] /\
      Chunker.chunk_invoice_spatially (repeat Chunker.bare_page n) [] = []) /\
  Chunker.chunk_invoice_extraction
    {| Chunker.text_extraction := None; Chunker.table_extraction := None |} = [] /\
  (forall position_names,
      Normalizer.reconstruct_table_structure [] position_names = None) /\
  Normalizer.extract_position_names [] [] = [].
Proof.
  split; [reflexivity|]. split; [|repeat split].
  intros n. rewrite !ChunkerFacts.chunk_invoice_spatially_flat.
  rewrite !no_elements_no_chunks; [auto | |];
    apply Forall_forall; intros page Hin; apply repeat_spec in Hin; now subst.
Qed.

(** ** More on the string primitives *)

Module StringFacts.

Import Py.

Lemma append_nil_r (a : string) : (a ++ "")%string = a.
Proof. induction a; simpl; congruence. Qed.

Lemma append_assoc (a b c : string) :
  ((a ++ b) ++ c)%string = (a ++ (b ++ c))%string.
Proof. induction a; simpl; congruence. Qed.

Lemma append_nonempty (a b : string) : a <> "" -> (a ++ b)%string <> "".
Proof. destruct a; simpl; [tauto | discriminate]. Qed.

Lemma startswith_append (a b : string) : startswith a (a ++ b) = true.
Proof.
  induction a as [|c a IH]; simpl; [reflexivity|].
  now rewrite Ascii.eqb_refl.
Qed.

(** *** The characters of a string *)

Lemma chars_cut s : cut (chars s).
Proof.
  unfold cut. induction s as [|c s [IHg IHp]]; simpl; [split; constructor|].
  destruct (chars s) as [|[|d g] gs] eqn:E.
  - split; repeat constructor.
  - split; repeat constructor.
  - inversion IHg as [|? ? Hg Hgs]; subst. simpl in IHp.
    destruct (is_cont d) eqn:Ed; simpl.
    + split; [|exact IHp]. constructor; [|exact Hgs].
      simpl. now rewrite Ed.
    + split; [repeat constructor; assumption|].
      constructor; [exact Ed | exact IHp].
Qed.

Lemma concat_chars s : concat (chars s) = s.
Proof.
  induction s as [|c s IH]; simpl; [reflexivity|].
  pose proof (chars_cut s) as [Hg _].
  destruct (chars s) as [|[|d g] gs] eqn:E; simpl in *.
  - now subst.
  - inversion Hg as [|? ? Hempty _]. destruct Hempty.
  - destruct (is_cont d); simpl; now rewrite <- IH.
Qed.

Lemma chars_cons_group t : forall h rest,
  all_cont t = true ->
  match chars rest with
  | [] => True
  | g :: _ => group g /\ proper g
  end ->
  chars (String h (t ++ rest)) = String h t :: chars rest.
Proof.
  induction t as [|d t IH]; intros h rest Ht Hrest.
  - simpl. destruct (chars rest) as [|[|d g] gs]; [reflexivity| |].
    + destruct Hrest as [[] _].
    + destruct Hrest as [_ Hp]. simpl in Hp. now rewrite Hp.
  - simpl in Ht. apply andb_true_iff in Ht. destruct Ht as [Hd Ht].
    change (chars (String h (String d (t ++ rest)))
            = String h (String d t) :: chars rest).
    assert (E := IH d rest Ht Hrest).
    change (chars (String h (String d (t ++ rest))))
      with (match chars (String d (t ++ rest)) with
            | String d' g :: gs =>
                if is_cont d' then String h (String d' g) :: gs
                else String h EmptyString :: String d' g :: gs
            | _ => [String h EmptyString]
            end).
    rewrite E, Hd. reflexivity.
Qed.

(** Cutting the concatenation of characters gives the characters back. *)
Lemma chars_concat l : cut l -> chars (concat l) = l.
Proof.
  unfold cut. induction l as [|g l IH]; intros [Hg Hp]; [reflexivity|].
  inversion Hg as [|? ? Hg1 Hgl]; subst. simpl in Hp.
  assert (El : chars (concat l) = l).
  { apply IH. split; [exact Hgl|]. destruct l; [constructor|].
    inversion Hp; assumption. }
  destruct g as [|h t]; [destruct Hg1|].
  change (concat (String h t :: l)) with (String h (t ++ concat l)).
  rewrite chars_cons_group, El; [reflexivity | exact Hg1 |].
  rewrite El. destruct l as [|g' l']; [exact I|].
  inversion Hgl; inversion Hp; subst. now split.
Qed.

Lemma cut_suffix pre l : cut (pre ++ l) -> cut l.
Proof.
  unfold cut. intros [Hg Hp]. apply Forall_app in Hg. destruct Hg as [_ Hg].
  split; [exact Hg|]. destruct pre as [|g pre]; [exact Hp|].
  simpl in Hp. apply Forall_app in Hp. destruct Hp as [_ Hp].
  destruct l; [constructor | inversion Hp; assumption].
Qed.

Lemma cut_prefix l post : cut (l ++ post) -> cut l.
Proof.
  unfold cut. intros [Hg Hp]. apply Forall_app in Hg. destruct Hg as [Hg _].
  split; [exact Hg|]. destruct l as [|g l]; [constructor|].
  simpl in Hp. apply Forall_app in Hp. tauto.
Qed.

(** *** [strip] leaves nothing to strip *)

Lemma lstrip_chars_suffix l : exists pre, l = pre ++ lstrip_chars l.
Proof.
  induction l as [|ch l [pre IH]]; simpl; [now exists []|].
  destruct (is_space ch).
  - exists (ch :: pre). simpl. congruence.
  - now exists [].
Qed.

Lemma lstrip_chars_starts_clean l : starts_clean (lstrip_chars l).
Proof.
  induction l as [|ch l IH]; simpl; [exact I|].
  destruct (is_space ch) eqn:E; [exact IH | exact E].
Qed.

Lemma lstrip_chars_clean l : starts_clean l -> lstrip_chars l = l.
Proof. destruct l as [|ch l]; simpl; [reflexivity|]. now intros ->. Qed.

Lemma rstrip_chars_prefix l : exists post, l = rstrip_chars l ++ post.
Proof.
  unfold rstrip_chars.
  destruct (lstrip_chars_suffix (rev l)) as [pre E].
  exists (rev pre). rewrite <- rev_app_distr, <- E. now rewrite rev_involutive.
Qed.

Lemma rstrip_chars_starts_clean l :
  starts_clean l -> starts_clean (rstrip_chars l).
Proof.
  intros H. destruct (rstrip_chars_prefix l) as [post E].
  destruct (rstrip_chars l) as [|ch r]; [exact I|].
  rewrite E in H. exact H.
Qed.

Lemma rstrip_chars_idempotent l :
  rstrip_chars (rstrip_chars l) = rstrip_chars l.
Proof.
  unfold rstrip_chars. rewrite rev_involutive.
  now rewrite (lstrip_chars_clean _ (lstrip_chars_starts_clean _)).
Qed.

(** The characters of a stripped string. *)
Lemma chars_strip s :
  chars (strip s) = rstrip_chars (lstrip_chars (chars s)).
Proof.
  unfold strip. apply chars_concat.
  destruct (rstrip_chars_prefix (lstrip_chars (chars s))) as [post E].
  destruct (lstrip_chars_suffix (chars s)) as [pre E'].
  apply cut_prefix with post. rewrite <- E.
  apply cut_suffix with pre. rewrite <- E'. apply chars_cut.
Qed.

Lemma strip_idempotent s : strip (strip s) = strip s.
Proof.
  unfold strip at 1. rewrite chars_strip.
  rewrite (lstrip_chars_clean (rstrip_chars _)).
  - now rewrite rstrip_chars_idempotent.
  - apply rstrip_chars_starts_clean, lstrip_chars_starts_clean.
Qed.

(** A stripped string neither starts nor ends with white space. *)
Lemma strip_ends s :
  starts_clean (chars (strip s)) /\
  starts_clean (rev (chars (strip s))).
Proof.
  rewrite chars_strip. split.
  - apply rstrip_chars_starts_clean, lstrip_chars_starts_clean.
  - unfold rstrip_chars. rewrite rev_involutive.
    apply lstrip_chars_starts_clean.
Qed.

End StringFacts.

(** ** The chunker: what the grouping and the builder keep *)

Module ChunkerInvariants.

Import Chunker.

(** *** The labels *)

Lemma first_pattern_label_key table text t :
  first_pattern_label table text = Some t -> In t (map fst table).
Proof.
  induction table as [|[chunk_type patterns] table IH]; simpl; [discriminate|].
  destruct (existsb _ patterns).
  - intros [= <-]. now left.
  - intros H. right. now apply IH.
Qed.

Lemma spatial_label_cases y_position font_size text :
  In (spatial_label y_position font_size text)
     ["header"; "totals"; "line_items"; "addresses"; "footer"].
Proof.
  unfold spatial_label.
  repeat match goal with
         | |- context [if ?b then _ else _] => destruct b
         end; simpl; tauto.
Qed.

Lemma classify_label_known element text bbox font_info :
  In (_classify_element_adaptively element text bbox font_info) chunk_types.
Proof.
  unfold _classify_element_adaptively.
  destruct (pattern_label text) as [t|] eqn:E.
  - apply first_pattern_label_key in E. simpl in E. unfold chunk_types. simpl.
    intuition.
  - pose proof (spatial_label_cases (b1 bbox) (size_of font_info) text) as H.
    unfold chunk_types. simpl in *. intuition.
Qed.

(** *** Nothing is lost in the grouping *)

Lemma insert_desc_perm {A : Type} (key : A -> Q) x l :
  Permutation (insert_desc key x l) (x :: l).
Proof.
  induction l as [|y l IH]; simpl; [reflexivity|].
  destruct (Qlt_bool (key x) (key y)); [|reflexivity].
  rewrite IH. apply perm_swap.
Qed.

Lemma sorted_desc_perm {A : Type} (key : A -> Q) l :
  Permutation (sorted_desc key l) l.
Proof.
  unfold sorted_desc. induction l as [|x l IH]; simpl; [reflexivity|].
  rewrite insert_desc_perm. now constructor.
Qed.

Lemma filter_split_perm {A : Type} (f : A -> bool) l :
  Permutation (filter f l ++ filter (fun x => negb (f x)) l) l.
Proof.
  induction l as [|x l IH]; simpl; [reflexivity|].
  destruct (f x); simpl.
  - now constructor.
  - rewrite <- Permutation_middle. now constructor.
Qed.

Lemma dict_append_perm k x g :
  In k (map fst g) ->
  Permutation (flat_map snd (dict_append k x g)) (x :: flat_map snd g).
Proof.
  unfold dict_append. induction g as [|[k0 v0] g IH]; simpl; [tauto|].
  destruct (String.eqb k k0) eqn:E; simpl.
  - intros _. rewrite <- app_assoc. simpl.
    symmetry. apply Permutation_middle.
  - intros [H|H]; [apply String.eqb_neq in E; congruence|].
    rewrite (IH H). symmetry. apply Permutation_middle.
Qed.

(** X1: whatever the text, the position and the font of an element,
    [_classify_element_adaptively] answers with one of the five chunk types
    of [chunk_types]. *)
Theorem classify_in_chunk_types element text bbox font_info :
  In (_classify_element_adaptively element text bbox font_info) chunk_types.
Proof. apply classify_label_known. Qed.

Lemma classify_into_perm others : forall g,
  (forall t, In t chunk_types -> In t (map fst g)) ->
  Permutation (flat_map snd (fold_left classify_into others g))
              (flat_map snd g ++ others).
Proof.
  induction others as [|e others IH]; intros g Hkeys; simpl.
  - now rewrite app_nil_r.
  - rewrite IH.
    + unfold classify_into at 1. rewrite dict_append_perm.
      * rewrite <- Permutation_middle. reflexivity.
      * apply Hkeys, classify_label_known.
    + intros t Ht. unfold classify_into, dict_append.
      rewrite ChunkerFacts.dict_set_keys. now apply Hkeys.
Qed.

Lemma grouping_keys elems :
  map fst (_adaptive_spatial_grouping elems) = chunk_types.
Proof.
  rewrite ChunkerFacts.grouping_unfold, ChunkerFacts.classify_into_keys,
    ChunkerFacts.dict_set_keys.
  reflexivity.
Qed.

Lemma grouping_perm elems :
  Permutation (flat_map snd (_adaptive_spatial_grouping elems)) elems.
Proof.
  rewrite ChunkerFacts.grouping_unfold. rewrite classify_into_perm.
  - simpl. rewrite app_nil_r.
    rewrite filter_split_perm. apply sorted_desc_perm.
  - intros t Ht. rewrite ChunkerFacts.dict_set_keys. exact Ht.
Qed.

(** X2: the groups of [_adaptive_spatial_grouping] are keyed by the five
    chunk types in the order of [chunk_types], and together they hold
    every element of the page exactly once. *)
Theorem grouping_is_partition elems :
  let groups := _adaptive_spatial_grouping elems in
  map fst groups = chunk_types /\
  Permutation (flat_map snd groups) elems.
Proof. split; [apply grouping_keys | apply grouping_perm]. Qed.

Lemma page_chunks_elements numbered :
  flat_map elements (page_chunks numbered)
  = flat_map snd (_adaptive_spatial_grouping (get (pg_elements (snd numbered)) [])).
Proof.
  destruct numbered as [page_num page]. unfold page_chunks. simpl snd.
  induction (_adaptive_spatial_grouping (get (pg_elements page) []))
    as [|[region_type [|e group]] groups IH]; simpl; [reflexivity| exact IH |].
  now rewrite IH.
Qed.

Lemma flat_map_perm {A B : Type} (f g : A -> list B) l :
  (forall x, Permutation (f x) (g x)) ->
  Permutation (flat_map f l) (flat_map g l).
Proof.
  intros H. induction l as [|x l IH]; simpl; [reflexivity|].
  now apply Permutation_app.
Qed.

Lemma flat_map_flat_map {A B C : Type} (f : B -> list C) (g : A -> list B) l :
  flat_map f (flat_map g l) = flat_map (fun x => flat_map f (g x)) l.
Proof.
  induction l as [|x l IH]; simpl; [reflexivity|].
  now rewrite flat_map_app, IH.
Qed.

Lemma flat_map_enumerate {A B : Type} (f : A -> list B) l : forall start,
  flat_map (fun n => f (snd n)) (enumerate start l) = flat_map f l.
Proof.
  induction l as [|x l IH]; intros start; simpl; [reflexivity|].
  now rewrite IH.
Qed.

(** X3: the elements of the chunks returned by [chunk_invoice_spatially]
    are the elements of the pages, each exactly once: no fragment is lost
    or repeated, and the table chunks hold none. *)
Theorem chunks_hold_every_element pages tables :
  Permutation
    (flat_map elements (chunk_invoice_spatially pages tables))
    (flat_map (fun page => get (pg_elements page) []) pages).
Proof.
  rewrite ChunkerFacts.chunk_invoice_spatially_flat, flat_map_app.
  assert (Ht : flat_map elements (map _create_table_chunk tables) = []).
  { induction tables as [|t tables IH]; simpl; [reflexivity | exact IH]. }
  rewrite Ht, app_nil_r, flat_map_flat_map.
  rewrite <- (flat_map_enumerate (fun page => get (pg_elements page) []) pages 0).
  apply flat_map_perm. intros numbered.
  rewrite page_chunks_elements. apply grouping_perm.
Qed.

(** *** The chunks of a page *)

Lemma page_chunk_origin page_num page c :
  In c (page_chunks (page_num, page)) ->
  let groups := _adaptive_spatial_grouping (get (pg_elements page) []) in
  In (chunk_type c) chunk_types /\
  elements c = dict_get (chunk_type c) groups /\
  elements c <> [] /\
  page_number c = (Z.of_nat page_num + 1)%Z /\
  content c = Py.join Py.nl (map text_of (elements c)).
Proof.
  intros Hc groups. unfold page_chunks in Hc. fold groups in Hc.
  apply in_flat_map in Hc. destruct Hc as [[k v] [Hkv Hc]].
  assert (Hk : In k chunk_types).
  { rewrite <- (grouping_keys (get (pg_elements page) [])). fold groups.
    change k with (fst (k, v)). now apply in_map. }
  assert (Hv : dict_get k groups = v).
  { apply ChunkerFacts.dict_get_unique; [|exact Hkv].
    subst groups. rewrite grouping_keys. unfold chunk_types.
    repeat constructor; simpl; intuition discriminate. }
  destruct v as [|e0 v]; [contradiction|].
  destruct Hc as [<-|[]]. simpl. rewrite Hv.
  repeat split; auto. discriminate.
Qed.

Lemma enumerate_nth {A : Type} i (x : A) (l : list A) : forall start,
  In (i, x) (enumerate start l) ->
  exists j, i = (start + j)%nat /\ nth_error l j = Some x.
Proof.
  induction l as [|y l IH]; intros start; simpl; [tauto|].
  intros [[= <- <-]|H].
  - exists 0%nat. split; [lia | reflexivity].
  - destruct (IH _ H) as (j & -> & Hj). exists (S j). split; [lia | exact Hj].
Qed.

(** X4: every returned chunk is the chunk of a table, or it holds exactly
    the group of its own chunk type of some page, a group that is not
    empty, and bears the number of that page counted from 1. *)
Theorem chunk_origin pages tables c :
  In c (chunk_invoice_spatially pages tables) ->
  (exists table, In table tables /\ c = _create_table_chunk table) \/
  (exists i page,
      nth_error pages i = Some page /\
      page_number c = (Z.of_nat i + 1)%Z /\
      elements c <> [] /\
      elements c
      = dict_get (chunk_type c)
          (_adaptive_spatial_grouping (get (pg_elements page) []))).
Proof.
  rewrite ChunkerFacts.chunk_invoice_spatially_flat. intros Hc.
  apply in_app_or in Hc. destruct Hc as [Hc|Hc].
  - right. apply in_flat_map in Hc. destruct Hc as [[i page] [Hin Hc]].
    exists i, page.
    destruct (enumerate_nth _ _ _ _ Hin) as (j & -> & Hj). simpl.
    destruct (page_chunk_origin _ _ _ Hc) as (_ & He & Hne & Hp & _).
    auto.
  - left. apply in_map_iff in Hc. destruct Hc as (table & <- & Hin). eauto.
Qed.

Lemma chunk_origin_witness :
  exists c,
    In c (chunk_invoice_spatially one_page [bare_table]) /\
    chunk_type c = "totals" /\
    ((exists table, In table [bare_table] /\ c = _create_table_chunk table) \/
     (exists i page,
         nth_error one_page i = Some page /\
         page_number c = (Z.of_nat i + 1)%Z /\
         elements c <> [] /\
         elements c
         = dict_get (chunk_type c)
             (_adaptive_spatial_grouping (get (pg_elements page) [])))).
Proof.
  eexists. split; [vm_compute; left; reflexivity|]. split; [reflexivity|].
  apply (chunk_origin one_page [bare_table]). vm_compute. left. reflexivity.
Defined.

(** *** Types, confidences, sizes *)

(** X5: every chunk returned by [chunk_invoice_spatially] has one of the
    five chunk types of [chunk_types]. *)
Theorem chunk_types_closed pages tables :
  Forall (fun c => In (chunk_type c) chunk_types)
         (chunk_invoice_spatially pages tables).
Proof.
  rewrite ChunkerFacts.chunk_invoice_spatially_flat.
  apply Forall_app. split.
  - apply Forall_flat_map, Forall_forall. intros [i page] _.
    apply Forall_forall. intros c Hc.
    now destruct (page_chunk_origin _ _ _ Hc) as (H & _).
  - apply Forall_map, Forall_forall. intros t _. simpl. tauto.
Qed.

Lemma page_chunks_count numbered : (length (page_chunks numbered) <= 5)%nat.
Proof.
  destruct numbered as [page_num page]. unfold page_chunks.
  pose proof (grouping_keys (get (pg_elements page) [])) as Hk.
  apply (f_equal (@length _)) in Hk. rewrite length_map in Hk. simpl in Hk.
  rewrite <- Hk. clear Hk.
  induction (_adaptive_spatial_grouping (get (pg_elements page) []))
    as [|[region_type [|e group]] groups IH]; simpl; lia.
Qed.

(** X6: a page gives at most five chunks and every table exactly one, so
    the number of returned chunks lies between the number of tables and
    five times the number of pages plus the number of tables. *)
Theorem chunk_count_bounds pages tables :
  (length tables <= length (chunk_invoice_spatially pages tables)
   <= 5 * length pages + length tables)%nat.
Proof.
  rewrite ChunkerFacts.chunk_invoice_spatially_flat, length_app, length_map.
  assert (H : forall start,
             (length (flat_map page_chunks (enumerate start pages))
              <= 5 * length pages)%nat).
  { induction pages as [|p pages IH]; intros start; [simpl; lia|].
    cbn [flat_map enumerate length]. rewrite length_app. specialize (IH (S start)).
    pose proof (page_chunks_count (start, p)). lia. }
  specialize (H 0%nat). lia.
Qed.

End ChunkerInvariants.

(** ** The chunker: boxes, confidences and the merge pass *)

Module ChunkerBounds.

Import Chunker.

(** *** Smallest and largest of numbers *)

Lemma Qlt_bool_true a b : Qlt_bool a b = true -> (a < b)%Q.
Proof.
  unfold Qlt_bool. intros H. apply negb_true_iff in H.
  apply Qnot_le_lt. intros Hle. apply Qle_bool_iff in Hle. congruence.
Qed.

Lemma Qlt_bool_false a b : Qlt_bool a b = false -> (b <= a)%Q.
Proof.
  unfold Qlt_bool. intros H. apply negb_false_iff in H. now apply Qle_bool_iff.
Qed.

Lemma qmin_le a b : (qmin a b <= a)%Q /\ (qmin a b <= b)%Q.
Proof.
  unfold qmin. destruct (Qlt_bool b a) eqn:E.
  - apply Qlt_bool_true in E. split; [now apply Qlt_le_weak | apply Qle_refl].
  - apply Qlt_bool_false in E. split; [apply Qle_refl | exact E].
Qed.

Lemma qmax_ge a b : (a <= qmax a b)%Q /\ (b <= qmax a b)%Q.
Proof.
  unfold qmax. destruct (Qlt_bool a b) eqn:E.
  - apply Qlt_bool_true in E. split; [now apply Qlt_le_weak | apply Qle_refl].
  - apply Qlt_bool_false in E. split; [apply Qle_refl | exact E].
Qed.

Lemma qmax_choice a b : qmax a b = a \/ qmax a b = b.
Proof. unfold qmax. destruct (Qlt_bool a b); auto. Qed.

Lemma min_of_le xs : forall x,
  (min_of x xs <= x)%Q /\ Forall (fun y => (min_of x xs <= y)%Q) xs.
Proof.
  unfold min_of. induction xs as [|y xs IH]; intros x; simpl.
  - split; [apply Qle_refl | constructor].
  - destruct (IH (qmin x y)) as [H1 H2]. destruct (qmin_le x y) as [Hx Hy].
    split; [eapply Qle_trans; eauto|].
    constructor; [eapply Qle_trans; eauto | exact H2].
Qed.

Lemma max_of_ge xs : forall x,
  (x <= max_of x xs)%Q /\ Forall (fun y => (y <= max_of x xs)%Q) xs.
Proof.
  unfold max_of. induction xs as [|y xs IH]; intros x; simpl.
  - split; [apply Qle_refl | constructor].
  - destruct (IH (qmax x y)) as [H1 H2]. destruct (qmax_ge x y) as [Hx Hy].
    split; [eapply Qle_trans; eauto|].
    constructor; [eapply Qle_trans; eauto | exact H2].
Qed.

Lemma boxes_covered (bs : list BBox) b :
  In b bs ->
  inside b
    match bs with
    | c :: cs =>
        (min_of (b0 c) (map b0 cs), min_of (b1 c) (map b1 cs),
         max_of (b2 c) (map b2 cs), max_of (b3 c) (map b3 cs))
    | [] => zero_bbox
    end.
Proof.
  intros Hbox. destruct bs as [|c cs]; [contradiction|].
  destruct (min_of_le (map b0 cs) (b0 c)) as [H0 H0s].
  destruct (min_of_le (map b1 cs) (b1 c)) as [H1 H1s].
  destruct (max_of_ge (map b2 cs) (b2 c)) as [H2 H2s].
  destruct (max_of_ge (map b3 cs) (b3 c)) as [H3 H3s].
  unfold inside. simpl.
  destruct Hbox as [->|Hbox]; [tauto|].
  rewrite Forall_forall in H0s, H1s, H2s, H3s.
  repeat split;
    [apply H0s | apply H1s | apply H2s | apply H3s]; now apply in_map.
Qed.

Lemma given_boxes_in elems e b :
  In e elems -> el_bbox e = Some b ->
  In b (flat_map (fun e => match el_bbox e with Some b => [b] | None => [] end) elems).
Proof.
  intros Hin Hb. apply in_flat_map. exists e. split; [exact Hin|].
  rewrite Hb. now left.
Qed.

(** X7: the bounding box of a chunk built by
    [_create_chunk_from_elements] holds the bounding box of every element
    that has one. *)
Theorem chunk_bbox_covers_elements elems chunk_type page_num e b :
  In e elems -> el_bbox e = Some b ->
  inside b (bbox (_create_chunk_from_elements elems chunk_type page_num)).
Proof.
  intros Hin Hb. unfold _create_chunk_from_elements. cbn [bbox].
  apply boxes_covered. now apply given_boxes_in with e.
Qed.

Lemma chunk_bbox_witness :
  inside (50, 300, 100, 310)%Q
    (bbox (_create_chunk_from_elements [plain_element; totals_like_item] "totals" 1)).
Proof.
  apply (chunk_bbox_covers_elements [plain_element; totals_like_item] "totals" 1
           totals_like_item); [right; left; reflexivity | reflexivity].
Defined.

Lemma fmax_choice a b : fmax a b = a \/ fmax a b = b.
Proof. unfold fmax. destruct (a <? b)%float; auto. Qed.

(** Neither number is greater than [fmax] of the two. *)
Lemma fmax_not_less a b :
  (fmax a b <? a)%float = false /\ (fmax a b <? b)%float = false.
Proof.
  unfold fmax. destruct (a <? b)%float eqn:E.
  - split; [now apply FloatFacts.ltb_asym | apply FloatFacts.ltb_irrefl].
  - split; [apply FloatFacts.ltb_irrefl | exact E].
Qed.

Lemma fmax_ge a b :
  is_nan a = false -> is_nan b = false ->
  (a <=? fmax a b)%float = true /\ (b <=? fmax a b)%float = true.
Proof.
  intros Ha Hb. destruct (fmax_not_less a b) as [H1 H2].
  destruct (fmax_choice a b) as [E | E]; rewrite E in *;
    rewrite !FloatFacts.leb_ltb by assumption; rewrite ?H1, ?H2;
    rewrite ?FloatFacts.ltb_irrefl; auto.
Qed.

(** X8: the bounding box of a chunk merged by [_merge_two_chunks] holds
    the boxes of both chunks, its confidence is the larger of the two
    confidences (one of the two, neither of them greater than it, and both
    at most it when both are numbers), its elements are theirs in order
    and its page is that of the first. *)
Theorem merge_two_chunks_covers chunk1 chunk2 :
  let merged := _merge_two_chunks chunk1 chunk2 in
  inside (bbox chunk1) (bbox merged) /\
  inside (bbox chunk2) (bbox merged) /\
  (confidence merged <? confidence chunk1)%float = false /\
  (confidence merged <? confidence chunk2)%float = false /\
  (is_nan (confidence chunk1) = false -> is_nan (confidence chunk2) = false ->
   (confidence chunk1 <=? confidence merged)%float = true /\
   (confidence chunk2 <=? confidence merged)%float = true) /\
  (confidence merged = confidence chunk1 \/ confidence merged = confidence chunk2) /\
  elements merged = elements chunk1 ++ elements chunk2 /\
  page_number merged = page_number chunk1.
Proof.
  cbv zeta. unfold _merge_two_chunks, inside. simpl.
  pose proof (qmin_le (b0 (bbox chunk1)) (b0 (bbox chunk2))).
  pose proof (qmin_le (b1 (bbox chunk1)) (b1 (bbox chunk2))).
  pose proof (qmax_ge (b2 (bbox chunk1)) (b2 (bbox chunk2))).
  pose proof (qmax_ge (b3 (bbox chunk1)) (b3 (bbox chunk2))).
  pose proof (fmax_not_less (confidence chunk1) (confidence chunk2)).
  pose proof (fmax_ge (confidence chunk1) (confidence chunk2)).
  pose proof (fmax_choice (confidence chunk1) (confidence chunk2)).
  tauto.
Qed.

(** *** What the merge pass keeps *)

Lemma merge_Forall (P : InvoiceChunk -> Prop) :
  (forall a b, P a -> P b -> P (_merge_two_chunks a b)) ->
  forall chunks,
    (Forall P chunks -> Forall P (_merge_related_chunks chunks)) /\
    (forall c, Forall P (c :: chunks) -> Forall P (_merge_related_chunks (c :: chunks))).
Proof.
  intros Hmerge. induction chunks as [|n rest [IH1 IH2]].
  - split; intros; simpl; auto.
  - split; [apply IH2|].
    intros c Hall. inversion Hall as [|? ? Hc Hrest]; subst.
    inversion Hrest as [|? ? Hn Hrest']; subst. simpl.
    destruct (_should_merge_chunks c n).
    + constructor; [now apply Hmerge | now apply IH1].
    + constructor; [exact Hc | now apply IH2].
Qed.

Lemma built_confidence pages tables :
  Forall (fun c => confidence c = 0.8%float \/ confidence c = 0.9%float)
         (chunk_invoice_spatially pages tables).
Proof.
  rewrite ChunkerFacts.chunk_invoice_spatially_flat. apply Forall_app. split.
  - apply Forall_flat_map, Forall_forall. intros numbered _.
    eapply Forall_impl; [|apply ChunkerFacts.page_chunks_confidence].
    intros c Hc. now left.
  - apply Forall_map, Forall_forall. intros t _. now right.
Qed.

(** X9: the confidence of every chunk returned by
    [chunk_invoice_spatially] is between 0 and 1, and stays there when
    [_merge_related_chunks] is run on the chunks. *)
Theorem confidence_in_unit_interval pages tables :
  Forall (fun c => in_unit_interval (confidence c))
         (chunk_invoice_spatially pages tables) /\
  Forall (fun c => in_unit_interval (confidence c))
         (_merge_related_chunks (chunk_invoice_spatially pages tables)).
Proof.
  assert (H : Forall (fun c => in_unit_interval (confidence c))
                     (chunk_invoice_spatially pages tables)).
  { eapply Forall_impl; [|apply built_confidence].
    intros c [-> | ->]; split; reflexivity. }
  split; [exact H|].
  apply (merge_Forall (fun c => in_unit_interval (confidence c))); [|exact H].
  intros a b Ha Hb. simpl.
  destruct (fmax_choice (confidence a) (confidence b)) as [-> | ->]; assumption.
Qed.

(** The merge pass keeps a bound that holds for the confidence of every
    chunk. *)
Lemma merge_keeps_confidence_bounds lo hi chunks :
  Forall (fun c => (lo <=? confidence c)%float = true /\
                   (confidence c <=? hi)%float = true) chunks ->
  Forall (fun c => (lo <=? confidence c)%float = true /\
                   (confidence c <=? hi)%float = true)
         (_merge_related_chunks chunks).
Proof.
  apply (merge_Forall (fun c => (lo <=? confidence c)%float = true /\
                                (confidence c <=? hi)%float = true)).
  intros a b Ha Hb. simpl.
  destruct (fmax_choice (confidence a) (confidence b)) as [-> | ->]; assumption.
Qed.

Lemma merge_elements_two chunks :
  flat_map elements (_merge_related_chunks chunks) = flat_map elements chunks /\
  forall c, flat_map elements (_merge_related_chunks (c :: chunks))
            = flat_map elements (c :: chunks).
Proof.
  induction chunks as [|n rest [IH1 IH2]].
  - split; [reflexivity|]. intros c. reflexivity.
  - split; [apply IH2|]. intros c. simpl.
    destruct (_should_merge_chunks c n); simpl.
    + rewrite IH1, <- app_assoc. reflexivity.
    + specialize (IH2 n). simpl in IH2. now rewrite IH2.
Qed.

Lemma join_cons sep x y rest :
  Py.join sep (x :: y :: rest) = (x ++ sep ++ Py.join sep (y :: rest))%string.
Proof. reflexivity. Qed.

Lemma join_merged x y rest :
  Py.join Py.nl ((x ++ Py.nl ++ y)%string :: rest) = Py.join Py.nl (x :: y :: rest).
Proof.
  destruct rest as [|r rest].
  - reflexivity.
  - rewrite !join_cons, !StringFacts.append_assoc. reflexivity.
Qed.

Lemma join_tail_eq sep x l l' :
  Py.join sep l = Py.join sep l' -> (l = [] <-> l' = []) ->
  Py.join sep (x :: l) = Py.join sep (x :: l').
Proof.
  intros H Hnil. destruct l as [|y l], l' as [|y' l']; try reflexivity.
  - destruct Hnil as [Hnil _]. specialize (Hnil eq_refl). discriminate.
  - destruct Hnil as [_ Hnil]. specialize (Hnil eq_refl). discriminate.
  - rewrite !join_cons. now rewrite H.
Qed.

Lemma merge_nil_iff chunks : _merge_related_chunks chunks = [] <-> chunks = [].
Proof.
  destruct chunks as [|c [|n rest]]; simpl; try tauto.
  destruct (_should_merge_chunks c n); split; intros H; discriminate H.
Qed.

Lemma merge_cons_cons c n rest :
  _merge_related_chunks (c :: n :: rest)
  = if _should_merge_chunks c n
    then _merge_two_chunks c n :: _merge_related_chunks rest
    else c :: _merge_related_chunks (n :: rest).
Proof. reflexivity. Qed.

Lemma merge_content_two chunks :
  Py.join Py.nl (map content (_merge_related_chunks chunks))
  = Py.join Py.nl (map content chunks) /\
  forall c, Py.join Py.nl (map content (_merge_related_chunks (c :: chunks)))
            = Py.join Py.nl (map content (c :: chunks)).
Proof.
  induction chunks as [|n rest [IH1 IH2]].
  - split; [reflexivity|]. intros c. reflexivity.
  - split; [apply IH2|]. intros c. rewrite merge_cons_cons.
    destruct (_should_merge_chunks c n).
    + cbn [map]. unfold _merge_two_chunks at 1. cbn [content].
      rewrite <- join_merged. apply join_tail_eq; [exact IH1|].
      split; intros H; apply map_eq_nil in H.
      * apply (proj1 (merge_nil_iff _)) in H. now subst.
      * now subst.
    + cbn [map]. apply join_tail_eq; [apply IH2|].
      split; intros H; [|discriminate].
      apply map_eq_nil in H. apply (proj1 (merge_nil_iff _)) in H. discriminate.
Qed.

(** X10: [_merge_related_chunks] loses nothing: the elements of the
    chunks, in order, and the contents joined by newlines are the same
    before and after the pass. *)
Theorem merge_keeps_elements_and_content chunks :
  flat_map elements (_merge_related_chunks chunks) = flat_map elements chunks /\
  Py.join Py.nl (map content (_merge_related_chunks chunks))
  = Py.join Py.nl (map content chunks).
Proof. split; [apply merge_elements_two | apply merge_content_two]. Qed.

Lemma merge_half_two chunks :
  (length chunks <= 2 * length (_merge_related_chunks chunks))%nat /\
  forall c, (length (c :: chunks)
             <= 2 * length (_merge_related_chunks (c :: chunks)))%nat.
Proof.
  induction chunks as [|n rest [IH1 IH2]].
  - split; simpl; intros; lia.
  - split; [apply IH2|]. intros c. simpl.
    destruct (_should_merge_chunks c n); simpl.
    + lia.
    + specialize (IH2 n). simpl in IH2. lia.
Qed.

(** X11: one pass of [_merge_related_chunks] at most halves the
    sequence: the input is at most twice as long as the output. *)
Theorem merge_at_most_halves chunks :
  (length chunks <= 2 * length (_merge_related_chunks chunks))%nat.
Proof. apply merge_half_two. Qed.

(** X12: [_merge_related_chunks] returns its input unchanged exactly
    when no chunk satisfies [_should_merge_chunks] with its successor. *)
Theorem merge_fixed_iff chunks :
  _merge_related_chunks chunks = chunks <->
  Forall (fun pair => _should_merge_chunks (fst pair) (snd pair) = false)
         (combine chunks (tl chunks)).
Proof.
  induction chunks as [|c [|n rest] IH].
  - simpl. split; auto.
  - simpl. split; auto.
  - change (tl (c :: n :: rest)) with (n :: rest).
    cbn [combine]. cbn [_merge_related_chunks].
    change (tl (n :: rest)) with rest in IH.
    destruct (_should_merge_chunks c n) eqn:E.
    + split.
      * intros H. apply (f_equal (@length _)) in H. simpl in H.
        pose proof (ChunkerFacts.merge_length_two rest) as [Hlen _]. lia.
      * intros H. inversion H as [|? ? Hpair _]; subst. simpl in Hpair. congruence.
    + split.
      * intros [= H]. constructor; [exact E | now apply IH].
      * intros H. inversion H as [|? ? _ Hrest]; subst. f_equal. now apply IH.
Qed.

End ChunkerBounds.

(** ** The chunker: the counts of the summary *)

Module SummaryFacts.

Import Chunker.

Lemma count_of_count_up t k d :
  count_of t (count_up k d)
  = (count_of t d + (if String.eqb k t then 1 else 0))%nat.
Proof.
  induction d as [|[k' n] d IH]; simpl.
  - rewrite String.eqb_sym. destruct (String.eqb k t); reflexivity.
  - destruct (String.eqb k k') eqn:E; simpl.
    + apply String.eqb_eq in E. subst k'.
      rewrite (String.eqb_sym k t). destruct (String.eqb t k); lia.
    + destruct (String.eqb t k') eqn:E'; [|exact IH].
      apply String.eqb_eq in E'. subst k'. rewrite E. lia.
Qed.

Lemma count_up_keys k d :
  map fst (count_up k d)
  = if existsb (String.eqb k) (map fst d) then map fst d else map fst d ++ [k].
Proof.
  induction d as [|[k' n] d IH]; simpl; [reflexivity|].
  destruct (String.eqb k k'); simpl; [reflexivity|].
  rewrite IH. destruct (existsb (String.eqb k) (map fst d)); reflexivity.
Qed.

Lemma count_up_NoDup k d : NoDup (map fst d) -> NoDup (map fst (count_up k d)).
Proof.
  intros H. rewrite count_up_keys.
  destruct (existsb (String.eqb k) (map fst d)) eqn:E; [exact H|].
  apply NoDup_app; [exact H | repeat constructor; simpl; tauto |].
  intros x Hx [Heq|[]]. subst x.
  assert (Ht : existsb (String.eqb k) (map fst d) = true).
  { apply existsb_exists. exists k. split; [exact Hx | apply String.eqb_refl]. }
  congruence.
Qed.

Lemma count_up_sum k d :
  list_sum (map snd (count_up k d)) = S (list_sum (map snd d)).
Proof.
  induction d as [|[k' n] d IH]; simpl; [reflexivity|].
  destruct (String.eqb k k'); simpl; [lia | rewrite IH; lia].
Qed.

Lemma count_up_positive k d :
  Forall (fun entry => (0 < snd entry)%nat) d ->
  Forall (fun entry => (0 < snd entry)%nat) (count_up k d).
Proof.
  induction d as [|[k' n] d IH]; simpl; intros H.
  - repeat constructor.
  - inversion H; subst. destruct (String.eqb k k'); constructor; simpl in *; auto; lia.
Qed.

(** The first loop of [get_chunk_summary], one component at a time. *)
Lemma summary_loop chunks : forall d total,
  fold_left
    (fun '(chunk_types, total_content_length) chunk =>
       (count_up (chunk_type chunk) chunk_types,
        (total_content_length + Py.len (content chunk))%nat))
    chunks (d, total)
  = (fold_left (fun d chunk => count_up (chunk_type chunk) d) chunks d,
     (total + list_sum (map (fun c => Py.len (content c)) chunks))%nat).
Proof.
  induction chunks as [|c chunks IH]; intros d total; simpl.
  - f_equal. lia.
  - rewrite IH. f_equal. lia.
Qed.

Lemma summary_fields chunks :
  summary_chunk_types (get_chunk_summary chunks)
  = fold_left (fun d chunk => count_up (chunk_type chunk) d) chunks [] /\
  average_chunk_size (get_chunk_summary chunks)
  = match chunks with
    | [] => 0%Q
    | _ :: _ =>
        Py.truediv (Z.of_nat (list_sum (map (fun c => Py.len (content c)) chunks)))
                   (Z.of_nat (length chunks))
    end.
Proof. unfold get_chunk_summary. rewrite summary_loop. simpl. auto. Qed.

Lemma counts_loop chunks : forall d,
  let counts := fold_left (fun d chunk => count_up (chunk_type chunk) d) chunks d in
  (NoDup (map fst d) -> NoDup (map fst counts)) /\
  (forall t, count_of t counts
             = (count_of t d
                + length (filter (fun c => String.eqb (chunk_type c) t) chunks))%nat) /\
  list_sum (map snd counts) = (list_sum (map snd d) + length chunks)%nat /\
  (Forall (fun entry => (0 < snd entry)%nat) d ->
   Forall (fun entry => (0 < snd entry)%nat) counts).
Proof.
  induction chunks as [|c chunks IH]; intros d; cbv zeta; simpl.
  - repeat split; auto; intros; lia.
  - destruct (IH (count_up (chunk_type c) d)) as (Hnd & Hcount & Hsum & Hpos).
    cbv zeta in *. repeat split.
    + intros H. now apply Hnd, count_up_NoDup.
    + intros t. rewrite Hcount, count_of_count_up.
      destruct (String.eqb (chunk_type c) t); simpl; lia.
    + rewrite Hsum, count_up_sum. lia.
    + intros H. now apply Hpos, count_up_positive.
Qed.

(** X13: [get_chunk_summary] lists every chunk type that occurs once,
    with the number of chunks of that type, so the counts add up to the
    number of chunks; the average size is the total length of the contents
    divided by the number of chunks and rounded to a float, which lies
    between the integer quotient and its successor. *)
Theorem summary_counts_by_type chunks :
  let summary := get_chunk_summary chunks in
  let counts := summary_chunk_types summary in
  let total_length := Z.of_nat (list_sum (map (fun c => Py.len (content c)) chunks)) in
  let n := Z.of_nat (total_chunks summary) in
  NoDup (map fst counts) /\
  (forall t, count_of t counts
             = length (filter (fun c => String.eqb (chunk_type c) t) chunks)) /\
  Forall (fun entry => (0 < snd entry)%nat) counts /\
  list_sum (map snd counts) = total_chunks summary /\
  average_chunk_size summary
  = match chunks with
    | [] => 0%Q
    | _ :: _ => Py.truediv total_length n
    end /\
  (chunks <> [] -> (total_length < 2 ^ 52)%Z ->
   (inject_Z (total_length / n) <= average_chunk_size summary
    <= inject_Z (total_length / n + 1))%Q).
Proof.
  cbv zeta. destruct (summary_fields chunks) as [-> ->].
  rewrite ChunkerFacts.summary_total_chunks.
  destruct (counts_loop chunks []) as (Hnd & Hcount & Hsum & Hpos). cbv zeta in *.
  split; [apply Hnd; constructor|].
  split; [intros t; now rewrite Hcount|].
  split; [apply Hpos; constructor|].
  split; [now rewrite Hsum|].
  split; [reflexivity|].
  intros Hne Hsmall. destruct chunks as [|c chunks]; [contradiction|].
  apply RoundFacts.truediv_bounds; [lia | simpl length; lia].
Qed.

End SummaryFacts.

(** ** The chunker: more on the sub-line parser and the table text *)

Module ParserFacts.

Import Chunker.

Lemma last_line_In lines v : last_line lines = Some v -> In v lines.
Proof.
  unfold last_line. intros H. apply in_rev.
  destruct (rev lines); simpl in H; [discriminate|].
  injection H as ->. now left.
Qed.

Lemma hd_error_In {A : Type} (l : list A) v : hd_error l = Some v -> In v l.
Proof. destruct l; simpl; [discriminate|]. intros [= ->]. now left. Qed.

Lemma tl_In {A : Type} (l : list A) v : In v (tl l) -> In v l.
Proof. destruct l; simpl; auto. Qed.

Lemma lines_of_In r lines v :
  In v (lines_of r lines) -> In v lines /\ rule_of v = Some r.
Proof.
  unfold lines_of. intros H. apply filter_In in H. destruct H as [Hin H].
  split; [exact Hin|].
  destruct (rule_of v) as [r'|]; [|discriminate].
  destruct r, r'; simpl in H; congruence.
Qed.

(** X14: every field parsed by [_parse_line_item_details] is one of the
    sub-lines of the cell, one that falls under the rule of the field;
    there is a line total only if there is a unit price. *)
Theorem parsed_fields_are_sub_lines details :
  let lines := sub_lines details in
  let parsed := _parse_line_item_details details in
  (forall v, p_quantity parsed = Some v -> In v lines /\ rule_of v = Some RQuantity) /\
  (forall v, p_unit parsed = Some v -> In v lines /\ rule_of v = Some RUnit) /\
  (forall v, p_unit_price parsed = Some v -> In v lines /\ rule_of v = Some RPrice) /\
  (forall v, p_tax_rate parsed = Some v -> In v lines /\ rule_of v = Some RTax) /\
  (forall v, p_line_total parsed = Some v -> In v lines /\ rule_of v = Some RPrice) /\
  (p_unit_price parsed = None -> p_line_total parsed = None).
Proof.
  cbv zeta. unfold _parse_line_item_details.
  destruct (ChunkerFacts.parse_lines_fields (sub_lines details))
    as (Hq & Hu & Ht & Hp & Hl). cbv zeta in *.
  rewrite Hq, Hu, Ht, Hp, Hl.
  split; [intros v H; now apply lines_of_In, last_line_In|].
  split; [intros v H; now apply lines_of_In, last_line_In|].
  split; [intros v H; now apply lines_of_In, hd_error_In|].
  split; [intros v H; now apply lines_of_In, last_line_In|].
  split; [intros v H; now apply lines_of_In, tl_In, last_line_In|].
  destruct (lines_of RPrice (sub_lines details)); [reflexivity | discriminate].
Qed.

Lemma parse_line_unrecognized parsed line :
  rule_of line = None -> parse_line parsed line = parsed.
Proof. intros H. unfold parse_line. now rewrite H. Qed.

Lemma parse_recognized_only lines : forall parsed,
  fold_left parse_line lines parsed
  = fold_left parse_line (filter recognized lines) parsed.
Proof.
  induction lines as [|l lines IH]; intros parsed; simpl; [reflexivity|].
  unfold recognized at 1. destruct (rule_of l) eqn:E; simpl.
  - apply IH.
  - rewrite parse_line_unrecognized by exact E. apply IH.
Qed.

(** X15: sub-lines that fall under no rule are passed over by
    [_parse_line_item_details]: the result is that of the recognized
    sub-lines alone, and every field is absent when there is none. *)
Theorem unrecognized_sub_lines_ignored details :
  _parse_line_item_details details
  = fold_left parse_line (filter recognized (sub_lines details)) empty_parsed /\
  (Forall (fun line => rule_of line = None) (sub_lines details) ->
   _parse_line_item_details details = empty_parsed).
Proof.
  unfold _parse_line_item_details. split; [apply parse_recognized_only|].
  intros H. rewrite parse_recognized_only.
  replace (filter recognized (sub_lines details)) with (@nil string); [reflexivity|].
  symmetry. induction H as [|l lines Hl _ IH]; simpl; [reflexivity|].
  unfold recognized at 1. now rewrite Hl.
Qed.

(** X16: every sub-line that [_parse_line_item_details] reads is
    non-empty and has no white space at either end: its first and its last
    character are no white space, and stripping it again changes
    nothing. *)
Theorem sub_lines_stripped details line :
  In line (sub_lines details) ->
  line <> "" /\ Py.strip line = line /\
  Py.starts_clean (Py.chars line) /\ Py.starts_clean (rev (Py.chars line)).
Proof.
  unfold sub_lines. intros H. apply in_map_iff in H.
  destruct H as (raw & <- & H). apply filter_In in H. destruct H as [_ H].
  split; [|split; [apply StringFacts.strip_idempotent | apply StringFacts.strip_ends]].
  intros E. rewrite E in H. discriminate.
Qed.

Lemma sub_lines_stripped_witness :
  In "80,00 ‚Ç¨" (sub_lines full_details) /\
  "80,00 ‚Ç¨" <> "" /\ Py.strip "80,00 ‚Ç¨" = "80,00 ‚Ç¨" /\
  Py.starts_clean (Py.chars "80,00 ‚Ç¨") /\
  Py.starts_clean (rev (Py.chars "80,00 ‚Ç¨")).
Proof.
  split; [vm_compute; tauto|].
  apply (sub_lines_stripped full_details). vm_compute. tauto.
Defined.

(** *** The text of a table chunk *)

Lemma table_text_loop rows : forall start text,
  exists blocks,
    fold_left (fun table_text '(i, row) => (table_text ++ row_text i row)%string)
              (enumerate start rows) text
    = (text ++ blocks)%string.
Proof.
  induction rows as [|row rows IH]; intros start text; simpl.
  - exists "". now rewrite StringFacts.append_nil_r.
  - destruct (IH (S start) (text ++ row_text start row)%string) as [blocks H].
    exists (row_text start row ++ blocks)%string. rewrite H.
    apply StringFacts.append_assoc.
Qed.

(** X17: [_create_table_chunk] gives a chunk with empty content for a
    table without rows, and only for such a table; the content of any other
    table starts with the banner. *)
Theorem table_chunk_content table :
  (content (_create_table_chunk table) = ""
   <-> tb_data table = None \/ tb_data table = Some []) /\
  (content (_create_table_chunk table) <> ""
   -> Py.startswith table_banner (content (_create_table_chunk table)) = true).
Proof.
  unfold _create_table_chunk. cbn [content].
  destruct (tb_data table) as [[|row rows]|].
  - split; [tauto | intros H; now elim H].
  - destruct (table_text_loop (row :: rows) 1 table_banner) as [blocks H].
    unfold table_banner in H at 1. rewrite H. split.
    + split.
      * intros E. exfalso. revert E. apply StringFacts.append_nonempty. discriminate.
      * intros [E|E]; discriminate.
    + intros _. apply StringFacts.startswith_append.
  - split; [tauto | intros H; now elim H].
Qed.

End ParserFacts.

(** ** The region-based helpers *)

Module RegionFacts.

Import Chunker Regions.

Lemma last_default {A : Type} (l : list A) d d' : l <> [] -> last l d = last l d'.
Proof.
  induction l as [|x [|y l] IH]; intros H; [contradiction | reflexivity |].
  change (last (y :: l) d = last (y :: l) d'). apply IH. discriminate.
Qed.

Lemma last_snoc {A : Type} (l : list A) x d : last (l ++ [x]) d = x.
Proof. apply last_last. Qed.

(** The loop builds the groups that [regions_after] describes. *)
Lemma region_step_fold l : forall groups current_group d,
  current_group <> [] ->
  let '(groups', current_group') :=
    fold_left region_step l (groups, current_group) in
  current_group' <> [] /\
  groups' ++ [current_group']
  = groups ++
    (let '(current, more) := regions_after (last current_group d) l in
     (current_group ++ current) :: more).
Proof.
  induction l as [|e l IH]; intros groups current_group d Hne; simpl.
  - split; [exact Hne|]. now rewrite app_nil_r.
  - rewrite (last_default current_group e d Hne).
    destruct (same_region (last current_group d) e) eqn:E.
    + specialize (IH groups (current_group ++ [e]) d).
      destruct (fold_left region_step l (groups, current_group ++ [e]))
        as [groups' current_group'].
      destruct IH as [Hne' IH]; [now destruct current_group|].
      split; [exact Hne'|]. rewrite IH, last_snoc.
      destruct (regions_after e l) as [current more].
      now rewrite <- app_assoc.
    + specialize (IH (groups ++ [current_group]) [e] d).
      destruct (fold_left region_step l (groups ++ [current_group], [e]))
        as [groups' current_group'].
      destruct IH as [Hne' IH]; [discriminate|].
      split; [exact Hne'|]. rewrite IH. simpl.
      destruct (regions_after e l) as [current more].
      rewrite <- app_assoc, app_nil_r. reflexivity.
Qed.

Lemma apart_cons x g g2 : g <> [] -> apart g g2 -> apart (x :: g) g2.
Proof.
  unfold apart. intros Hne. simpl.
  destruct (rev g) as [|a r] eqn:E.
  - apply (f_equal (@rev _)) in E. rewrite rev_involutive in E. contradiction.
  - simpl. auto.
Qed.

Lemma regions_after_spec l : forall last_element,
  let '(current, more) := regions_after last_element l in
  let groups := (last_element :: current) :: more in
  concat groups = last_element :: l /\
  Forall (fun g => g <> [] /\ chained near g) groups /\
  chained apart groups.
Proof.
  induction l as [|e l IH]; intros last_element; simpl.
  - repeat split; repeat constructor; discriminate.
  - specialize (IH e). destruct (regions_after e l) as [current more].
    cbv zeta in IH. destruct IH as (Hcat & Hall & Hapart).
    inversion Hall as [|? ? [_ Hfirst] Hmore]; subst.
    destruct (same_region last_element e) eqn:E; cbv zeta.
    + split; [simpl in *; congruence|]. split.
      * constructor; [|exact Hmore]. split; [discriminate|].
        split; [exact E | exact Hfirst].
      * destruct more as [|g more]; [exact I|].
        destruct Hapart as [Ha Hrest]. split; [|exact Hrest].
        apply apart_cons; [discriminate | exact Ha].
    + split; [simpl in *; congruence|]. split.
      * constructor; [split; [discriminate | exact I]|].
        constructor; [split; [discriminate | exact Hfirst] | exact Hmore].
      * split; [exact E | exact Hapart].
Qed.

Lemma insert_asc_perm {A : Type} (key : A -> Q) x l :
  Permutation (Normalizer.insert_asc key x l) (x :: l).
Proof.
  induction l as [|y l IH]; simpl; [reflexivity|].
  destruct (Qlt_bool (key y) (key x)); [|reflexivity].
  rewrite IH. apply perm_swap.
Qed.

Lemma sorted_asc_perm {A : Type} (key : A -> Q) l :
  Permutation (Normalizer.sorted_asc key l) l.
Proof.
  unfold Normalizer.sorted_asc. induction l as [|x l IH]; simpl; [reflexivity|].
  rewrite insert_asc_perm. now constructor.
Qed.

Lemma sorted_asc_nonempty {A : Type} (key : A -> Q) x l :
  Normalizer.sorted_asc key (x :: l) <> [].
Proof.
  intros H. pose proof (sorted_asc_perm key (x :: l)) as Hp. rewrite H in Hp.
  now apply Permutation_nil in Hp.
Qed.

Lemma chained_impl {A : Type} (R S : A -> A -> Prop) (l : list A) :
  (forall x y, R x y -> S x y) -> chained R l -> chained S l.
Proof.
  intros H. induction l as [|x [|y l] IH]; simpl; auto.
  intros [Hxy Hrest]. split; [now apply H | now apply IH].
Qed.

(** Elements that fail the float test are more than the threshold apart
    exactly. *)
Lemma apart_separated g1 g2 : apart g1 g2 -> separated g1 g2.
Proof.
  unfold apart, separated. destruct (rev g1) as [|a r]; [auto|].
  destruct g2 as [|b g2]; [auto|]. unfold same_region. intros H.
  apply Qnot_le_lt. intros Hle.
  apply (RoundFacts.fsub_abs_le 20) in Hle; [|reflexivity].
  apply Qle_bool_iff in Hle.
  assert (E : Qle_bool (Qabs (Py.fsub (top_edge b) (top_edge a))) y_threshold
              = true) by exact Hle.
  congruence.
Qed.

(** X18: the regions of [_group_by_spatial_regions] are the elements in
    the order of the sort by top coordinate, cut where two neighbours are
    more than the threshold apart: no region is empty, neighbours within a
    region pass the test of the threshold on the float difference of their
    top coordinates, the last element of a region and the first of the
    next fail it, and these two are more than 20 apart exactly. *)
Theorem regions_cut_sorted_elements elems groups :
  _group_by_spatial_regions elems = Some groups ->
  concat groups = Normalizer.sorted_asc top_edge elems /\
  Permutation (concat groups) elems /\
  Forall (fun g => g <> [] /\ chained near g) groups /\
  chained apart groups /\
  chained separated groups.
Proof.
  intros H.
  enough (concat groups = Normalizer.sorted_asc top_edge elems /\
          Permutation (concat groups) elems /\
          Forall (fun g => g <> [] /\ chained near g) groups /\
          chained apart groups) as (H1 & H2 & H3 & H4).
  { repeat split; auto. revert H4. apply chained_impl, apart_separated. }
  revert H.
  unfold _group_by_spatial_regions.
  destruct elems as [|e0 elems].
  - intros [= <-]. repeat split; simpl; auto.
  - destruct (forallb _ (e0 :: elems)); [|discriminate].
    pose proof (sorted_asc_perm top_edge (e0 :: elems)) as Hperm.
    destruct (Normalizer.sorted_asc top_edge (e0 :: elems)) as [|first rest] eqn:Es.
    + now apply sorted_asc_nonempty in Es.
    + pose proof (region_step_fold rest [] [first] first) as Hfold.
      destruct (fold_left region_step rest ([], [first]))
        as [groups' current_group'].
      destruct Hfold as [Hne Hfold]; [discriminate|].
      simpl in Hfold. pose proof (regions_after_spec rest first) as Hspec.
      destruct (regions_after first rest) as [current more]. cbv zeta in Hspec.
      destruct current_group' as [|c cs]; [contradiction|].
      intros [= <-]. rewrite Hfold.
      destruct Hspec as (Hcat & Hall & Hapart).
      split; [exact Hcat|]. split; [now rewrite Hcat|]. split; assumption.
Qed.

Lemma regions_witness :
  exists groups,
    _group_by_spatial_regions three_rows = Some groups /\
    map (map text_of) groups = [["a"; "b"]; ["c"]] /\
    concat groups = Normalizer.sorted_asc top_edge three_rows /\
    Permutation (concat groups) three_rows /\
    Forall (fun g => g <> [] /\ chained near g) groups /\
    chained apart groups /\
    chained separated groups.
Proof.
  eexists. split; [vm_compute; reflexivity|]. split; [reflexivity|].
  apply (regions_cut_sorted_elements three_rows). vm_compute. reflexivity.
Defined.

(** X19: [_group_by_spatial_regions] fails, on the key [bbox], exactly
    when some element has no bounding box; on the empty list it returns
    the empty list. *)
Theorem regions_need_bounding_boxes elems :
  _group_by_spatial_regions [] = Some [] /\
  (_group_by_spatial_regions elems = None
   <-> exists e, In e elems /\ el_bbox e = None).
Proof.
  split; [reflexivity|].
  unfold _group_by_spatial_regions. destruct elems as [|e0 elems].
  - split; [discriminate | intros (e & [] & _)].
  - destruct (forallb _ (e0 :: elems)) eqn:E.
    + split.
      * destruct (Normalizer.sorted_asc top_edge (e0 :: elems)); [discriminate|].
        destruct (fold_left region_step _ _) as [g [|c cs]]; discriminate.
      * intros (e & Hin & He). rewrite forallb_forall in E.
        specialize (E e Hin). rewrite He in E. discriminate.
    + split; [|reflexivity]. intros _.
      assert (H : ~ forall e, In e (e0 :: elems) ->
                    match el_bbox e with Some _ => true | None => false end = true).
      { intros H. apply forallb_forall in H. congruence. }
      clear E. induction (e0 :: elems) as [|e l IH].
      * exfalso. apply H. intros e [].
      * destruct (el_bbox e) eqn:Ee.
        -- destruct IH as (e' & Hin & He').
           ++ intros Hall. apply H. intros e' [<-|Hin]; [now rewrite Ee | auto].
           ++ exists e'. split; [now right | exact He'].
        -- exists e. split; [now left | exact Ee].
Qed.

End RegionFacts.

Module RegionChunkFacts.

Import Chunker Regions ChunkerBounds.

Lemma all_boxes_given elems :
  Forall (fun e => el_bbox e <> None) elems ->
  flat_map (fun e => match el_bbox e with Some b => [b] | None => [] end) elems
  = map bbox_of elems.
Proof.
  induction 1 as [|e elems He _ IH]; simpl; [reflexivity|].
  rewrite IH. unfold bbox_of at 2. destruct (el_bbox e); [reflexivity | contradiction].
Qed.

Lemma complete_elements elems :
  forallb (fun e => match el_text e, el_bbox e with
                    | Some _, Some _ => true
                    | _, _ => false
                    end) elems = true ->
  Forall (fun e => el_text e <> None /\ el_bbox e <> None) elems.
Proof.
  rewrite forallb_forall, Forall_forall. intros H e Hin. specialize (H e Hin).
  destruct (el_text e), (el_bbox e); try discriminate. split; discriminate.
Qed.

Lemma incomplete_element elems :
  forallb (fun e => match el_text e, el_bbox e with
                    | Some _, Some _ => true
                    | _, _ => false
                    end) elems = false ->
  exists e, In e elems /\ (el_text e = None \/ el_bbox e = None).
Proof.
  induction elems as [|e elems IH]; simpl; [discriminate|].
  intros H. apply andb_false_iff in H. destruct H as [H|H].
  - exists e. split; [now left|].
    destruct (el_text e), (el_bbox e); try discriminate; auto.
  - destruct (IH H) as (e' & Hin & He'). exists e'. split; [now right | exact He'].
Qed.

(** X20: [_create_chunk] fails exactly when an element has no text or no
    bounding box; otherwise its box is the one that
    [_create_chunk_from_elements] computes for the same elements, and it
    holds the box of every element. *)
Theorem create_chunk_result elems chunk_type page_num confidence :
  match _create_chunk elems chunk_type page_num confidence with
  | Some chunk =>
      Forall (fun e => el_text e <> None /\ el_bbox e <> None) elems /\
      elements chunk = elems /\
      bbox chunk = bbox (_create_chunk_from_elements elems chunk_type page_num) /\
      Forall (fun e => inside (bbox_of e) (bbox chunk)) elems
  | None => exists e, In e elems /\ (el_text e = None \/ el_bbox e = None)
  end.
Proof.
  unfold _create_chunk.
  destruct (forallb _ elems) eqn:E; [|now apply incomplete_element].
  apply complete_elements in E. split; [exact E|]. split; [reflexivity|].
  cbn [bbox _create_chunk_from_elements]. split.
  - rewrite all_boxes_given; [reflexivity|].
    eapply Forall_impl; [|exact E]. now intros e [_ H].
  - apply Forall_forall. intros e Hin. apply boxes_covered. now apply in_map.
Qed.

Lemma process_tables_map tables :
  _process_tables tables
  = map (fun table =>
           {| content := table_text table;
              chunk_type := "table_data";
              elements := [];
              bbox := get (rt_bbox table) zero_bbox;
              page_number := get (rt_page table) 1%Z;
              confidence := get (rt_accuracy table) 0.8%float |}) tables.
Proof.
  unfold _process_tables.
  rewrite (fold_left_appending _ (fun table => [_])) by reflexivity.
  simpl. apply flat_map_singleton.
Qed.

(** X21: a chunk of type [line_items_header] followed by the chunk that
    [_process_tables] makes of a table is merged with it by
    [_merge_related_chunks] into one [line_items] chunk, wherever the two
    lie and whatever their confidences; the confidence of the header is
    not greater than that of the merged chunk, and at most it when it and
    the accuracy of the table are numbers. *)
Theorem header_merges_with_table header table :
  chunk_type header = "line_items_header" ->
  exists merged,
    _merge_related_chunks (header :: _process_tables [table]) = [merged] /\
    chunk_type merged = "line_items" /\
    content merged = (content header ++ Py.nl ++ table_text table)%string /\
    elements merged = elements header /\
    page_number merged = page_number header /\
    (confidence merged <? confidence header)%float = false /\
    (is_nan (confidence header) = false ->
     is_nan (get (rt_accuracy table) 0.8%float) = false ->
     (confidence header <=? confidence merged)%float = true).
Proof.
  intros Hh. rewrite process_tables_map. simpl map. simpl _merge_related_chunks.
  unfold _should_merge_chunks. rewrite Hh. simpl.
  eexists. split; [reflexivity|]. unfold _merge_two_chunks. simpl. rewrite Hh. simpl.
  repeat split.
  - now rewrite app_nil_r.
  - apply ChunkerBounds.fmax_not_less.
  - intros Ha Hb. now apply ChunkerBounds.fmax_ge.
Qed.

Lemma header_merges_witness :
  exists merged,
    _merge_related_chunks (items_header :: _process_tables [far_table]) = [merged] /\
    chunk_type merged = "line_items" /\
    content merged = (content items_header ++ Py.nl ++ table_text far_table)%string /\
    elements merged = elements items_header /\
    page_number merged = page_number items_header /\
    (confidence merged <? confidence items_header)%float = false /\
    (is_nan (confidence items_header) = false ->
     is_nan (get (rt_accuracy far_table) 0.8%float) = false ->
     (confidence items_header <=? confidence merged)%float = true).
Proof. apply (header_merges_with_table items_header far_table). reflexivity. Defined.

End RegionChunkFacts.

(** ** The normalizer: element types and table rows *)

Module RowFacts.

Import Py Rows.

Lemma set_type_type el : element_type (set_type el (element_type el)) = element_type el.
Proof.
  unfold element_type at 1. simpl.
  unfold element_type.
  destruct (Qle_bool 18 (sp_size el) || (isin "Bold" (sp_font el) && Qle_bool 14 (sp_size el)))%bool;
    [reflexivity|].
  destruct (isin "Zwischensumme" (sp_text el) || isin "Umsatzsteuer" (sp_text el)
            || isin "Gesamtbetrag" (sp_text el))%bool; reflexivity.
Qed.

(** X22: [normalize_elements] applied twice gives what it gives applied
    once; every element then has a type, and its text, box, size, font and
    page are as before. *)
Theorem normalize_elements_idempotent pages :
  normalize_elements (normalize_elements pages) = normalize_elements pages /\
  map sp_number (normalize_elements pages) = map sp_number pages /\
  Forall2
    (fun before after =>
       Forall2
         (fun el el' =>
            sp_type el' = Some (element_type el) /\
            sp_text el' = sp_text el /\ sp_bbox el' = sp_bbox el /\
            sp_size el' = sp_size el /\ sp_font el' = sp_font el /\
            sp_page el' = sp_page el)
         (sp_elements before) (sp_elements after))
    pages (normalize_elements pages).
Proof.
  unfold normalize_elements. split; [|split].
  - rewrite map_map. apply map_ext. intros page. simpl. f_equal.
    rewrite map_map. apply map_ext. intros el.
    rewrite set_type_type. reflexivity.
  - rewrite map_map. reflexivity.
  - induction pages as [|page pages IH]; simpl; constructor; [|exact IH].
    simpl. induction (sp_elements page) as [|el els IHe]; simpl; constructor;
      [repeat split | exact IHe].
Qed.

(** *** Table rows *)

Lemma place_In el rows_dict x :
  In x (flat_map snd (place el rows_dict)) ->
  x = el \/ In x (flat_map snd rows_dict).
Proof.
  induction rows_dict as [|[y row] rows_dict IH]; simpl.
  - intros [H|[]]. now left.
  - destruct (Qle_bool _ tolerance); simpl; intros H.
    + apply in_app_or in H. destruct H as [H|H].
      * apply in_app_or in H. destruct H as [H|[H|[]]]; [|now left].
        right. apply in_or_app. now left.
      * right. apply in_or_app. now right.
    + apply in_app_or in H. destruct H as [H|H].
      * right. apply in_or_app. now left.
      * apply IH in H. destruct H as [H|H]; [now left|].
        right. apply in_or_app. now right.
Qed.

Lemma placed_all l : forall rows_dict x,
  In x (flat_map snd (fold_left (fun rows_dict el => place el rows_dict) l rows_dict)) ->
  In x l \/ In x (flat_map snd rows_dict).
Proof.
  induction l as [|el l IH]; intros rows_dict x; simpl; [tauto|].
  intros H. apply IH in H. destruct H as [H|H]; [tauto|].
  apply place_In in H. destruct H as [->|H]; [left; now left | now right].
Qed.

Lemma candidate_has_text el :
  is_table_candidate el = true -> truthy (strip (Normalizer.text el)) = true.
Proof.
  unfold is_table_candidate.
  destruct (truthy (strip (Normalizer.text el))); simpl; [reflexivity | discriminate].
Qed.

Lemma filter_all {A : Type} (f : A -> bool) l :
  (forall x, In x l -> f x = true) -> filter f l = l.
Proof.
  induction l as [|x l IH]; simpl; intros H; [reflexivity|].
  rewrite (H x) by now left. f_equal. apply IH. intros y Hy. apply H. now right.
Qed.

Lemma row_cells_spec row cells :
  (forall el, In el row -> is_table_candidate el = true) ->
  In cells (row_cells row) ->
  (2 <= length cells)%nat /\
  Forall (fun cell => exists el, In el row /\ cell = strip (Normalizer.text el)) cells.
Proof.
  intros Hrow. unfold row_cells.
  set (key := fun e => Chunker.b0 (Normalizer.bbox e)).
  pose proof (RegionFacts.sorted_asc_perm key row) as Hperm.
  destruct (Nat.leb 2 (length (Normalizer.sorted_asc key row))) eqn:E; [|contradiction].
  rewrite filter_all.
  - apply Nat.leb_le in E.
    destruct (Normalizer.sorted_asc key row) as [|e0 es] eqn:Es; [contradiction|].
    intros [<-|[]]. split; [now rewrite length_map|].
    apply Forall_map, Forall_forall. intros el Hin. exists el. split; [|reflexivity].
    now apply (Permutation_in _ Hperm).
  - intros el Hin. apply candidate_has_text, Hrow.
    now apply (Permutation_in _ Hperm).
Qed.

Lemma page_table_rows_spec page cells :
  In cells (page_table_rows page) ->
  (2 <= length cells)%nat /\
  Forall (fun cell =>
            exists el, In el (Normalizer.elements page) /\
                       is_table_candidate el = true /\
                       cell = strip (Normalizer.text el)) cells.
Proof.
  unfold page_table_rows. intros H. apply in_flat_map in H.
  destruct H as [[y row] [Hentry H]]. simpl in H.
  apply (Permutation_in _ (RegionFacts.sorted_asc_perm fst _)) in Hentry.
  assert (Hrow : forall el, In el row ->
                   In el (filter is_table_candidate (Normalizer.elements page))).
  { intros el Hel.
    destruct (placed_all (filter is_table_candidate (Normalizer.elements page)) [] el)
      as [Hin|[]]; [|exact Hin].
    apply in_flat_map. exists (y, row). split; [exact Hentry | exact Hel]. }
  destruct (row_cells_spec row cells) as [Hlen Hcells]; [|exact H|].
  - intros el Hel. apply Hrow in Hel. apply filter_In in Hel. tauto.
  - split; [exact Hlen|]. eapply Forall_impl; [|exact Hcells].
    intros cell (el & Hel & ->). exists el. apply Hrow, filter_In in Hel.
    destruct Hel. auto.
Qed.

(** X23: every row returned by [extract_table_rows] has two cells or
    more, and every cell is the stripped, non-empty text of a candidate
    element of one of the pages. *)
Theorem table_rows_have_two_cells pages :
  Forall
    (fun cells =>
       (2 <= length cells)%nat /\
       Forall (fun cell => cell <> "" /\ strip cell = cell /\ cell_of pages cell) cells)
    (extract_table_rows pages).
Proof.
  unfold extract_table_rows.
  rewrite (fold_left_appending _ page_table_rows) by reflexivity.
  simpl. apply Forall_forall. intros cells H. apply in_flat_map in H.
  destruct H as (page & Hpage & H). apply page_table_rows_spec in H.
  destruct H as [Hlen Hcells]. split; [exact Hlen|].
  eapply Forall_impl; [|exact Hcells].
  intros cell (el & Hel & Hcand & ->). split; [|split].
  - apply candidate_has_text in Hcand. intros E. rewrite E in Hcand. discriminate.
  - apply StringFacts.strip_idempotent.
  - exists page, el. auto.
Qed.

Example grid_page_rows :
  extract_table_rows [grid_page] = [["Consulting"; "2"; "80,00"]].
Proof. vm_compute. reflexivity. Qed.

End RowFacts.

(** ** The normalizer: more on the table structure and the position names *)

Module TableFacts.

Import Py Normalizer.

Lemma filter_both_perm {A : Type} (f : A -> bool) l :
  Permutation (filter (fun x => negb (f x)) l ++ filter f l) l.
Proof.
  induction l as [|x l IH]; simpl; [reflexivity|].
  destruct (f x); simpl.
  - rewrite <- Permutation_middle. now constructor.
  - now constructor.
Qed.

(** X24: [reconstruct_table_structure] makes of every data row either
    the raw row of an item or a summary row, the two kinds keeping their
    order; a row is a summary row exactly when its joined lowercase text
    holds a summary keyword; the format record counts what the structure
    holds. *)
Theorem data_rows_are_split headers data_rows position_names :
  exists ts,
    reconstruct_table_structure (headers :: data_rows) position_names = Some ts /\
    Normalizer.headers ts = headers /\
    map raw_row (items ts) = filter (fun row => negb (is_summary row)) data_rows /\
    summary ts = filter is_summary data_rows /\
    Permutation (map raw_row (items ts) ++ summary ts) data_rows /\
    (length (items ts) + length (summary ts) = length data_rows)%nat /\
    columns (table_format ts) = length headers /\
    item_count (table_format ts) = length (items ts) /\
    (has_summary (table_format ts) = true <-> summary ts <> []).
Proof.
  unfold reconstruct_table_structure. rewrite NormalizerFacts.split_rows. simpl app.
  set (item_rows := filter (fun row => negb (is_summary row)) data_rows).
  set (summary_rows := filter is_summary data_rows).
  eexists. split; [reflexivity|]. cbn [Normalizer.headers items summary table_format
                                        columns item_count has_summary].
  rewrite (fold_left_appending _ (fun n => [make_item headers position_names n]))
    by reflexivity.
  simpl app. rewrite flat_map_singleton.
  assert (Hraw : map raw_row (map (make_item headers position_names)
                                  (Chunker.enumerate 0 item_rows)) = item_rows).
  { destruct (enumerate_rows item_rows 0) as [Hsnd _].
    rewrite <- Hsnd at 2. rewrite map_map. apply map_ext. now intros [i row]. }
  split; [reflexivity|]. split; [exact Hraw|]. split; [reflexivity|].
  split; [rewrite Hraw; apply filter_both_perm|].
  split.
  - rewrite <- (length_map raw_row), Hraw.
    rewrite <- (Permutation_length (filter_both_perm is_summary data_rows)).
    now rewrite length_app.
  - split; [reflexivity|]. split; [reflexivity|].
    destruct summary_rows; simpl; split; intros H;
      try discriminate; try reflexivity; exfalso; now apply H.
Qed.

(** *** The cells of an item *)

Lemma dict_store_fresh k v d :
  ~ In k (map fst d) -> dict_store k v d = d ++ [(k, v)].
Proof.
  induction d as [|[k' v'] d IH]; simpl; intros H; [reflexivity|].
  destruct (String.eqb k k') eqn:E.
  - apply String.eqb_eq in E. subst. tauto.
  - rewrite IH by tauto. reflexivity.
Qed.

Lemma item_data_loop headers : forall start item_row item_data,
  NoDup headers ->
  (forall h, In h headers -> ~ In h (map fst item_data)) ->
  fold_left
    (fun item_data '(j, header) =>
       match nth_error item_row j with
       | Some cell => dict_store header cell item_data
       | None => item_data
       end)
    (Chunker.enumerate start headers) item_data
  = item_data ++ combine headers (skipn start item_row).
Proof.
  induction headers as [|h headers IH]; intros start item_row item_data Hnd Hfresh; simpl.
  - now rewrite app_nil_r.
  - inversion Hnd as [|? ? Hh Hnd']; subst.
    destruct (nth_error item_row start) as [cell|] eqn:E.
    + rewrite dict_store_fresh by (apply Hfresh; now left).
      rewrite IH; [| exact Hnd' |].
      * rewrite <- app_assoc. simpl. f_equal.
        assert (Hs : skipn start item_row = cell :: skipn (S start) item_row).
        { clear -E. revert item_row E.
          induction start as [|n IHn]; intros [|c row] E; simpl in *; try discriminate.
          - now injection E as ->.
          - now apply IHn. }
        now rewrite Hs.
      * intros h' Hin. rewrite map_app, in_app_iff. simpl.
        intros [H|[H|[]]]; [apply (Hfresh h'); [now right | exact H]|].
        subst. contradiction.
    + assert (Hs : skipn start item_row = []).
      { apply skipn_all2. now apply nth_error_None. }
      rewrite Hs. simpl. rewrite app_nil_r.
      rewrite IH; [| exact Hnd' | intros h' Hin; apply Hfresh; now right].
      replace (skipn (S start) item_row) with (@nil string).
      * destruct headers; simpl; now rewrite app_nil_r.
      * symmetry. apply skipn_all2. apply nth_error_None in E. lia.
Qed.

(** X25: under distinct headers the cells of an item are the headers
    paired with the cells of the row, as far as the shorter of the two
    goes: cells beyond the headers are dropped, and a header without a cell
    is absent. *)
Theorem item_cells_zip_headers headers item_row :
  NoDup headers ->
  item_data_of headers item_row = combine headers item_row /\
  length (item_data_of headers item_row)
  = Nat.min (length headers) (length item_row).
Proof.
  intros Hnd. unfold item_data_of.
  rewrite item_data_loop; [| exact Hnd | intros h _ []].
  simpl. split; [reflexivity | apply length_combine].
Qed.

Lemma item_cells_witness :
  NoDup ["Description"; "Qty"; "Unit Price"; "Total"] /\
  item_data_of ["Description"; "Qty"; "Unit Price"; "Total"] ["Consulting"; "2"]
  = [("Description", "Consulting"); ("Qty", "2")].
Proof.
  assert (Hnd : NoDup ["Description"; "Qty"; "Unit Price"; "Total"]).
  { repeat constructor; simpl; intuition discriminate. }
  split; [exact Hnd|].
  now destruct (item_cells_zip_headers ["Description"; "Qty"; "Unit Price"; "Total"]
                  ["Consulting"; "2"] Hnd) as [-> _].
Defined.

(** with a header that occurs twice the later cell takes the place of the
    earlier one *)
Example repeated_header_overwrites :
  item_data_of ["Price"; "Qty"; "Price"] ["1"; "2"; "3"] = [("Price", "3"); ("Qty", "2")].
Proof. reflexivity. Qed.

(** *** The position names of the table column *)

Lemma table_names_loop desc_col_idx data_rows : forall position_names,
  let result :=
    fold_left
      (fun position_names row =>
         match desc_col_idx with
         | Some idx =>
             match nth_error row idx with
             | Some cell =>
                 let desc := strip cell in
                 if (truthy desc && negb (any_in ["€"; "%"; ","] desc))%bool
                 then position_names ++
                      [{| name := desc; source := "table_description_column";
                          pn_bbox := None; pn_page := None |}]
                 else position_names
             | None => position_names
             end
         | None => position_names
         end)
      data_rows position_names in
  exists added,
    result = position_names ++ added /\
    Forall clean_name added /\
    (length added <= length data_rows)%nat /\
    (desc_col_idx = None -> added = []).
Proof.
  destruct desc_col_idx as [idx|];
    induction data_rows as [|row rows IH]; intros position_names; cbv zeta;
    cbn [fold_left];
    try (exists []; rewrite app_nil_r; repeat split; auto; intros; discriminate).
  - cbv zeta in IH. destruct (nth_error row idx) as [cell|].
    + destruct (truthy (strip cell) && negb (any_in ["€"; "%"; ","] (strip cell)))%bool eqn:E.
      * destruct (IH (position_names ++
                      [{| name := strip cell; source := "table_description_column";
                          pn_bbox := None; pn_page := None |}]))
          as (added & -> & Hclean & Hlen & _).
        eexists. rewrite <- app_assoc. split; [reflexivity|].
        apply andb_true_iff in E. destruct E as [E1 E2].
        apply negb_true_iff in E2.
        split; [|split; [simpl; lia | discriminate]].
        constructor; [|exact Hclean].
        unfold clean_name. simpl. repeat split; auto.
        -- intros E. rewrite E in E1. discriminate.
        -- apply StringFacts.strip_idempotent.
      * destruct (IH position_names) as (added & -> & Hclean & Hlen & _).
        exists added. split; [reflexivity|]. split; [exact Hclean|]. split; [simpl; lia|]. intros H; discriminate H.
    + destruct (IH position_names) as (added & -> & Hclean & Hlen & _).
      exists added. split; [reflexivity|]. split; [exact Hclean|]. split; [simpl; lia|]. intros H; discriminate H.
  - cbv zeta in IH. destruct (IH position_names) as (added & -> & Hclean & Hlen & Hnone).
    exists added. split; [reflexivity|]. split; [exact Hclean|].
    split; [simpl; lia | exact Hnone].
Qed.

(** X26: a position name that [extract_position_names] takes from the
    description column is the stripped cell: it is not empty and holds no
    currency sign, percent sign or comma; there is at most one per data
    row, and none without a description column. *)
Theorem table_names_are_clean table_rows :
  Forall clean_name (table_position_names table_rows) /\
  (length (table_position_names table_rows) <= length (tl table_rows))%nat /\
  (find_desc_col 0 (hd [] table_rows) = None -> table_position_names table_rows = []).
Proof.
  unfold table_position_names. destruct table_rows as [|header_row data_rows].
  - repeat split; auto.
  - destruct (table_names_loop (find_desc_col 0 header_row) data_rows [])
      as (added & Hres & Hclean & Hlen & Hnone).
    cbv zeta in Hres. simpl hd. simpl tl. rewrite Hres. simpl. auto.
Qed.

(** *** The position names of the content *)

Lemma scan_elements_spec todo : forall position_names,
  exists added,
    scan_elements todo position_names = position_names ++ added /\
    Forall content_name added /\
    (length added <= pred (length todo))%nat.
Proof.
  induction todo as [|el rest IH]; intros position_names.
  - exists []. simpl. rewrite app_nil_r. auto.
  - cbn [scan_elements].
    destruct (negb (truthy (strip (text el))) || any_in ["€"; "%"] (strip (text el))
              || is_number (strip (text el)))%bool eqn:Eskip.
    + destruct (IH position_names) as (added & -> & Hc & Hlen).
      exists added. repeat split; auto. simpl. lia.
    + cbv zeta.
      destruct (Nat.leb 2 (count_words (strip (text el)))
                && Nat.ltb 5 (len (strip (text el)))
                && negb (isupper (strip (text el)))
                && existsb looks_numeric (firstn 3 rest))%bool eqn:E.
      * destruct (IH (position_names ++
                      [{| name := strip (text el); source := "content_analysis";
                          pn_bbox := Some (bbox el); pn_page := Some (page el) |}]))
          as (added & -> & Hc & Hlen).
        eexists. rewrite <- app_assoc. split; [reflexivity|].
        repeat rewrite andb_true_iff in E. destruct E as [[[E1 E2] E3] E4].
        repeat rewrite orb_false_iff in Eskip. destruct Eskip as [[S1 S2] S3].
        assert (Hrest : rest <> []).
        { intros ->. simpl in E4. discriminate. }
        split.
        -- constructor; [|exact Hc]. unfold content_name. simpl.
           repeat split; try discriminate.
           ++ now apply Nat.leb_le.
           ++ now apply Nat.ltb_lt.
           ++ now apply negb_true_iff.
           ++ exact S2.
           ++ apply StringFacts.strip_idempotent.
        -- simpl. destruct rest; [contradiction | simpl in *; lia].
      * destruct (IH position_names) as (added & -> & Hc & Hlen).
        exists added. repeat split; auto. simpl. lia.
Qed.

(** X27: a position name that [extract_position_names] takes from the
    content has two words or more, more than five characters, is not all
    upper case and holds no currency or percent sign; an element gives a
    name only if an element follows it, so a page gives fewer names than
    it has elements. *)
Theorem content_names_are_plausible pages :
  Forall content_name (content_position_names pages []) /\
  (length (content_position_names pages [])
   <= list_sum (map (fun page => pred (length (elements page))) pages))%nat.
Proof.
  unfold content_position_names.
  assert (H : forall position_names,
             exists added,
               fold_left
                 (fun position_names page =>
                    scan_elements
                      (sorted_asc (fun e => Chunker.b1 (bbox e)) (elements page))
                      position_names)
                 pages position_names
               = position_names ++ added /\
               Forall content_name added /\
               (length added
                <= list_sum (map (fun page => pred (length (elements page))) pages))%nat).
  { induction pages as [|pg pages IH]; intros position_names; simpl.
    - exists []. rewrite app_nil_r. auto.
    - destruct (scan_elements_spec
                  (sorted_asc (fun e => Chunker.b1 (bbox e)) (elements pg)) position_names)
        as (added & -> & Hc & Hlen).
      destruct (IH (position_names ++ added)) as (more & -> & Hc' & Hlen').
      exists (added ++ more). rewrite <- app_assoc. split; [reflexivity|].
      split; [now apply Forall_app|].
      rewrite length_app.
      rewrite (Permutation_length (RegionFacts.sorted_asc_perm _ _)) in Hlen. lia. }
  destruct (H []) as (added & -> & Hc & Hlen). simpl. auto.
Qed.

End TableFacts.

(** ** The chunker: the order of the labels and the merge test *)

Module LabelFacts.

Import Chunker.

Lemma first_pattern_label_spec table text :
  match first_pattern_label table text with
  | Some t =>
      exists before patterns after,
        table = before ++ (t, patterns) :: after /\
        matches_any text (t, patterns) = true /\
        Forall (fun entry => matches_any text entry = false) before
  | None => Forall (fun entry => matches_any text entry = false) table
  end.
Proof.
  induction table as [|[chunk_type patterns] table IH]; simpl; [constructor|].
  destruct (existsb (fun p => Re.search p text) patterns) eqn:E.
  - exists [], patterns, table. repeat split; auto.
  - destruct (first_pattern_label table text) as [t|].
    + destruct IH as (before & ps & after & -> & Hm & Hb).
      exists ((chunk_type, patterns) :: before), ps, after.
      repeat split; auto.
    + constructor; assumption.
Qed.

(** X28: content comes first in [_classify_element_adaptively]: when a
    content pattern is found in the text, the label is the first chunk type
    of [content_patterns] that has such a pattern, whatever the position
    and the font; the spatial clues decide only when no pattern is found. *)
Theorem content_patterns_first_match element text bbox font_info :
  match pattern_label text with
  | Some t =>
      _classify_element_adaptively element text bbox font_info = t /\
      exists before patterns after,
        content_patterns = before ++ (t, patterns) :: after /\
        matches_any text (t, patterns) = true /\
        Forall (fun entry => matches_any text entry = false) before
  | None =>
      _classify_element_adaptively element text bbox font_info
      = spatial_label (b1 bbox) (size_of font_info) text /\
      Forall (fun entry => matches_any text entry = false) content_patterns
  end.
Proof.
  unfold _classify_element_adaptively.
  pose proof (first_pattern_label_spec content_patterns text) as H.
  fold (pattern_label text) in H.
  destruct (pattern_label text); auto.
Qed.

(** X29: on a first chunk of one of the five chunk types the type rule of
    [_should_merge_chunks] never applies: the test holds only on the same
    page and with less than 30 between the fourth coordinate of the first
    box and the second coordinate of the second, for the difference as the
    floats give it and for the exact one. *)
Theorem typed_chunks_merge_only_nearby chunk1 chunk2 :
  In (chunk_type chunk1) chunk_types ->
  _should_merge_chunks chunk1 chunk2 = true ->
  page_number chunk1 = page_number chunk2 /\
  (Qabs (Py.fsub (b3 (bbox chunk1)) (b1 (bbox chunk2))) < 30)%Q /\
  (Qabs (b3 (bbox chunk1) - b1 (bbox chunk2)) < 30)%Q.
Proof.
  intros Htype. unfold _should_merge_chunks.
  assert (E : String.eqb (chunk_type chunk1) "line_items_header" = false).
  { apply String.eqb_neq. intros Heq. rewrite Heq in Htype.
    simpl in Htype. intuition discriminate. }
  rewrite E. simpl.
  destruct (Z.eqb (page_number chunk1) (page_number chunk2)) eqn:Ep; simpl;
    [|discriminate].
  destruct (Qlt_bool _ 30) eqn:Eq; [|discriminate].
  intros _. split; [now apply Z.eqb_eq|].
  apply ChunkerBounds.Qlt_bool_true in Eq. split; [exact Eq|].
  apply (RoundFacts.fsub_abs_lt 30); [reflexivity | exact Eq].
Qed.

Lemma typed_chunks_witness :
  let c := _create_table_chunk bare_table in
  page_number c = page_number c /\
  (Qabs (Py.fsub (b3 (bbox c)) (b1 (bbox c))) < 30)%Q /\
  (Qabs (b3 (bbox c) - b1 (bbox c)) < 30)%Q.
Proof.
  apply (typed_chunks_merge_only_nearby (_create_table_chunk bare_table)
           (_create_table_chunk bare_table)).
  - simpl. tauto.
  - vm_compute. reflexivity.
Defined.

End LabelFacts.
